(** * micro-sam annotator widgets: id bookkeeping, lineage, caching, tiling

    A shallow embedding of the state-changing core of
    [micro_sam/sam_annotator/_widgets.py] and
    [micro_sam/sam_annotator/annotator_3d.py].

    Conventions of the embedding.
    - Python [int] is [Z] (unbounded).
    - A label array (a napari labels layer) is a [volume]: the list of its
      entries along the first axis (slices of a 3d layer, frames of a
      tracking layer, rows of a 2d layer), each entry a [plane] holding the
      remaining axes in C order.  The layers are created with
      [dtype="uint32"] ([annotator_3d.py], lines 255-261; [_widgets.py],
      lines 208-210), so an element is a [Z] in [0, 2^32) and arithmetic
      that numpy performs inside the array wraps modulo [2^32] ([wrap32]).
    - A Python dictionary is a [gmap].
    - A function that changes the viewer or the annotator state returns the
      state it leaves behind together with a [result]: [Ok] with the returned
      value, or [Raise] with the exception.  The state of a [Raise] holds
      what had been mutated before the exception.
    - Collaborators that live outside the two files (the segmentation
      oracle, the prompt extraction helpers of [vutil], the AMG object) are
      section variables. *)

From Stdlib Require Import ZArith Lia.
From stdpp Require Import base option list gmap strings fin_maps.

Local Open Scope Z_scope.

(** ** Python and numpy primitives *)

Module Py.

(** Exceptions the modelled code can raise. *)
Inductive exn :=
  | AssertionError
  | KeyError
  | IndexError
  | ValueError
  | TypeError
  | AttributeError
  | NameError
  | RuntimeError.

Inductive result (A : Type) :=
  | Ok (a : A)
  | Raise (e : exn).
Arguments Ok {A} a.
Arguments Raise {A} e.

(** [a[i]] on a sequence of length [n]: negative indices count from the
    end, anything outside [-n, n) raises [IndexError]. *)
Definition index (n : nat) (i : Z) : option nat :=
  if (0 <=? i) && (i <? Z.of_nat n) then Some (Z.to_nat i)
  else if (- Z.of_nat n <=? i) && (i <? 0) then Some (Z.to_nat (i + Z.of_nat n))
  else None.

(** A bound of the slice [a[lo:hi]] on a sequence of length [n], clipped as
    Python clips it. *)
Definition slice_bound (n : nat) (i : Z) : nat :=
  if i <? 0 then Z.to_nat (Z.max (i + Z.of_nat n) 0)
  else Z.to_nat (Z.min i (Z.of_nat n)).

End Py.

Export Py.

(** ** Tiling inputs of the embedding widget *)

Module Tiling.

(** [_process_tiling_inputs] ([_widgets.py], lines 272-303).  The result is
    the pair [(tile_shape, halo)], each a tuple or [None]. *)
Definition _process_tiling_inputs (tile_shape_x tile_shape_y halo_x halo_y : Z)
  : option (Z * Z) * option (Z * Z) :=
  let tile_shape : option (Z * Z) :=
    if (tile_shape_x =? 0) && (tile_shape_y =? 0) then None
    else if (tile_shape_x =? 0) || (tile_shape_y =? 0) then
      let max_val := Z.max tile_shape_x tile_shape_y in
      let max_val := if max_val <? 256 then 256 else max_val in
      Some (max_val, max_val)
    else if negb (tile_shape_x =? 0) && negb (tile_shape_y =? 0) then
      let ts := (tile_shape_x, tile_shape_y) in
      let ts := if fst ts <? 256 then (256, snd ts) else ts in
      let ts := if snd ts <? 256 then (fst ts, 256) else ts in
      Some ts
    else Some (tile_shape_x, tile_shape_y) in
  let halo : option (Z * Z) :=
    if (halo_x =? 0) && (halo_y =? 0) then
      match tile_shape with
      | Some _ => Some (0, 0)
      | None => None
      end
    else if negb (halo_x =? 0) || negb (halo_y =? 0) then
      let max_val := Z.max halo_x halo_y in
      match tile_shape with
      | None => None
      | Some _ => Some (max_val, max_val)
      end
    else Some (halo_x, halo_y) in
  (tile_shape, halo).

Example tiling_unset : _process_tiling_inputs 0 0 0 0 = (None, None).
Proof. reflexivity. Qed.

Example tiling_one_axis :
  _process_tiling_inputs 0 100 0 32 = (Some (256, 256), Some (32, 32)).
Proof. reflexivity. Qed.

Example tiling_both_axes :
  _process_tiling_inputs 100 512 16 4 = (Some (256, 512), Some (16, 16)).
Proof. reflexivity. Qed.

Example tiling_halo_without_tiles :
  _process_tiling_inputs 0 0 16 0 = (None, None).
Proof. reflexivity. Qed.

Ltac tiling_cases :=
  unfold _process_tiling_inputs; cbn [fst snd];
  repeat match goal with
  | |- context [Z.eqb ?a ?b] => destruct (Z.eqb_spec a b); cbn [andb orb negb fst snd]
  | |- context [Z.ltb ?a ?b] => destruct (Z.ltb_spec a b); cbn [andb orb negb fst snd]
  end;
  cbn [fst snd] in *.

(** C5.  For all integer inputs of [_process_tiling_inputs]: if both tile
    components are 0 the tile shape is [None]; if one of them is nonzero the
    tile shape is a pair with both components at least 256; the halo is
    [None] exactly when the tile shape is [None]; and when exactly one halo
    axis is nonzero while tiling is requested, both halo axes are the
    maximum of the two halo inputs. *)
Theorem process_tiling_inputs_spec (tile_shape_x tile_shape_y halo_x halo_y : Z) :
  let r := _process_tiling_inputs tile_shape_x tile_shape_y halo_x halo_y in
  (tile_shape_x = 0 /\ tile_shape_y = 0 -> fst r = None)
  /\ (tile_shape_x <> 0 \/ tile_shape_y <> 0 ->
      exists a b, fst r = Some (a, b) /\ 256 <= a /\ 256 <= b)
  /\ (snd r = None <-> fst r = None)
  /\ ((halo_x <> 0 /\ halo_y = 0) \/ (halo_x = 0 /\ halo_y <> 0) ->
      fst r <> None ->
      snd r = Some (Z.max halo_x halo_y, Z.max halo_x halo_y)).
Proof.
  cbv zeta. repeat split.
  - intros [-> ->]. reflexivity.
  - intros Hnz. tiling_cases; try lia; eexists _, _; (split; [reflexivity | lia]).
  - tiling_cases; intros; congruence.
  - tiling_cases; intros; congruence.
  - intros Hh Ht. revert Ht. tiling_cases; intros; try congruence; lia.
Qed.

(** The two shapes a result can have. *)
Lemma process_tiling_inputs_shape (tile_shape_x tile_shape_y halo_x halo_y : Z) :
  _process_tiling_inputs tile_shape_x tile_shape_y halo_x halo_y = (None, None)
  \/ exists a b h,
       _process_tiling_inputs tile_shape_x tile_shape_y halo_x halo_y
         = (Some (a, b), Some (h, h))
       /\ 256 <= a /\ 256 <= b.
Proof.
  tiling_cases; try (by left); right; eexists _, _, _;
    (split; [reflexivity | lia]).
Qed.

(** X1.  Normalized values are a fixed point: feeding the result back, with
    [None] written as the unset pair [(0, 0)], returns the same result. *)
Theorem process_tiling_inputs_idempotent (tile_shape_x tile_shape_y halo_x halo_y : Z) :
  let r := _process_tiling_inputs tile_shape_x tile_shape_y halo_x halo_y in
  let tile := default (0, 0) (fst r) in
  let halo := default (0, 0) (snd r) in
  _process_tiling_inputs (fst tile) (snd tile) (fst halo) (snd halo) = r.
Proof.
  cbv zeta.
  destruct (process_tiling_inputs_shape tile_shape_x tile_shape_y halo_x halo_y)
    as [-> | (a & b & h & -> & Ha & Hb)]; [reflexivity |].
  simpl. tiling_cases; try lia; try reflexivity.
  all: repeat f_equal; lia.
Qed.

(** X2.  A requested tile is never made smaller, and a tile of at least 256 in
    both axes is passed on as it is. *)
Theorem process_tiling_inputs_tile (tile_shape_x tile_shape_y halo_x halo_y : Z) :
  let r := _process_tiling_inputs tile_shape_x tile_shape_y halo_x halo_y in
  (forall a b, fst r = Some (a, b) -> tile_shape_x <= a /\ tile_shape_y <= b)
  /\ (256 <= tile_shape_x -> 256 <= tile_shape_y ->
      fst r = Some (tile_shape_x, tile_shape_y))
  /\ (tile_shape_x = 0 \/ tile_shape_y = 0 ->
      forall a b, fst r = Some (a, b) -> a = b).
Proof.
  cbv zeta. split; [|split].
  - intros a b. tiling_cases; intros [= <- <-]; lia.
  - intros Hx Hy. tiling_cases; try lia; reflexivity.
  - intros H0 a b. tiling_cases; intros [= <- <-]; lia.
Qed.

(** X3.  With tiling the halo is the larger halo input in both axes, also when
    both axes are given and differ; without tiling there is no halo. *)
Theorem process_tiling_inputs_halo (tile_shape_x tile_shape_y halo_x halo_y : Z) :
  let r := _process_tiling_inputs tile_shape_x tile_shape_y halo_x halo_y in
  snd r = match fst r with
          | Some _ => Some (Z.max halo_x halo_y, Z.max halo_x halo_y)
          | None => None
          end.
Proof.
  cbv zeta. tiling_cases; try reflexivity; f_equal; f_equal; lia.
Qed.

End Tiling.

(** ** Label arrays *)

Module Labels.

Abbreviation plane := (list Z).
Abbreviation volume := (list (list Z)).
Abbreviation mask := (list (list bool)).

(** Arithmetic inside a [uint32] array wraps. *)
Definition wrap32 (z : Z) : Z := z mod 2 ^ 32.

Definition is_uint32 (z : Z) : bool := (0 <=? z) && (z <? 2 ^ 32).

(** Every element of the array is a [uint32] value. *)
Definition wf_volume (v : volume) : bool := forallb (forallb is_uint32) v.

(** [a.shape == b.shape]. *)
Definition same_shape {A B} (a : list (list A)) (b : list (list B)) : bool :=
  (length a =? length b)%nat
  && forallb (fun pq => (length (fst pq) =? length (snd pq))%nat) (zip a b).

(** [a.size == 0]: numpy's [max] raises on such an array. *)
Definition is_empty (v : volume) : bool :=
  match concat v with
  | [] => true
  | _ :: _ => false
  end.

(** [a.max()] of a non-empty array of unsigned elements. *)
Definition np_max (v : volume) : Z := foldr Z.max 0 (concat v).

(** [a[z][p]], when the position exists. *)
Definition get {A} (v : list (list A)) (z p : nat) : option A :=
  match v !! z with
  | Some pl => pl !! p
  | None => None
  end.

(** [a != 0]. *)
Definition not_equal_zero (v : volume) : mask :=
  map (map (fun x => negb (x =? 0))) v.

(** [a == k] for a Python integer [k]. *)
Definition equal_to (k : Z) (v : volume) : mask :=
  map (map (fun x => x =? k)) v.

(** [a[m] += k] on arrays of one shape. *)
Definition add_at (m : list bool) (k : Z) (p : plane) : plane :=
  zip_with (fun (b : bool) x => if b then wrap32 (x + k) else x) m p.

Definition add_where (m : mask) (k : Z) (v : volume) : volume :=
  zip_with (fun mp p => add_at mp k p) m v.

(** [dst[m] = src[m]] on arrays of one shape. *)
Definition put_at (m : list bool) (src dst : plane) : plane :=
  zip_with (fun (b : bool) xy => if b then fst xy else snd xy) m (zip src dst).

Definition put_where (m : mask) (src dst : volume) : volume :=
  zip_with (fun mp sd => put_at mp (fst sd) (snd sd)) m (zip src dst).

(** [a[m] = k] for a Python integer [k]: the value is stored as [uint32]. *)
Definition fill_at (m : list bool) (k : Z) (p : plane) : plane :=
  zip_with (fun (b : bool) x => if b then wrap32 k else x) m p.

Definition fill_where (m : mask) (k : Z) (v : volume) : volume :=
  zip_with (fun mp p => fill_at mp k p) m v.

(** The shape of a 2d array given as the list of its rows (an array
    without rows is taken to have no columns), [a.squeeze().shape], which
    drops the axes of length 1 and keeps the order of the elements, and the
    number of elements of an array of a shape. *)
Definition shape_2d {A} (a : list (list A)) : list nat :=
  [length a; default 0%nat (length <$> head a)].

Definition squeeze (shape : list nat) : list nat :=
  List.filter (fun n => negb (n =? 1)%nat) shape.

Definition size_of (shape : list nat) : nat := foldr Nat.mul 1%nat shape.

(** [a[m] = k] for an array [a] of shape [ashape] and a boolean array [m]
    of shape [mshape], both stored flat in C order.  The mask indexes the
    leading axes of [a]: numpy raises [IndexError] unless [mshape] is the
    shape of these axes, and assigns the elements of [a] whose leading
    indices the mask selects.  A mask of shape [()] selects all of [a] or
    nothing. *)
Definition fill_leading (ashape mshape : list nat) (m : list bool) (k : Z)
    (a : plane) : result plane :=
  if bool_decide (take (length mshape) ashape = mshape) then
    let inner := size_of (drop (length mshape) ashape) in
    Ok (imap (fun q x => if default false (m !! Nat.div q inner) then wrap32 k else x) a)
  else Raise IndexError.

(** The view [a[lo:hi]] along the first axis, and the array after the view
    has been overwritten by [new] (of the view's length). *)
Definition view {A} (lo hi : nat) (v : list A) : list A :=
  take (hi - lo)%nat (drop lo v).

Definition write_view {A} (lo : nat) (new : list A) (v : list A) : list A :=
  take lo v ++ new ++ drop (lo + length new)%nat v.

(** The bounds of [np.s_[:]] and [np.s_[z_min:(z_max+1)]] on [n] entries. *)
Definition bounds (z_range : option (Z * Z)) (n : nat) : nat * nat :=
  match z_range with
  | None => (0%nat, n)
  | Some (z_min, z_max) => (slice_bound n z_min, slice_bound n (z_max + 1))
  end.

Definition in_bounds (bb : nat * nat) (z : nat) : bool :=
  (fst bb <=? z)%nat && (z <? snd bb)%nat.

(** [data[i] = seg] on a label layer: Python indexing of the first axis, a
    check of the value against the slice, and the cast to [uint32].  The
    planes carry no shape: a value of the size of the slice is taken to
    have its shape, and a value of another size raises; numpy's
    broadcasting of a smaller value into the slice is outside this
    model. *)
Definition set_plane (data : volume) (i : Z) (seg : plane) : result volume :=
  match Py.index (length data) i with
  | None => Raise IndexError
  | Some k =>
      match data !! k with
      | None => Raise IndexError
      | Some old =>
          if (length seg =? length old)%nat then Ok (<[k := map wrap32 seg]> data)
          else Raise ValueError
      end
  end.

(** [np.zeros(shape[-2:])] as a list of rows. *)
Definition zeros_2d (shape : list nat) : volume :=
  match rev shape with
  | width :: height :: _ => replicate height (replicate width 0)
  | [width] => [replicate width 0]
  | [] => []
  end.

(** [np.unique(a)]: the sorted distinct elements. *)
Fixpoint insert_sorted (x : Z) (l : list Z) : list Z :=
  match l with
  | [] => [x]
  | y :: r =>
      if x <? y then x :: l
      else if x =? y then l
      else y :: insert_sorted x r
  end.

Definition np_unique (l : list Z) : list Z := foldr insert_sorted [] l.

Example np_unique_sorts : np_unique [3; 0; 3; 1; 0] = [0; 1; 3].
Proof. reflexivity. Qed.

(** *** Facts about the array primitives *)

Lemma fold_max_nonneg (l : list Z) : 0 <= foldr Z.max 0 l.
Proof. induction l as [|x l IH]; simpl; lia. Qed.

Lemma fold_max_ge (l : list Z) (x : Z) : x ∈ l -> x <= foldr Z.max 0 l.
Proof.
  induction l as [|y l IH]; intros Hx.
  - inversion Hx.
  - apply elem_of_cons in Hx as [-> | Hx]; simpl; [lia | specialize (IH Hx); lia].
Qed.

Lemma fold_max_le (l : list Z) (M : Z) :
  0 <= M -> (forall x, x ∈ l -> x <= M) -> foldr Z.max 0 l <= M.
Proof.
  intros HM. induction l as [|y l IH]; intros Hl; simpl; [lia |].
  assert (y <= M) by (apply Hl; left).
  assert (foldr Z.max 0 l <= M) by (apply IH; intros; apply Hl; by right).
  lia.
Qed.

Lemma fold_max_attained (l : list Z) :
  foldr Z.max 0 l = 0 \/ foldr Z.max 0 l ∈ l.
Proof.
  induction l as [|y l IH]; simpl; [by left |].
  destruct (Z.max_spec y (foldr Z.max 0 l)) as [[_ ->] | [_ ->]].
  - destruct IH as [IH | IH]; [by left | right; by right].
  - right; left.
Qed.

Lemma elem_of_concat_get (v : volume) (x : Z) :
  x ∈ concat v <-> exists z p, get v z p = Some x.
Proof.
  unfold get. induction v as [|pl v IH]; simpl.
  - split; [intros H; inversion H | intros (z & p & H); destruct z; discriminate].
  - rewrite elem_of_app, IH. split.
    + intros [H | (z & p & H)].
      * apply list_elem_of_lookup in H as [p Hp]. by exists 0%nat, p.
      * by exists (S z), p.
    + intros ([|z] & p & H); simpl in H.
      * left. by eapply list_elem_of_lookup_2.
      * right. by exists z, p.
Qed.

Lemma np_max_nonneg (v : volume) : 0 <= np_max v.
Proof. apply fold_max_nonneg. Qed.

Lemma np_max_ge (v : volume) (z p : nat) (y : Z) :
  get v z p = Some y -> y <= np_max v.
Proof. intros H. apply fold_max_ge, elem_of_concat_get. eauto. Qed.

Lemma np_max_le (v : volume) (M : Z) :
  0 <= M -> (forall z p y, get v z p = Some y -> y <= M) -> np_max v <= M.
Proof.
  intros HM H. apply fold_max_le; [done |].
  intros x (z & p & Hx)%elem_of_concat_get. eauto.
Qed.

Lemma np_max_attained (v : volume) :
  np_max v = 0 \/ exists z p, get v z p = Some (np_max v).
Proof.
  destruct (fold_max_attained (concat v)) as [H | H]; [by left | right].
  by apply elem_of_concat_get.
Qed.

Lemma is_uint32_spec (x : Z) : is_uint32 x = true <-> 0 <= x < 2 ^ 32.
Proof. unfold is_uint32. rewrite andb_true_iff, Z.leb_le, Z.ltb_lt. done. Qed.

Lemma wf_volume_get (v : volume) (z p : nat) (x : Z) :
  wf_volume v = true -> get v z p = Some x -> 0 <= x < 2 ^ 32.
Proof.
  unfold wf_volume, get. intros Hwf Hget.
  destruct (v !! z) as [pl|] eqn:Hz; [|done].
  rewrite forallb_forall in Hwf.
  apply list_elem_of_lookup_2, list_elem_of_In, Hwf in Hz.
  rewrite forallb_forall in Hz.
  apply is_uint32_spec, Hz, list_elem_of_In. by eapply list_elem_of_lookup_2.
Qed.

Lemma wrap32_small (x : Z) : 0 <= x < 2 ^ 32 -> wrap32 x = x.
Proof. intros H. unfold wrap32. by apply Z.mod_small. Qed.

Lemma get_not_equal_zero (v : volume) (z p : nat) :
  get (not_equal_zero v) z p = (fun x => negb (x =? 0)) <$> get v z p.
Proof.
  unfold get, not_equal_zero. rewrite list_lookup_fmap.
  destruct (v !! z) as [pl|]; simpl; [by rewrite list_lookup_fmap | done].
Qed.

Lemma get_equal_to (k : Z) (v : volume) (z p : nat) :
  get (equal_to k v) z p = (fun x => x =? k) <$> get v z p.
Proof.
  unfold get, equal_to. rewrite list_lookup_fmap.
  destruct (v !! z) as [pl|]; simpl; [by rewrite list_lookup_fmap | done].
Qed.

Lemma get_add_where (m : mask) (k : Z) (v : volume) (z p : nat) :
  get (add_where m k v) z p =
    match get m z p, get v z p with
    | Some b, Some x => Some (if b then wrap32 (x + k) else x)
    | _, _ => None
    end.
Proof.
  unfold get, add_where, add_at. rewrite lookup_zip_with.
  destruct (m !! z) as [mp|]; simpl; [|done].
  destruct (v !! z) as [pl|]; simpl; [|by destruct (mp !! p)].
  rewrite lookup_zip_with. destruct (mp !! p); simpl; [|done].
  by destruct (pl !! p).
Qed.

Lemma get_fill_where (m : mask) (k : Z) (v : volume) (z p : nat) :
  get (fill_where m k v) z p =
    match get m z p, get v z p with
    | Some b, Some x => Some (if b then wrap32 k else x)
    | _, _ => None
    end.
Proof.
  unfold get, fill_where, fill_at. rewrite lookup_zip_with.
  destruct (m !! z) as [mp|]; simpl; [|done].
  destruct (v !! z) as [pl|]; simpl; [|by destruct (mp !! p)].
  rewrite lookup_zip_with. destruct (mp !! p); simpl; [|done].
  by destruct (pl !! p).
Qed.

Lemma get_put_where (m : mask) (src dst : volume) (z p : nat) :
  get (put_where m src dst) z p =
    match get m z p, get src z p, get dst z p with
    | Some b, Some x, Some y => Some (if b then x else y)
    | _, _, _ => None
    end.
Proof.
  unfold get, put_where, put_at. rewrite lookup_zip_with, lookup_zip_with.
  destruct (m !! z) as [mp|]; simpl; [|done].
  destruct (src !! z) as [sp|]; simpl; [|by destruct (mp !! p)].
  destruct (dst !! z) as [dp|]; simpl; [|by destruct (mp !! p), (sp !! p)].
  rewrite lookup_zip_with, lookup_zip_with.
  destruct (mp !! p); simpl; [|done].
  destruct (sp !! p); simpl; [|done].
  by destruct (dp !! p).
Qed.

Lemma index_lt (n : nat) (i : Z) (k : nat) : Py.index n i = Some k -> (k < n)%nat.
Proof.
  unfold Py.index.
  destruct (Z.leb_spec 0 i), (Z.ltb_spec i (Z.of_nat n)); simpl;
    try (intros [= <-]; lia);
    destruct (Z.leb_spec (- Z.of_nat n) i), (Z.ltb_spec i 0); simpl;
    intros [=]; lia.
Qed.

(** The slice addressed by [start_slice] is the first one that
    [seg[:start_slice]] leaves out. *)
Lemma index_slice_bound (n : nat) (i : Z) (k : nat) :
  Py.index n i = Some k -> slice_bound n i = k.
Proof.
  unfold Py.index, slice_bound.
  destruct (Z.leb_spec 0 i), (Z.ltb_spec i (Z.of_nat n)); simpl;
    destruct (Z.ltb_spec i 0); try lia; try (intros [= <-]; lia);
    destruct (Z.leb_spec (- Z.of_nat n) i); simpl; intros [=]; lia.
Qed.

Lemma elem_of_insert_sorted (x y : Z) (l : list Z) :
  y ∈ insert_sorted x l <-> y = x \/ y ∈ l.
Proof.
  induction l as [|z l IH]; simpl.
  - rewrite list_elem_of_singleton. split; [by left | intros [H | H]; [done | inversion H]].
  - destruct (Z.ltb_spec x z).
    + by rewrite elem_of_cons.
    + destruct (Z.eqb_spec x z) as [-> |].
      * rewrite elem_of_cons. tauto.
      * rewrite !elem_of_cons, IH. tauto.
Qed.

Lemma elem_of_np_unique (y : Z) (l : list Z) : y ∈ np_unique l <-> y ∈ l.
Proof.
  unfold np_unique. induction l as [|x l IH]; simpl; [done |].
  by rewrite elem_of_insert_sorted, elem_of_cons, IH.
Qed.

Lemma slice_bound_le (n : nat) (i : Z) : (slice_bound n i <= n)%nat.
Proof. unfold slice_bound. destruct (Z.ltb_spec i 0); lia. Qed.

Lemma bounds_le (z_range : option (Z * Z)) (n : nat) :
  (fst (bounds z_range n) <= n)%nat /\ (snd (bounds z_range n) <= n)%nat.
Proof.
  destruct z_range as [[z_min z_max]|]; simpl; [|lia].
  split; apply slice_bound_le.
Qed.

Lemma view_lookup {A} (lo hi : nat) (v : list A) (i : nat) :
  view lo hi v !! i = if decide (i < hi - lo)%nat then v !! (lo + i)%nat else None.
Proof.
  unfold view. case_decide.
  - by rewrite lookup_take_lt, lookup_drop.
  - apply lookup_take_ge. lia.
Qed.

Lemma view_length {A} (lo hi : nat) (v : list A) :
  (hi <= length v)%nat -> length (view lo hi v) = (hi - lo)%nat.
Proof. intros H. unfold view. rewrite length_take, length_drop. lia. Qed.

Lemma write_view_lookup {A} (lo hi : nat) (new v : list A) (z : nat) :
  (hi <= length v)%nat -> length new = (hi - lo)%nat -> (lo <= length v)%nat ->
  write_view lo new v !! z =
    if in_bounds (lo, hi) z then new !! (z - lo)%nat else v !! z.
Proof.
  intros Hhi Hlen Hlo. unfold write_view, in_bounds. simpl.
  destruct (Nat.leb_spec lo z); simpl.
  - rewrite lookup_app_r by (rewrite length_take; lia).
    rewrite length_take, Nat.min_l by done.
    destruct (Nat.ltb_spec z hi).
    + apply lookup_app_l. lia.
    + rewrite lookup_app_r by lia. rewrite lookup_drop. f_equal. lia.
  - rewrite lookup_app_l by (rewrite length_take; lia).
    apply lookup_take_lt. lia.
Qed.

Lemma same_shape_spec {A B} (a : list (list A)) (b : list (list B)) :
  same_shape a b = true <->
  length a = length b
  /\ forall z pa pb, a !! z = Some pa -> b !! z = Some pb -> length pa = length pb.
Proof.
  unfold same_shape. rewrite andb_true_iff, Nat.eqb_eq, forallb_forall.
  split; intros [Hlen H]; (split; [done |]).
  - intros z pa pb Ha Hb. apply Nat.eqb_eq.
    apply (H (pa, pb)), list_elem_of_In, list_elem_of_lookup.
    exists z. rewrite lookup_zip_with, Ha. simpl. by rewrite Hb.
  - intros [pa pb] (z & Hz)%list_elem_of_In%list_elem_of_lookup.
    rewrite lookup_zip_with in Hz. apply Nat.eqb_eq. simpl.
    destruct (a !! z) eqn:Ha; simpl in Hz; [|done].
    destruct (b !! z) eqn:Hb; simpl in Hz; [|done].
    inversion Hz; subst. eauto.
Qed.

Lemma same_shape_get {A B} (a : list (list A)) (b : list (list B)) (z p : nat) :
  same_shape a b = true -> is_Some (get a z p) <-> is_Some (get b z p).
Proof.
  intros [Hlen H]%same_shape_spec. unfold get.
  destruct (a !! z) as [pa|] eqn:Ha, (b !! z) as [pb|] eqn:Hb.
  - rewrite !lookup_lt_is_Some, (H z pa pb) by done. done.
  - apply lookup_lt_Some in Ha. apply lookup_ge_None in Hb. lia.
  - apply lookup_lt_Some in Hb. apply lookup_ge_None in Ha. lia.
  - done.
Qed.

Lemma same_shape_of_get {A B} (a : list (list A)) (b : list (list B)) :
  length a = length b ->
  (forall z p, is_Some (get a z p) <-> is_Some (get b z p)) ->
  same_shape a b = true.
Proof.
  intros Hlen Hget. apply same_shape_spec. split; [done |].
  intros z pa pb Ha Hb.
  assert (forall p, (p < length pa)%nat <-> (p < length pb)%nat) as Hp.
  { intros p. specialize (Hget z p). unfold get in Hget. rewrite Ha, Hb in Hget.
    by rewrite <- !lookup_lt_is_Some. }
  destruct (Nat.lt_trichotomy (length pa) (length pb)) as [H | [H | H]]; [|done|].
  - apply Hp in H. lia.
  - apply Hp in H. lia.
Qed.

Lemma same_shape_trans {A B C} (a : list (list A)) (b : list (list B))
    (c : list (list C)) :
  same_shape a b = true -> same_shape b c = true -> same_shape a c = true.
Proof.
  intros [Hab H1]%same_shape_spec [Hbc H2]%same_shape_spec.
  apply same_shape_spec. split; [congruence |].
  intros z pa pc Ha Hc.
  destruct (lookup_lt_is_Some_2 b z) as [pb Hb].
  { apply lookup_lt_Some in Ha. lia. }
  rewrite (H1 z pa pb Ha Hb). eauto.
Qed.

Lemma same_shape_map_map {A B} (f : A -> B) (a : list (list A)) :
  same_shape (map (map f) a) a = true.
Proof.
  apply same_shape_spec. split; [by rewrite length_map |].
  intros z pa pb Ha Hb. rewrite list_lookup_fmap, Hb in Ha.
  injection Ha as <-. by rewrite length_map.
Qed.

Lemma get_map_map {A B} (f : A -> B) (a : list (list A)) (z p : nat) :
  get (map (map f) a) z p = f <$> get a z p.
Proof.
  unfold get. rewrite list_lookup_fmap.
  destruct (a !! z) as [pl|]; simpl; [by rewrite list_lookup_fmap | done].
Qed.

Lemma set_plane_insert (data : volume) (i : Z) (seg : plane) (data' : volume) :
  set_plane data i seg = Ok data' ->
  exists k, Py.index (length data) i = Some k
            /\ data' = <[k := map wrap32 seg]> data.
Proof.
  unfold set_plane. repeat case_match; intros [=]; subst. eauto.
Qed.

End Labels.

Export Labels.

(** ** The annotator state and the label layers of the viewer *)

Module State.

(** The three label layers of the viewer ([viewer.layers[name].data]). *)
Record Layers := {
  committed_objects : volume;
  current_object : volume;
  auto_segmentation : volume;
}.

(** The fields of the [AnnotatorState] singleton that the commit and
    tracking widgets read and write.  A lineage is a dictionary from a
    track id to the list of its daughters. *)
Record AnnotatorState := {
  z_range : option (Z * Z);
  current_track_id : Z;
  lineage : gmap Z (list Z);
  committed_lineages : list (gmap Z (list Z));
}.

(** The layers a commit can take its segmentation from (the choices of the
    [layer] argument of [commit] and [commit_track]). *)
Inductive layer_choice :=
  | Current_object
  | Auto_segmentation.

Definition layer_data (v : Layers) (l : layer_choice) : volume :=
  match l with
  | Current_object => current_object v
  | Auto_segmentation => auto_segmentation v
  end.

Definition set_layer_data (v : Layers) (l : layer_choice) (d : volume) : Layers :=
  match l with
  | Current_object =>
      {| committed_objects := committed_objects v;
         current_object := d;
         auto_segmentation := auto_segmentation v |}
  | Auto_segmentation =>
      {| committed_objects := committed_objects v;
         current_object := current_object v;
         auto_segmentation := d |}
  end.

Definition set_committed_objects (v : Layers) (d : volume) : Layers :=
  {| committed_objects := d;
     current_object := current_object v;
     auto_segmentation := auto_segmentation v |}.

End State.

Export State.

(** ** Committing a segmentation *)

Module Commit.

(** [_commit_impl] ([_widgets.py], lines 83-116).  [seg] is a view of the
    source layer, so [seg[mask] += id_offset] also changes that layer; the
    maximum is taken over the whole committed layer, the write is restricted
    to the bounding box [bb].  The maximum (lines 100-102) and the mask
    (lines 107-109) are computed block by block with the block shape
    [util.get_block_shape(shape)], which has a 0 where the array has one:
    both raise [ValueError] on an array without elements, so a commit with
    an empty bounding box raises before anything is written.  The function
    returns [(id_offset, seg, mask, bb)]. *)
Definition _commit_impl (st : AnnotatorState) (v : Layers) (layer : layer_choice)
  : Layers * result (Z * volume * mask * (nat * nat)) :=
  let src := layer_data v layer in
  let bb := bounds (z_range st) (length src) in
  let seg := view (fst bb) (snd bb) src in
  let committed := committed_objects v in
  if is_empty committed then (v, Raise ValueError) else
  let id_offset := np_max committed in
  if is_empty seg then (v, Raise ValueError) else
  let mask := not_equal_zero seg in
  let seg := add_where mask id_offset seg in
  let v := set_layer_data v layer (write_view (fst bb) seg src) in
  let cbb := bounds (z_range st) (length committed) in
  let target := view (fst cbb) (snd cbb) committed in
  if negb (same_shape mask target) then (v, Raise IndexError) else
  let v := set_committed_objects v (write_view (fst cbb) (put_where mask seg target) committed) in
  (v, Ok (id_offset, seg, mask, bb)).

(** The committed layer after a successful [_commit_impl], pixel by pixel. *)
Definition committed_pixel (bb : nat * nat) (id_offset : Z) (z : nat) (old src : Z) : Z :=
  if in_bounds bb z && negb (src =? 0) then wrap32 (src + id_offset) else old.

(** [seg[mask]]: the selected elements, in C order. *)
Definition masked_values (m : mask) (seg : volume) : list Z :=
  concat (zip_with (fun mp p => snd <$> filter (fun bx => fst bx = true) (zip mp p)) m seg).

(** [_commit_to_file] ([_widgets.py], lines 120-186) writes the committed
    pixels and the prompts to a zarr container on disk.  The container is
    not part of the annotator state; what the caller can observe of the
    function is the [RuntimeError] it raises when several objects are
    committed and the prompts cannot be attributed to them.  [n_prompts] and
    [n_point_prompts] are [len] of the data of the two prompt layers. *)
Definition _commit_to_file (layer : layer_choice) (seg : volume) (m : mask)
    (n_prompts n_point_prompts : nat) : result unit :=
  match layer with
  | Auto_segmentation => Ok tt
  | Current_object =>
      let object_ids := np_unique (masked_values m seg) in
      if (length object_ids =? 1)%nat then Ok tt
      else
        let have_prompts := (0 <? n_prompts)%nat in
        let have_point_prompts := (0 <? n_point_prompts)%nat in
        if have_prompts && negb have_point_prompts then Ok tt
        else if negb have_prompts && have_point_prompts then Ok tt
        else Raise RuntimeError
  end.

(** The dictionary comprehension of [commit_track] (lines 231-233):
    [{parent + id_offset: [child + id_offset for child in children]
      for parent, children in state.lineage.items()}]. *)
Definition shift_lineage (id_offset : Z) (l : gmap Z (list Z)) : gmap Z (list Z) :=
  list_to_map
    ((fun pc => (fst pc + id_offset, (fun child => child + id_offset) <$> snd pc))
       <$> map_to_list l).

(** [_reset_tracking_state] ([_widgets.py], lines 36-54).  The property
    choices of the prompt layers and of the track id menu, which it also
    resets, belong to the GUI and are not modelled. *)
Definition _reset_tracking_state (st : AnnotatorState) : AnnotatorState :=
  {| z_range := z_range st;
     current_track_id := 1;
     lineage := {[ 1 := [] ]};
     committed_lineages := committed_lineages st |}.

Definition append_committed_lineage (st : AnnotatorState) (l : gmap Z (list Z))
  : AnnotatorState :=
  {| z_range := z_range st;
     current_track_id := current_track_id st;
     lineage := lineage st;
     committed_lineages := committed_lineages st ++ [l] |}.

Section Widgets.

(** [vutil.clear_annotations(viewer)], defined outside the two files. *)
Variable clear_annotations : Layers -> Layers.

(** [commit] ([_widgets.py], lines 194-212). *)
Definition commit (st : AnnotatorState) (v : Layers) (layer : layer_choice)
    (commit_path : option string) (n_prompts n_point_prompts : nat)
  : Layers * result unit :=
  match _commit_impl st v layer with
  | (v, Raise e) => (v, Raise e)
  | (v, Ok (_, seg, m, bb)) =>
      let written :=
        match commit_path with
        | Some _ => _commit_to_file layer seg m n_prompts n_point_prompts
        | None => Ok tt
        end in
      match written with
      | Raise e => (v, Raise e)
      | Ok _ =>
          match layer with
          | Current_object => (clear_annotations v, Ok tt)
          | Auto_segmentation =>
              ({| committed_objects := committed_objects v;
                  current_object := current_object v;
                  auto_segmentation := map (map (fun _ => 0)) (auto_segmentation v) |},
               Ok tt)
          end
      end
  end.

(** [commit_track] ([_widgets.py], lines 220-246).  The lineage is appended
    before the file is written, so it stays appended when the write raises. *)
Definition commit_track (st : AnnotatorState) (v : Layers) (layer : layer_choice)
    (commit_path : option string) (n_prompts n_point_prompts : nat)
  : (AnnotatorState * Layers) * result unit :=
  match _commit_impl st v layer with
  | (v, Raise e) => ((st, v), Raise e)
  | (v, Ok (id_offset, seg, m, bb)) =>
      let updated_lineage := shift_lineage id_offset (lineage st) in
      let st := append_committed_lineage st updated_lineage in
      let written :=
        match commit_path with
        | Some _ => _commit_to_file layer seg m n_prompts n_point_prompts
        | None => Ok tt
        end in
      match written with
      | Raise e => ((st, v), Raise e)
      | Ok _ =>
          let v :=
            match layer with
            | Current_object => clear_annotations v
            | Auto_segmentation => v
            end in
          ((_reset_tracking_state st, v), Ok tt)
      end
  end.

End Widgets.

(** A tracking session after one division of track 1, over a layer of two
    frames of two pixels that holds one committed object with id 7. *)
Definition example_state : AnnotatorState :=
  {| z_range := None;
     current_track_id := 1;
     lineage := {[ 1 := [2; 3]; 2 := []; 3 := [] ]};
     committed_lineages := [ {[ 1 := [] ]} ] |}.

Definition example_layers : Layers :=
  {| committed_objects := [[7; 0]; [0; 0]];
     current_object := [[0; 1]; [2; 3]];
     auto_segmentation := [[0; 0]; [0; 0]] |}.

(** One commit whose ids fit the [uint32] range of the layers: the layers
    hold [uint32] values of one shape, and the largest committed id plus the
    largest id inside the bounding box of the source layer is below [2^32]. *)
Inductive commit_step : volume -> volume -> Prop :=
  | commit_step_intro (st : AnnotatorState) (v v' : Layers) (layer : layer_choice)
      (r : Z * volume * mask * (nat * nat)) :
      let bb := bounds (z_range st) (length (layer_data v layer)) in
      wf_volume (committed_objects v) = true ->
      wf_volume (layer_data v layer) = true ->
      same_shape (committed_objects v) (layer_data v layer) = true ->
      np_max (committed_objects v)
        + np_max (view (fst bb) (snd bb) (layer_data v layer)) < 2 ^ 32 ->
      _commit_impl st v layer = (v', Ok r) ->
      commit_step (committed_objects v) (committed_objects v').

(** The committed layer [c'] is reached from [c] by a sequence of such
    commits (the source layers may change freely in between). *)
Definition commits : volume -> volume -> Prop := rtc commit_step.

Lemma committed_objects_set_layer_data (v : Layers) (l : layer_choice) (d : volume) :
  committed_objects (set_layer_data v l d) = committed_objects v.
Proof. by destruct l. Qed.

Lemma get_view {A} (lo hi : nat) (v : list (list A)) (i p : nat) :
  (i < hi - lo)%nat -> get (view lo hi v) i p = get v (lo + i)%nat p.
Proof. intros H. unfold get. rewrite view_lookup. by case_decide. Qed.

Lemma get_write_view {A} (lo hi : nat) (new v : list (list A)) (z p : nat) :
  (hi <= length v)%nat -> length new = (hi - lo)%nat -> (lo <= length v)%nat ->
  get (write_view lo new v) z p =
    if in_bounds (lo, hi) z then get new (z - lo)%nat p else get v z p.
Proof.
  intros. unfold get. rewrite (write_view_lookup lo hi) by done.
  by destruct (in_bounds (lo, hi) z).
Qed.

Lemma same_shape_view {A B} (lo hi : nat) (a : list (list A)) (b : list (list B)) :
  same_shape a b = true -> same_shape (view lo hi a) (view lo hi b) = true.
Proof.
  intros [Hlen H]%same_shape_spec. apply same_shape_spec. split.
  - unfold view. rewrite !length_take, !length_drop. lia.
  - intros z pa pb. rewrite !view_lookup. case_decide; [apply H | done].
Qed.

Lemma same_shape_not_equal_zero {A} (s : volume) (c : list (list A)) :
  same_shape s c = true -> same_shape (not_equal_zero s) c = true.
Proof.
  intros [Hlen H]%same_shape_spec. apply same_shape_spec. split.
  - unfold not_equal_zero. by rewrite length_map.
  - intros z pa pb Ha Hb. unfold not_equal_zero in Ha.
    rewrite list_lookup_fmap in Ha.
    destruct (s !! z) as [ps|] eqn:Hs; simpl in Ha; [|done].
    inversion Ha; subst. rewrite length_map. eauto.
Qed.

Lemma same_shape_sym {A B} (a : list (list A)) (b : list (list B)) :
  same_shape a b = true -> same_shape b a = true.
Proof.
  intros [Hlen H]%same_shape_spec. apply same_shape_spec.
  split; [done |]. intros z pa pb Ha Hb. symmetry. eauto.
Qed.

(** A successful commit, pixel by pixel: inside the bounding box a nonzero
    source pixel overwrites the committed pixel with its id shifted by
    [np_max c] (in [uint32] arithmetic); every other pixel is kept. *)
Lemma commit_impl_get (st : AnnotatorState) (v : Layers) (layer : layer_choice) :
  let c := committed_objects v in
  let s := layer_data v layer in
  let bb := bounds (z_range st) (length s) in
  same_shape c s = true ->
  is_empty c = false ->
  is_empty (view (fst bb) (snd bb) s) = false ->
  exists seg m v',
    _commit_impl st v layer = (v', Ok (np_max c, seg, m, bb))
    /\ forall z p,
        get (committed_objects v') z p =
          match get c z p, get s z p with
          | Some y, Some x => Some (committed_pixel bb (np_max c) z y x)
          | _, _ => None
          end.
Proof.
  intros c s bb Hshape Hne Hbox.
  pose proof (proj1 (same_shape_spec c s) Hshape) as [Hlen _].
  assert (fst bb <= length s /\ snd bb <= length s)%nat as [Hlo Hhi]
    by apply bounds_le.
  unfold _commit_impl. fold c s. rewrite Hne. rewrite Hlen. fold bb.
  rewrite Hbox. clearbody bb.
  set (seg := view (fst bb) (snd bb) s).
  set (target := view (fst bb) (snd bb) c).
  assert (same_shape (not_equal_zero seg) target = true) as Hm.
  { apply same_shape_not_equal_zero, same_shape_view, same_shape_sym, Hshape. }
  rewrite Hm. simpl.
  eexists _, _, _. split; [reflexivity |].
  intros z p. simpl.
  assert (length seg = (snd bb - fst bb)%nat) as Hseg by (by apply view_length).
  assert (length target = (snd bb - fst bb)%nat) as Htarget
    by (apply view_length; lia).
  rewrite (get_write_view (fst bb) (snd bb)); cycle 1.
  { lia. }
  { unfold put_where, add_where, not_equal_zero.
    rewrite length_zip_with, length_zip_with, length_zip_with, length_map. lia. }
  { lia. }
  unfold committed_pixel.
  replace (in_bounds (fst bb, snd bb) z) with (in_bounds bb z) by (by destruct bb).
  destruct (in_bounds bb z) eqn:Hin; simpl.
  - unfold in_bounds in Hin. apply andb_true_iff in Hin as [Hl Hh].
    apply Nat.leb_le in Hl. apply Nat.ltb_lt in Hh.
    rewrite get_put_where, get_add_where, get_not_equal_zero.
    unfold seg, target. rewrite !get_view by lia.
    replace (fst bb + (z - fst bb))%nat with z by lia.
    destruct (same_shape_get c s z p Hshape) as [H1 H2].
    destruct (get s z p) as [x|], (get c z p) as [y|]; simpl; try done.
    by destruct (x =? 0).
  - destruct (same_shape_get c s z p Hshape) as [H1 H2].
    destruct (get c z p) as [y|]; [|done].
    destruct (get s z p) as [x|]; [done |].
    destruct H1 as [? [=]]; eauto.
Qed.

Lemma commit_impl_ok_nonempty (st : AnnotatorState) (v v' : Layers)
    (layer : layer_choice) (r : Z * volume * mask * (nat * nat)) :
  _commit_impl st v layer = (v', Ok r) ->
  let bb := bounds (z_range st) (length (layer_data v layer)) in
  is_empty (committed_objects v) = false
  /\ is_empty (view (fst bb) (snd bb) (layer_data v layer)) = false.
Proof.
  unfold _commit_impl. destruct (is_empty (committed_objects v)); [intros [=] |].
  destruct (is_empty (view _ _ _)); [intros [=] | done].
Qed.

(** Inside the bounding box the shifted id does not wrap. *)
Lemma shifted_id_fits (c s : volume) (bb : nat * nat) (z p : nat) (x : Z) :
  wf_volume c = true -> wf_volume s = true ->
  np_max c + np_max (view (fst bb) (snd bb) s) < 2 ^ 32 ->
  in_bounds bb z = true -> get s z p = Some x ->
  0 <= x /\ wrap32 (x + np_max c) = x + np_max c.
Proof.
  intros Hc Hs Hfit Hin Hx.
  pose proof (wf_volume_get s z p x Hs Hx) as Hx32.
  pose proof (np_max_nonneg c) as Hc0.
  unfold in_bounds in Hin. apply andb_true_iff in Hin as [Hl Hh].
  apply Nat.leb_le in Hl. apply Nat.ltb_lt in Hh.
  assert (x <= np_max (view (fst bb) (snd bb) s)) as Hle.
  { apply (np_max_ge _ (z - fst bb)%nat p). rewrite get_view by lia.
    by replace (fst bb + (z - fst bb))%nat with z by lia. }
  split; [lia |]. apply wrap32_small. lia.
Qed.

Lemma commit_step_max (c c' : volume) : commit_step c c' -> np_max c <= np_max c'.
Proof.
  intros [st v v' layer r bb Hc Hs Hshape Hfit Hrun].
  destruct (commit_impl_ok_nonempty _ _ _ _ _ Hrun) as [Hne Hbox].
  destruct (commit_impl_get st v layer Hshape Hne Hbox)
    as (seg & m & v'' & Hrun' & Hget).
  rewrite Hrun in Hrun'. injection Hrun' as -> _.
  destruct (np_max_attained (committed_objects v)) as [-> | (z & p & Hz)].
  { apply np_max_nonneg. }
  specialize (Hget z p). rewrite Hz in Hget.
  destruct (same_shape_get _ _ z p Hshape) as [[x Hx] _]; [eauto |].
  rewrite Hx in Hget. unfold committed_pixel in Hget.
  destruct (in_bounds _ z) eqn:Hin; simpl in Hget.
  - destruct (shifted_id_fits _ _ _ z p x Hc Hs Hfit Hin Hx) as [Hx0 Hwrap].
    destruct (x =? 0); simpl in Hget; [by eapply np_max_ge |].
    rewrite Hwrap in Hget. apply np_max_ge in Hget. lia.
  - by eapply np_max_ge.
Qed.

(** The maximum committed id never decreases over a sequence of commits. *)
Lemma commits_max (c0 c : volume) : commits c0 c -> np_max c0 <= np_max c.
Proof.
  induction 1 as [|c0 c1 c Hstep _ IH]; [lia |].
  apply commit_step_max in Hstep. lia.
Qed.

Lemma shift_lineage_lookup (id_offset : Z) (l : gmap Z (list Z)) (k : Z) :
  shift_lineage id_offset l !! k
  = (fmap (fun child => child + id_offset)) <$> l !! (k - id_offset).
Proof.
  unfold shift_lineage. apply option_eq. intros cs.
  rewrite <- elem_of_list_to_map; cycle 1.
  { assert (forall xs : list (Z * list Z),
      ((fun pc => (fst pc + id_offset, (fun child => child + id_offset) <$> snd pc))
         <$> xs).*1 = (fun p => p + id_offset) <$> xs.*1) as ->
      by (intros xs; induction xs as [|x xs IHxs];
          [done | rewrite !fmap_cons, IHxs; done]).
    apply NoDup_fmap_2; [intros a b; lia | apply NoDup_fst_map_to_list]. }
  rewrite list_elem_of_fmap, fmap_Some. split.
  - intros ([parent children] & [= -> ->] & Hin). simpl.
    apply elem_of_map_to_list in Hin. exists children.
    split; [|done]. rewrite <- Hin. f_equal. lia.
  - intros (children & Hl & ->). exists (k - id_offset, children). split.
    + simpl. f_equal. lia.
    + by apply elem_of_map_to_list.
Qed.

Section WidgetFacts.

Variable clear_annotations : Layers -> Layers.

(** C6.  Every commit of a tracking result ([commit_track] whose
    [_commit_impl] returned) leaves the committed lineages as they were and
    appends one entry: the session lineage with every parent and every
    child shifted by the id offset of this commit, also when writing the
    file raises afterwards.  Resetting the tracking state sets the session
    lineage to [{1: []}] and keeps the committed lineages. *)
Theorem commit_track_appends_lineage (st : AnnotatorState) (v v1 : Layers)
    (layer : layer_choice) (commit_path : option string)
    (n_prompts n_point_prompts : nat)
    (id_offset : Z) (seg : volume) (m : mask) (bb : nat * nat) :
  _commit_impl st v layer = (v1, Ok (id_offset, seg, m, bb)) ->
  let st' := fst (fst (commit_track clear_annotations st v layer commit_path
                         n_prompts n_point_prompts)) in
  let shifted := shift_lineage id_offset (lineage st) in
  id_offset = np_max (committed_objects v)
  /\ committed_lineages st' = committed_lineages st ++ [shifted]
  /\ (forall i old, committed_lineages st !! i = Some old ->
        committed_lineages st' !! i = Some old)
  /\ (forall parent,
        shifted !! (parent + id_offset)
        = (fmap (fun child => child + id_offset)) <$> lineage st !! parent)
  /\ (forall k, is_Some (shifted !! k) -> is_Some (lineage st !! (k - id_offset)))
  /\ (forall st0,
        committed_lineages (_reset_tracking_state st0) = committed_lineages st0
        /\ lineage (_reset_tracking_state st0) = {[ 1 := [] ]}).
Proof.
  intros Hrun st' shifted.
  assert (committed_lineages st' = committed_lineages st ++ [shifted]) as Happ.
  { unfold st', commit_track. rewrite Hrun.
    destruct commit_path as [path|]; simpl; [|done].
    by destruct (_commit_to_file layer seg m n_prompts n_point_prompts). }
  split; [|split; [|split; [|split; [|split]]]].
  - unfold _commit_impl in Hrun.
    destruct (is_empty (committed_objects v)); [done |].
    destruct (is_empty (view _ _ _)); [done |].
    destruct (negb _); [done |]. by injection Hrun as _ <- _ _ _.
  - exact Happ.
  - intros i old Hi. rewrite Happ. by apply lookup_app_l_Some.
  - intros parent. unfold shifted. rewrite shift_lineage_lookup.
    do 2 f_equal. lia.
  - intros k. unfold shifted. rewrite shift_lineage_lookup.
    by rewrite fmap_is_Some.
  - done.
Qed.

End WidgetFacts.

Lemma commit_track_appends_lineage_witness :
  let st' := fst (fst (commit_track (fun v => v) example_state example_layers
                         Current_object None 0 0)) in
  let shifted := shift_lineage 7 (lineage example_state) in
  7 = np_max (committed_objects example_layers)
  /\ committed_lineages st' = committed_lineages example_state ++ [shifted]
  /\ (forall i old, committed_lineages example_state !! i = Some old ->
        committed_lineages st' !! i = Some old)
  /\ (forall parent,
        shifted !! (parent + 7)
        = (fmap (fun child => child + 7)) <$> lineage example_state !! parent)
  /\ (forall k, is_Some (shifted !! k) -> is_Some (lineage example_state !! (k - 7)))
  /\ (forall st0,
        committed_lineages (_reset_tracking_state st0) = committed_lineages st0
        /\ lineage (_reset_tracking_state st0) = {[ 1 := [] ]}).
Proof.
  eapply (commit_track_appends_lineage (fun v => v) example_state example_layers).
  vm_compute. reflexivity.
Defined.

Example commit_track_example :
  committed_lineages
    (fst (fst (commit_track (fun v => v) example_state example_layers
                 Current_object None 0 0)))
  = [ {[ 1 := [] ]}; {[ 8 := [9; 10]; 9 := []; 10 := [] ]} ].
Proof. vm_compute. reflexivity. Qed.

End Commit.

(** ** Stacking per-slice instance segmentations *)

Module Stacking.

Section Loop.

(** The annotator state threaded through the loop, and the call
    [_instance_segmentation_impl(viewer, ..., i=i, skip_update=True)] for
    slice [i], flattened in C order. *)
Context {W : Type}.
Variable segment_slice_i : W -> nat -> W * result plane.

(** The loop of [_segment_volume] ([_widgets.py], lines 677-688) from slice
    [i] on.  [planes] are the slices [i, i+1, ...] of
    [segmentation = np.zeros_like(...)]; a slice without objects is skipped
    ([continue]) and keeps its zeros, any other slice has its nonzero ids
    shifted by [offset] and is stored. *)
Fixpoint stack_slices (w : W) (offset : Z) (i : nat) (planes : volume)
  : W * result volume :=
  match planes with
  | [] => (w, Ok [])
  | zeros :: rest =>
      match segment_slice_i w i with
      | (w, Raise e) => (w, Raise e)
      | (w, Ok seg) =>
          if (length seg =? 0)%nat then (w, Raise ValueError)
          else
            let seg_max := foldr Z.max 0 seg in
            if seg_max =? 0 then
              match stack_slices w offset (S i) rest with
              | (w, Ok stacked) => (w, Ok (zeros :: stacked))
              | (w, Raise e) => (w, Raise e)
              end
            else
              let seg := add_at (map (fun x => negb (x =? 0)) seg) offset seg in
              let offset := seg_max + offset in
              if negb (length seg =? length zeros)%nat then (w, Raise ValueError)
              else
                match stack_slices w offset (S i) rest with
                | (w, Ok stacked) => (w, Ok (seg :: stacked))
                | (w, Raise e) => (w, Raise e)
                end
      end
  end.

(** The calls for the slices [i, i+1, ...], made in this order from the
    state [w], return the segmentations [segs]. *)
Fixpoint returns_all (w : W) (i : nat) (segs : volume) : Prop :=
  match segs with
  | [] => True
  | seg :: rest =>
      exists w', segment_slice_i w i = (w', Ok seg) /\ returns_all w' (S i) rest
  end.

End Loop.

(** The number of ids the slices bring along: the sum of their maxima. *)
Definition total_ids (segs : volume) : Z :=
  foldr (fun seg acc => foldr Z.max 0 seg + acc) 0 segs.

(** No slice is a zero-size array. *)
Definition no_empty_slice (segs : volume) : bool :=
  forallb (fun seg => negb (length seg =? 0)%nat) segs.

Definition all_zero (planes : volume) : bool :=
  forallb (forallb (fun x => x =? 0)) planes.

Lemma same_shape_cons {A B} (a : list A) (b : list B) (s : list (list A))
    (t : list (list B)) :
  same_shape (a :: s) (b :: t) = true <->
  length a = length b /\ same_shape s t = true.
Proof.
  unfold same_shape. simpl.
  rewrite !andb_true_iff, !Nat.eqb_eq. split; intros; intuition lia.
Qed.

Lemma same_shape_nil_r {A B} (s : list (list A)) :
  same_shape s (@nil (list B)) = true -> s = [].
Proof.
  unfold same_shape. intros [Hlen _]%andb_true_iff.
  apply Nat.eqb_eq in Hlen. by destruct s.
Qed.

Lemma np_max_cons (pl : plane) (v : volume) :
  np_max (pl :: v) = Z.max (foldr Z.max 0 pl) (np_max v).
Proof.
  unfold np_max. simpl. induction pl as [|x pl IH]; simpl.
  - pose proof (fold_max_nonneg (concat v)). lia.
  - rewrite IH. lia.
Qed.

Lemma forallb_is_uint32 (seg : plane) (x : Z) :
  forallb is_uint32 seg = true -> x ∈ seg -> 0 <= x < 2 ^ 32.
Proof.
  rewrite forallb_forall. intros H Hx.
  apply is_uint32_spec, H, list_elem_of_In, Hx.
Qed.

(** Shifting the nonzero ids of a slice, element by element. *)
Lemma add_at_nonzero (seg : plane) (o : Z) :
  add_at (map (fun x => negb (x =? 0)) seg) o seg
  = map (fun x => if x =? 0 then x else wrap32 (x + o)) seg.
Proof.
  unfold add_at. induction seg as [|x seg IH]; simpl; [done |].
  rewrite IH. by destruct (x =? 0).
Qed.

Lemma fold_max_add_at (seg : plane) (o : Z) :
  forallb is_uint32 seg = true -> 0 <= o ->
  foldr Z.max 0 seg <> 0 -> o + foldr Z.max 0 seg < 2 ^ 32 ->
  foldr Z.max 0 (add_at (map (fun x => negb (x =? 0)) seg) o seg)
  = foldr Z.max 0 seg + o.
Proof.
  intros Hwf Ho HM Hfit. rewrite add_at_nonzero.
  set (M := foldr Z.max 0 seg) in *.
  pose proof (fold_max_nonneg seg) as HM0. fold M in HM0.
  apply Z.le_antisymm.
  - apply fold_max_le; [lia |].
    intros y (x & -> & Hx)%list_elem_of_fmap.
    pose proof (forallb_is_uint32 seg x Hwf Hx).
    pose proof (fold_max_ge seg x Hx). fold M in H0.
    destruct (Z.eqb_spec x 0); [lia |]. rewrite wrap32_small; lia.
  - apply fold_max_ge. apply list_elem_of_fmap. exists M. split.
    + destruct (Z.eqb_spec M 0); [done |]. rewrite wrap32_small; lia.
    + destruct (fold_max_attained seg) as [H | H]; [done | exact H].
Qed.

Lemma total_ids_nonneg (segs : volume) : 0 <= total_ids segs.
Proof.
  induction segs as [|seg segs IH]; simpl; [lia |].
  pose proof (fold_max_nonneg seg). lia.
Qed.

Section LoopFacts.

Context {W : Type}.
Variable segment_slice_i : W -> nat -> W * result plane.

(** When every per-slice call returns and the ids fit the [uint32] range,
    the loop returns the stacked slices: a nonzero id [x] of slice [j] has
    become [x] plus the running maximum, which is the start offset [o] or
    the largest id stored in the slices before [j]. *)
Lemma stack_slices_spec (planes segs : volume) (w : W) (o : Z) (i : nat) :
  0 <= o ->
  returns_all segment_slice_i w i segs ->
  same_shape segs planes = true ->
  wf_volume segs = true ->
  no_empty_slice segs = true ->
  all_zero planes = true ->
  o + total_ids segs < 2 ^ 32 ->
  exists w' stacked,
    stack_slices segment_slice_i w o i planes = (w', Ok stacked)
    /\ forall j p x, get segs j p = Some x ->
         get stacked j p
         = Some (if x =? 0 then 0 else x + Z.max o (np_max (take j stacked))).
Proof.
  revert segs w o i.
  induction planes as [|zeros rest IH]; intros segs w o i Ho Hret Hshape Hwf Hne Hz Hfit.
  - apply same_shape_nil_r in Hshape as ->. exists w, []. split; [done |].
    intros j p x Hx. unfold get in Hx. by rewrite lookup_nil in Hx.
  - destruct segs as [|seg segs].
    { unfold same_shape in Hshape. simpl in Hshape. done. }
    apply same_shape_cons in Hshape as [Hlen Hshape].
    simpl in Hret. destruct Hret as (w1 & Hcall & Hret).
    unfold wf_volume in Hwf. simpl in Hwf. apply andb_true_iff in Hwf as [Hseg Hwf].
    unfold no_empty_slice in Hne. simpl in Hne. apply andb_true_iff in Hne as [Hne1 Hne].
    unfold all_zero in Hz. simpl in Hz. apply andb_true_iff in Hz as [Hz1 Hz].
    simpl in Hfit. pose proof (total_ids_nonneg segs) as Htot.
    pose proof (fold_max_nonneg seg) as HM0.
    simpl. rewrite Hcall.
    apply negb_true_iff in Hne1. rewrite Hne1.
    destruct (Z.eqb_spec (foldr Z.max 0 seg) 0) as [HM | HM].
    + destruct (IH segs w1 o (S i)) as (w' & stacked & Hrun & Hget); try done; [lia |].
      rewrite Hrun. exists w', (zeros :: stacked). split; [done |].
      intros [|j] p x Hx; unfold get in *; simpl in *.
      * assert (x = 0) as ->.
        { apply list_elem_of_lookup_2 in Hx.
          pose proof (forallb_is_uint32 seg x Hseg Hx).
          pose proof (fold_max_ge seg x Hx). lia. }
        simpl. apply lookup_lt_Some in Hx as Hp. rewrite Hlen in Hp.
        apply lookup_lt_is_Some in Hp as [y Hy]. rewrite Hy. f_equal.
        rewrite forallb_forall in Hz1.
        apply Z.eqb_eq, Hz1, list_elem_of_In. by eapply list_elem_of_lookup_2.
      * rewrite (Hget j p x Hx). f_equal.
        rewrite np_max_cons.
        assert (foldr Z.max 0 zeros = 0) as ->.
        { apply Z.le_antisymm; [|apply fold_max_nonneg].
          apply fold_max_le; [lia |]. intros y Hy.
          rewrite forallb_forall in Hz1.
          apply list_elem_of_In, Hz1, Z.eqb_eq in Hy. lia. }
        pose proof (np_max_nonneg (take j stacked)).
        destruct (x =? 0); [done | lia].
    + unfold add_at at 1.
      rewrite length_zip_with, length_map, Nat.min_id, Hlen, Nat.eqb_refl. simpl.
      destruct (IH segs w1 (foldr Z.max 0 seg + o) (S i)) as (w' & stacked & Hrun & Hget);
        try done; [lia | lia |].
      rewrite Hrun. eexists w', (_ :: stacked). split; [done |].
      intros [|j] p x Hx; unfold get in *; simpl in *.
      * rewrite add_at_nonzero, list_lookup_fmap, Hx. simpl. f_equal.
        apply list_elem_of_lookup_2 in Hx.
        pose proof (forallb_is_uint32 seg x Hseg Hx).
        pose proof (fold_max_ge seg x Hx).
        destruct (Z.eqb_spec x 0); [done |].
        rewrite wrap32_small by lia. unfold np_max. simpl. lia.
      * rewrite (Hget j p x Hx). f_equal.
        rewrite np_max_cons, fold_max_add_at by (done || lia).
        pose proof (np_max_nonneg (take j stacked)).
        destruct (x =? 0); [done | lia].
Qed.

End LoopFacts.

End Stacking.

(** ** Automatic segmentation and the AMG state cache *)

Module AutoSegmentation.

Section AMG.

(** The oracle, consumed as a black box: the state blob of the automatic
    mask generator, the masks it generates and the keyword arguments it is
    called with. *)
Variable Blob MaskData Kwargs : Type.

(** The state that [amg.initialize(image, image_embeddings=..., i=i)]
    computes for slice [i] ([None] for a 2d image). *)
Variable amg_initialize : option Z -> Blob.

(** [amg.generate] with the keyword arguments [kwargs], on an AMG that holds the given state. *)
Variable amg_generate : Blob -> Kwargs -> list MaskData.

(** [instance_segmentation.mask_data_to_segmentation(seg,
    with_background=..., min_object_size=...)], a 2d label image. *)
Variable mask_data_to_segmentation : list MaskData -> bool -> Z -> volume.

(** [merge_instance_segmentation_3d(segmentation, beta=0.5,
    with_background=..., gap_closing=..., min_z_extent=...)]. *)
Variable merge_instance_segmentation_3d : volume -> bool -> Z -> Z -> volume.

(** [os.path.join]. *)
Variable path_join : string -> string -> string.

(** The calls made on the AMG object, in the order they are made. *)
Inductive amg_call :=
  | Initialize (i : option Z)
  | Set_state (b : Blob)
  | Get_state
  | Generate.

(** The dictionary [state.amg_state] / [AMG_STATE]: the states by slice
    index, and the value under the key ["cache_folder"] ([None] when the
    key is missing, [Some None] when it holds [None]). *)
Record AmgState := {
  entries : gmap Z Blob;
  cache_folder : option (option string);
}.

(** What the automatic segmentation reads and writes.
    - [amg]: [None] while there is no AMG object, [Some None] for an AMG
      that is not initialized, [Some (Some b)] for one that holds state [b].
    - [amg_state]: the cache, [None] in the 2d annotator.
    - [amge_state]: the attribute [state.amge_state] that line 636 of
      [_widgets.py] reads.  [AnnotatorState] is declared outside the two
      files: [None] stands for a class without this attribute, [Some p] for
      one whose attribute is a dictionary with ["cache_path"] equal to [p].
    - [files]: the pickle files [state-{i}.pkl] on disk, by folder and [i].
    - [calls]: the calls made on the AMG object so far. *)
Record World := {
  layers : Layers;
  image_shape : list nat;
  amg : option (option Blob);
  amg_state : option AmgState;
  amge_state : option (option string);
  files : gmap string (gmap Z Blob);
  calls : list amg_call;
}.

Definition set_layers (w : World) (l : Layers) : World :=
  {| layers := l; image_shape := image_shape w; amg := amg w;
     amg_state := amg_state w; amge_state := amge_state w;
     files := files w; calls := calls w |}.

Definition set_amg (w : World) (a : option (option Blob)) : World :=
  {| layers := layers w; image_shape := image_shape w; amg := a;
     amg_state := amg_state w; amge_state := amge_state w;
     files := files w; calls := calls w |}.

Definition set_amg_state (w : World) (c : option AmgState) : World :=
  {| layers := layers w; image_shape := image_shape w; amg := amg w;
     amg_state := c; amge_state := amge_state w;
     files := files w; calls := calls w |}.

Definition set_files (w : World) (f : gmap string (gmap Z Blob)) : World :=
  {| layers := layers w; image_shape := image_shape w; amg := amg w;
     amg_state := amg_state w; amge_state := amge_state w;
     files := f; calls := calls w |}.

Definition record_call (w : World) (c : amg_call) : World :=
  {| layers := layers w; image_shape := image_shape w; amg := amg w;
     amg_state := amg_state w; amge_state := amge_state w;
     files := files w; calls := calls w ++ [c] |}.

Definition set_auto_segmentation (w : World) (d : volume) : World :=
  set_layers w (set_layer_data (layers w) Auto_segmentation d).

(** [if amg is None: amg = instance_segmentation.get_amg(...)]. *)
Definition get_amg (w : World) : World :=
  match amg w with
  | None => set_amg w (Some None)
  | Some _ => w
  end.

(** [amg.set_state(b)], [amg.initialize(..., i=i)], [amg.get_state()]. *)
Definition do_set_state (w : World) (b : Blob) : World :=
  record_call (set_amg w (Some (Some b))) (Set_state b).

Definition do_initialize (w : World) (i : option Z) : World :=
  record_call (set_amg w (Some (Some (amg_initialize i)))) (Initialize i).

Definition do_get_state (w : World) : World := record_call w Get_state.

(** [pickle.dump(b, open(os.path.join(folder, f"state-{i}.pkl"), "wb"))]. *)
Definition pickle_dump (w : World) (folder : string) (i : Z) (b : Blob) : World :=
  set_files w (<[folder := <[i := b]> (default ∅ (files w !! folder))]> (files w)).

(** Lines 618-651 of [_instance_segmentation_impl]: take the state of slice
    [i] from the cache or compute, store and persist it. *)
Definition prepare_amg (w : World) (i : option Z) : World * result unit :=
  match amg_state w with
  | Some cache =>
      match i with
      | None => (w, Raise AssertionError)
      | Some i =>
          match entries cache !! i with
          | Some amg_state_i => (do_set_state w amg_state_i, Ok tt)
          | None =>
              let w := do_initialize w (Some i) in
              let amg_state_i := amg_initialize (Some i) in
              let w := do_get_state w in
              let w := set_amg_state w
                (Some {| entries := <[i := amg_state_i]> (entries cache);
                         cache_folder := cache_folder cache |}) in
              let w :=
                match cache_folder cache with
                | Some (Some folder) => pickle_dump w folder i amg_state_i
                | _ => w
                end in
              match amge_state w with
              | None => (w, Raise AttributeError)
              | Some None => (w, Ok tt)
              | Some (Some cache_path) =>
                  (* [state["foreground"]]: the annotator state is not
                     subscriptable *)
                  (w, Raise TypeError)
              end
          end
      end
  | None =>
      match amg w with
      | Some (Some _) => (w, Ok tt)
      | _ =>
          match i with
          | Some _ => (w, Raise AssertionError)
          | None => (do_initialize w None, Ok tt)
          end
      end
  end.

(** [_instance_segmentation_impl] ([_widgets.py], lines 607-671). *)
Definition _instance_segmentation_impl (w : World) (with_background : bool)
    (min_object_size : Z) (i : option Z) (skip_update : bool) (kwargs : Kwargs)
  : World * result volume :=
  let w := get_amg w in
  match prepare_amg w i with
  | (w, Raise e) => (w, Raise e)
  | (w, Ok _) =>
      match amg w with
      | Some (Some b) =>
          let w := record_call w Generate in
          let seg := amg_generate b kwargs in
          let seg :=
            if (length seg =? 0)%nat then zeros_2d (image_shape w)
            else mask_data_to_segmentation seg with_background min_object_size in
          if skip_update then (w, Ok seg)
          else
            match i with
            | None => (set_auto_segmentation w seg, Ok seg)
            | Some i =>
                match set_plane (auto_segmentation (layers w)) i (concat seg) with
                | Raise e => (w, Raise e)
                | Ok data => (set_auto_segmentation w data, Ok seg)
                end
            end
      | _ => (w, Raise RuntimeError)
      end
  end.

(** [_segment_volume] ([_widgets.py], lines 674-696). *)
Definition _segment_volume (w : World) (with_background : bool)
    (min_object_size gap_closing min_extent : Z) (kwargs : Kwargs)
  : World * result unit :=
  let segmentation := map (map (fun _ => 0)) (auto_segmentation (layers w)) in
  let segment_slice_i (w : World) (i : nat) :=
    match _instance_segmentation_impl w with_background min_object_size
            (Some (Z.of_nat i)) true kwargs with
    | (w, Ok seg) => (w, Ok (concat seg))
    | (w, Raise e) => (w, Raise e)
    end in
  match Stacking.stack_slices segment_slice_i w 0 0%nat segmentation with
  | (w, Raise e) => (w, Raise e)
  | (w, Ok stacked) =>
      let merged :=
        merge_instance_segmentation_3d stacked with_background gap_closing min_extent in
      (set_auto_segmentation w merged, Ok tt)
  end.

(** [_autosegment_widget] ([annotator_3d.py], lines 141-178), with the
    module globals [AMG] and [AMG_STATE] as the fields [amg] and [amg_state]
    and [i] the slice under the cursor.  The [raw] layer has the shape of
    the label layers. *)
Definition _autosegment_widget (w : World) (i : Z) (kwargs : Kwargs)
    (min_object_size : Z) (with_background : bool) : World * result unit :=
  let w := get_amg w in
  match amg_state w with
  | None => (w, Raise NameError)
  | Some cache =>
      let loaded : World * result Blob :=
        match entries cache !! i with
        | Some state => (do_set_state w state, Ok state)
        | None =>
            match Py.index (length (auto_segmentation (layers w))) i with
            | None => (w, Raise IndexError)
            | Some _ =>
                let w := do_initialize w (Some i) in
                let state := amg_initialize (Some i) in
                let w := do_get_state w in
                match cache_folder cache with
                | None => (w, Raise KeyError)
                | Some None => (w, Ok state)
                | Some (Some folder) => (pickle_dump w folder i state, Ok state)
                end
            end
        end in
      match loaded with
      | (w, Raise e) => (w, Raise e)
      | (w, Ok state) =>
          let w := record_call w Generate in
          let seg := amg_generate state kwargs in
          let seg := mask_data_to_segmentation seg with_background min_object_size in
          match set_plane (auto_segmentation (layers w)) i (concat seg) with
          | Raise e => (w, Raise e)
          | Ok data => (set_auto_segmentation w data, Ok tt)
          end
      end
  end.

(** The key under which the file [state-{i}.pkl] is loaded (line 193):
    [int(Path(path).stem.split("-")[-1])] reads the digits after the last
    ["-"] of the name, which is [i] for a nonnegative [i] and [-i] for a
    negative one. *)
Definition state_file_key (i : Z) : Z := Z.abs i.

(** [_load_amg_state] ([annotator_3d.py], lines 181-195): the cache as the
    annotator finds it on disk when it starts.  [path_exists] is
    [os.path.exists(embedding_path)], and [glob folder] lists the files
    [state-{i}.pkl] of the folder in the order of
    [glob(os.path.join(folder, "*.pkl"))], each as [i] and the state
    pickled in it; a file overwrites an earlier one with the same key. *)
Definition _load_amg_state (glob : string -> list (Z * Blob))
    (embedding_path : option string) (path_exists : bool) : AmgState :=
  match embedding_path with
  | None => {| entries := ∅; cache_folder := Some None |}
  | Some path =>
      if negb path_exists then {| entries := ∅; cache_folder := Some None |}
      else
        let folder := path_join path "amg_state" in
        {| entries :=
             foldl (fun amg_state file =>
                      <[state_file_key (fst file) := snd file]> amg_state)
                   ∅ (glob folder);
           cache_folder := Some (Some folder) |}
  end.

(** A 3d annotator as [annotator_3d] starts it without an embedding path:
    one slice of one pixel, no AMG yet, an empty cache. *)
Definition fresh_world : World :=
  {| layers := {| committed_objects := [[0]];
                  current_object := [[0]];
                  auto_segmentation := [[0]] |};
     image_shape := [1; 1; 1]%nat;
     amg := None;
     amg_state := Some (_load_amg_state (fun _ => []) None false);
     amge_state := None;
     files := ∅;
     calls := [] |}.

(** A cached state is handed to the AMG; nothing is initialized. *)
Lemma prepare_amg_hit (w : World) (cache : AmgState) (i : Z) (b : Blob) :
  amg_state w = Some cache -> entries cache !! i = Some b ->
  prepare_amg w (Some i) = (do_set_state w b, Ok tt).
Proof. intros Hc Hi. unfold prepare_amg. by rewrite Hc, Hi. Qed.

(** On a miss [_instance_segmentation_impl] stores the new state under the
    key [i] and pickles it when a cache folder is configured, whatever the
    lookup of [state.amge_state] does afterwards. *)
Lemma prepare_amg_miss (w : World) (cache : AmgState) (i : Z) :
  amg_state w = Some cache -> entries cache !! i = None ->
  let w' := fst (prepare_amg w (Some i)) in
  calls w' = calls w ++ [Initialize (Some i); Get_state]
  /\ (exists cache', amg_state w' = Some cache'
        /\ entries cache' !! i = Some (amg_initialize (Some i))
        /\ cache_folder cache' = cache_folder cache)
  /\ (forall folder, cache_folder cache = Some (Some folder) ->
        exists dir, files w' !! folder = Some dir
          /\ dir !! i = Some (amg_initialize (Some i))).
Proof.
  intros Hc Hi. unfold prepare_amg. rewrite Hc, Hi. cbv zeta.
  split; [|split].
  - destruct (cache_folder cache) as [[folder|]|]; simpl;
      destruct (amge_state w) as [[p|]|]; simpl; by rewrite <- app_assoc.
  - exists {| entries := <[i := amg_initialize (Some i)]> (entries cache);
              cache_folder := cache_folder cache |}.
    split; [|split].
    + destruct (cache_folder cache) as [[folder|]|]; simpl;
        destruct (amge_state w) as [[p|]|]; simpl; reflexivity.
    + simpl. apply lookup_insert_eq.
    + done.
  - intros folder Hf. rewrite Hf. simpl. eexists. split.
    + destruct (amge_state w) as [[p|]|]; simpl; apply lookup_insert_eq.
    + apply lookup_insert_eq.
Qed.

(** [_autosegment_widget] never writes to [AMG_STATE]. *)
Lemma autosegment_widget_keeps_cache (w : World) (i : Z) (kwargs : Kwargs)
    (min_object_size : Z) (with_background : bool) :
  amg_state (fst (_autosegment_widget w i kwargs min_object_size with_background))
  = amg_state w.
Proof.
  unfold _autosegment_widget.
  assert (amg_state (get_amg w) = amg_state w) as Hg
    by (unfold get_amg; by destruct (amg w)).
  destruct (amg_state (get_amg w)) as [cache|] eqn:Hc; [|simpl; congruence].
  destruct (entries cache !! i) as [b|].
  - simpl. destruct (set_plane _ _ _); simpl; congruence.
  - destruct (Py.index _ i); [|simpl; congruence].
    destruct (cache_folder cache) as [[folder|]|]; simpl; try congruence;
      destruct (set_plane _ _ _); simpl; congruence.
Qed.

Lemma set_plane_length (data : volume) (i : Z) (seg : plane) (data' : volume) :
  set_plane data i seg = Ok data' -> length data' = length data.
Proof.
  unfold set_plane. repeat case_match; intros [=]; subst.
  by rewrite length_insert.
Qed.

Lemma autosegment_widget_length (w : World) (i : Z) (kwargs : Kwargs)
    (min_object_size : Z) (with_background : bool) :
  length (auto_segmentation (layers
    (fst (_autosegment_widget w i kwargs min_object_size with_background))))
  = length (auto_segmentation (layers w)).
Proof.
  unfold _autosegment_widget.
  assert (layers (get_amg w) = layers w) as Hg
    by (unfold get_amg; by destruct (amg w)).
  destruct (amg_state (get_amg w)) as [cache|]; [|simpl; congruence].
  destruct (entries cache !! i) as [b|].
  - simpl. destruct (set_plane _ _ _) eqn:Hset; simpl; [|congruence].
    apply set_plane_length in Hset. congruence.
  - destruct (Py.index _ i); [|simpl; congruence].
    destruct (cache_folder cache) as [[folder|]|]; simpl; try congruence;
      (destruct (set_plane _ _ _) eqn:Hset; simpl; [|congruence]);
      apply set_plane_length in Hset; simpl in Hset; congruence.
Qed.

(** A request of [_autosegment_widget] for a slice that is not in
    [AMG_STATE] initializes the AMG for it. *)
Lemma autosegment_widget_miss (w : World) (cache : AmgState) (i : Z)
    (kwargs : Kwargs) (min_object_size : Z) (with_background : bool) :
  amg_state w = Some cache -> entries cache !! i = None ->
  cache_folder cache = Some None ->
  is_Some (Py.index (length (auto_segmentation (layers w))) i) ->
  calls (fst (_autosegment_widget w i kwargs min_object_size with_background))
  = calls w ++ [Initialize (Some i); Get_state; Generate].
Proof.
  intros Hc Hi Hf [k Hk]. unfold _autosegment_widget.
  assert (amg_state (get_amg w) = amg_state w /\ layers (get_amg w) = layers w
          /\ calls (get_amg w) = calls w) as (-> & Hl & Hcalls)
    by (unfold get_amg; by destruct (amg w)).
  rewrite Hc, Hi, Hl, Hk, Hf. simpl.
  destruct (set_plane _ _ _); simpl; rewrite Hcalls, <- !app_assoc; done.
Qed.

(** C4 (the code at the failing input).  In a fresh 3d annotator two
    requests of [_autosegment_widget] for slice 0 both initialize the AMG:
    the first request leaves no entry for slice 0 in [AMG_STATE], so the
    second one misses again.  [_instance_segmentation_impl], on the same
    input, stores the state under key 0 on the first request. *)
Theorem autosegment_widget_recomputes (kwargs : Kwargs) (min_object_size : Z)
    (with_background : bool) :
  let w1 := fst (_autosegment_widget fresh_world 0 kwargs min_object_size with_background) in
  let w2 := fst (_autosegment_widget w1 0 kwargs min_object_size with_background) in
  let s1 := fst (_instance_segmentation_impl fresh_world with_background
                   min_object_size (Some 0) false kwargs) in
  (entries <$> amg_state w1) = Some ∅
  /\ calls w1 = [Initialize (Some 0); Get_state; Generate]
  /\ calls w2 = [Initialize (Some 0); Get_state; Generate;
                 Initialize (Some 0); Get_state; Generate]
  /\ (entries <$> amg_state s1) = Some {[ 0 := amg_initialize (Some 0) ]}.
Proof.
  cbv zeta. split; [|split; [|split]].
  - by rewrite autosegment_widget_keeps_cache.
  - by erewrite autosegment_widget_miss.
  - erewrite autosegment_widget_miss; cycle 1.
    + by rewrite autosegment_widget_keeps_cache.
    + apply lookup_empty.
    + done.
    + by rewrite autosegment_widget_length.
    + by erewrite autosegment_widget_miss.
  - unfold _instance_segmentation_impl, prepare_amg. simpl.
    rewrite lookup_empty. simpl. by rewrite insert_empty.
Qed.

(** *** The widgets of the automatic segmentation *)

(** [amg_2d] ([_widgets.py], lines 704-717); [instance_seg_2d] (lines
    726-738) is the same call with other keyword arguments.  Selecting the
    layer afterwards belongs to the GUI. *)
Definition amg_2d (w : World) (with_background : bool) (min_object_size : Z)
    (kwargs : Kwargs) : World * result unit :=
  match _instance_segmentation_impl w with_background min_object_size None false kwargs with
  | (w, Ok _) => (w, Ok tt)
  | (w, Raise e) => (w, Raise e)
  end.

(** [len(state.amg_state)]: the number of keys of the dictionary, the key
    ["cache_folder"] included. *)
Definition amg_state_len (cache : AmgState) : nat :=
  (size (entries cache)
   + match cache_folder cache with Some _ => 1 | None => 0 end)%nat.

(** [amg_3d] ([_widgets.py], lines 746-780).  [device_is_cpu_or_mps] is the
    test of line 762 and [i] the slice under the cursor.  On a refusal the
    widget prints a message and returns. *)
Definition amg_3d (w : World) (device_is_cpu_or_mps : bool) (i : Z)
    (with_background : bool) (min_object_size : Z) (apply_to_volume : bool)
    (gap_closing min_extent : Z) (kwargs : Kwargs) : World * result unit :=
  if apply_to_volume then
    if device_is_cpu_or_mps then
      match amg_state w with
      | None => (w, Raise TypeError)
      | Some cache =>
          let n_slices := length (auto_segmentation (layers w)) in
          let embeddings_are_precomputed := (n_slices <? amg_state_len cache)%nat in
          if negb embeddings_are_precomputed then (w, Ok tt)
          else _segment_volume w with_background min_object_size gap_closing
                 min_extent kwargs
      end
    else _segment_volume w with_background min_object_size gap_closing min_extent kwargs
  else
    match _instance_segmentation_impl w with_background min_object_size (Some i)
            false kwargs with
    | (w, Ok _) => (w, Ok tt)
    | (w, Raise e) => (w, Raise e)
    end.

Definition is_initialize (c : amg_call) : bool :=
  match c with
  | Initialize _ => true
  | _ => false
  end.

(** The 2d label image that a request computes from the state [b]. *)
Definition generated (w : World) (b : Blob) (with_background : bool)
    (min_object_size : Z) (kwargs : Kwargs) : volume :=
  let seg := amg_generate b kwargs in
  if (length seg =? 0)%nat then zeros_2d (image_shape w)
  else mask_data_to_segmentation seg with_background min_object_size.

Lemma get_amg_fields (w : World) :
  layers (get_amg w) = layers w
  /\ image_shape (get_amg w) = image_shape w
  /\ amg_state (get_amg w) = amg_state w
  /\ amge_state (get_amg w) = amge_state w
  /\ files (get_amg w) = files w
  /\ calls (get_amg w) = calls w.
Proof. unfold get_amg. by destruct (amg w). Qed.

(** A request for a slice whose state is cached. *)
Lemma instance_segmentation_hit (w : World) (cache : AmgState) (i : Z) (b : Blob)
    (with_background : bool) (min_object_size : Z) (skip_update : bool)
    (kwargs : Kwargs) :
  amg_state w = Some cache -> entries cache !! i = Some b ->
  let seg := generated w b with_background min_object_size kwargs in
  let w1 := record_call (do_set_state (get_amg w) b) Generate in
  _instance_segmentation_impl w with_background min_object_size (Some i)
    skip_update kwargs
  = if skip_update then (w1, Ok seg)
    else match set_plane (auto_segmentation (layers w)) i (concat seg) with
         | Raise e => (w1, Raise e)
         | Ok data => (set_auto_segmentation w1 data, Ok seg)
         end.
Proof.
  intros Hc Hi seg w1. unfold _instance_segmentation_impl.
  destruct (get_amg_fields w) as (Hl & Hs & Ha & _).
  rewrite (prepare_amg_hit (get_amg w) cache i b) by congruence.
  simpl. rewrite Hl, Hs. reflexivity.
Qed.

(** A request never touches the committed objects and the current object,
    and with [skip_update] it touches no layer. *)
Lemma prepare_amg_layers (w : World) (i : option Z) :
  layers (fst (prepare_amg w i)) = layers w
  /\ image_shape (fst (prepare_amg w i)) = image_shape w.
Proof.
  unfold prepare_amg.
  destruct (amg_state w) as [cache|].
  - destruct i as [i|]; [|done].
    destruct (entries cache !! i); [done |].
    cbv zeta. destruct (cache_folder cache) as [[folder|]|]; simpl;
      by destruct (amge_state w) as [[p|]|].
  - destruct (amg w) as [[b|]|]; try done; by destruct i.
Qed.

Lemma instance_segmentation_touches (w : World) (with_background : bool)
    (min_object_size : Z) (i : option Z) (skip_update : bool) (kwargs : Kwargs) :
  let out := _instance_segmentation_impl w with_background min_object_size i
               skip_update kwargs in
  layers (fst out) = layers w
  \/ (skip_update = false
      /\ match i with
         | None =>
             exists seg, snd out = Ok seg
               /\ layers (fst out) = set_layer_data (layers w) Auto_segmentation seg
         | Some i =>
             exists seg data, snd out = Ok seg
               /\ set_plane (auto_segmentation (layers w)) i (concat seg) = Ok data
               /\ layers (fst out) = set_layer_data (layers w) Auto_segmentation data
         end).
Proof.
  unfold _instance_segmentation_impl.
  destruct (get_amg_fields w) as (Hl & _).
  destruct (prepare_amg_layers (get_amg w) i) as [Hp _]. rewrite Hl in Hp.
  destruct (prepare_amg (get_amg w) i) as [w1 [[]|e]]; simpl in Hp; [|by left].
  destruct (amg w1) as [[b|]|]; [|by left|by left].
  destruct skip_update; [by left |].
  destruct i as [i|]; simpl.
  - rewrite Hp. destruct (set_plane _ _ _) as [data|e] eqn:Hset; simpl; [|by left].
    right. split; [done |]. rewrite Hp. eauto.
  - right. split; [done |]. rewrite Hp. eauto.
Qed.

Lemma autosegment_widget_touches (w : World) (i : Z) (kwargs : Kwargs)
    (min_object_size : Z) (with_background : bool) :
  let out := _autosegment_widget w i kwargs min_object_size with_background in
  layers (fst out) = layers w
  \/ exists seg data,
       set_plane (auto_segmentation (layers w)) i seg = Ok data
       /\ layers (fst out) = set_layer_data (layers w) Auto_segmentation data.
Proof.
  unfold _autosegment_widget.
  destruct (get_amg_fields w) as (Hl & _).
  destruct (amg_state (get_amg w)) as [cache|]; [|by left].
  destruct (entries cache !! i) as [b|].
  - simpl. rewrite Hl.
    destruct (set_plane _ _ _) as [data|e] eqn:Hset; simpl; [|by left].
    right. rewrite Hl. eauto.
  - rewrite Hl. destruct (Py.index _ i); [|by left].
    destruct (cache_folder cache) as [[folder|]|]; simpl; try (by left);
      rewrite Hl;
      (destruct (set_plane _ _ _) as [data|e] eqn:Hset; simpl; [|by left]);
      right; rewrite Hl; eauto.
Qed.

Lemma touched_one_slice (l l' : Layers) (i : Z) (seg : plane) (data : volume) :
  set_plane (auto_segmentation l) i seg = Ok data ->
  l' = set_layer_data l Auto_segmentation data ->
  committed_objects l' = committed_objects l
  /\ current_object l' = current_object l
  /\ length (auto_segmentation l') = length (auto_segmentation l)
  /\ forall z, Py.index (length (auto_segmentation l)) i <> Some z ->
       auto_segmentation l' !! z = auto_segmentation l !! z.
Proof.
  intros (k & Hk & ->)%set_plane_insert ->. simpl.
  split; [done |]. split; [done |]. split; [by rewrite length_insert |].
  intros z Hz. apply list_lookup_insert_ne. congruence.
Qed.

(** The stacked slices have the shape of the zero array they are written
    to. *)
Lemma stack_slices_shape {W} (f : W -> nat -> W * result plane)
    (planes : volume) (w w' : W) (o : Z) (i : nat) (stacked : volume) :
  Stacking.stack_slices f w o i planes = (w', Ok stacked) ->
  same_shape stacked planes = true.
Proof.
  revert w o i stacked.
  induction planes as [|zeros rest IH]; intros w o i stacked; simpl.
  - by intros [= _ <-].
  - destruct (f w i) as [w1 [seg|e]]; [|done].
    destruct (length seg =? 0)%nat; [done |].
    destruct (foldr Z.max 0 seg =? 0).
    + destruct (Stacking.stack_slices f w1 o (S i) rest) as [w2 [st|e]] eqn:Hrest;
        [|done].
      intros [= <- <-]. apply Stacking.same_shape_cons. split; [done |]. eauto.
    + destruct (Nat.eqb_spec
                  (length (add_at (map (fun x => negb (x =? 0)) seg) o seg))
                  (length zeros)) as [Hlen|]; [|done].
      simpl.
      destruct (Stacking.stack_slices f w1 _ (S i) rest) as [w2 [st|e]] eqn:Hrest;
        [|done].
      intros [= <- <-]. apply Stacking.same_shape_cons. split; [done |]. eauto.
Qed.

(** What every call of the loop body preserves, the loop preserves. *)
Lemma stack_slices_preserves {W} (f : W -> nat -> W * result plane)
    (P : W -> W -> Prop) :
  (forall a, P a a) ->
  (forall a b c, P a b -> P b c -> P a c) ->
  forall (planes : volume) (w : W) (o : Z) (i : nat),
    (forall w' j, (i <= j < i + length planes)%nat -> P w' (fst (f w' j))) ->
    P w (fst (Stacking.stack_slices f w o i planes)).
Proof.
  intros Hrefl Htrans.
  induction planes as [|zeros rest IH]; intros w o i Hstep; simpl; [done |].
  assert (P w (fst (f w i))) as Hfirst by (apply Hstep; simpl; lia).
  assert (forall w1 o1, P w1 (fst (Stacking.stack_slices f w1 o1 (S i) rest))) as Hrest.
  { intros w1 o1. apply IH. intros w' j Hj. apply Hstep. simpl. lia. }
  destruct (f w i) as [w1 [seg|e]]; simpl in Hfirst; [|done].
  destruct (length seg =? 0)%nat; [done |].
  destruct (foldr Z.max 0 seg =? 0).
  - specialize (Hrest w1 o).
    destruct (Stacking.stack_slices f w1 o (S i) rest) as [w2 [st|e]];
      simpl in *; eauto.
  - destruct (negb _); [done |].
    specialize (Hrest w1 (foldr Z.max 0 seg + o)).
    destruct (Stacking.stack_slices f w1 _ (S i) rest) as [w2 [st|e]];
      simpl in *; eauto.
Qed.

Lemma prepare_amg_cache (w : World) (cache : AmgState) (i : Z) :
  amg_state w = Some cache ->
  amg_state (fst (prepare_amg w (Some i)))
  = Some match entries cache !! i with
         | Some _ => cache
         | None => {| entries := <[i := amg_initialize (Some i)]> (entries cache);
                      cache_folder := cache_folder cache |}
         end.
Proof.
  intros Hc. unfold prepare_amg. rewrite Hc.
  destruct (entries cache !! i); [done |]. cbv zeta.
  destruct (cache_folder cache) as [[folder|]|]; simpl;
    by destruct (amge_state w) as [[p|]|].
Qed.

(** After [prepare_amg] a request changes neither the cache nor the files
    nor the shape of the image. *)
Lemma instance_segmentation_keeps (w : World) (with_background : bool)
    (min_object_size : Z) (i : option Z) (skip_update : bool) (kwargs : Kwargs) :
  let w' := fst (_instance_segmentation_impl w with_background min_object_size i
                   skip_update kwargs) in
  amg_state w' = amg_state (fst (prepare_amg (get_amg w) i))
  /\ files w' = files (fst (prepare_amg (get_amg w) i))
  /\ image_shape w' = image_shape w.
Proof.
  unfold _instance_segmentation_impl.
  destruct (get_amg_fields w) as (_ & Hs & _).
  destruct (prepare_amg_layers (get_amg w) i) as [_ Hp]. rewrite Hs in Hp.
  destruct (prepare_amg (get_amg w) i) as [w1 [[]|e]]; simpl in *; [|done].
  destruct (amg w1) as [[b|]|]; [|done|done].
  destruct skip_update; [done |].
  destruct i as [i|]; simpl; [|done].
  by destruct (set_plane _ _ _).
Qed.

(** The keys of a cache are slice indices below [n]; when there are [n] of
    them, every slice has its state. *)
Lemma full_cache (m : gmap Z Blob) (n : nat) :
  (forall k, is_Some (m !! k) -> 0 <= k < Z.of_nat n) ->
  (size m <= n)%nat
  /\ ((n <= size m)%nat -> forall j, (j < n)%nat -> is_Some (m !! Z.of_nat j)).
Proof.
  intros Hkeys.
  set (X := list_to_set (Z.of_nat <$> seq 0 n) : gset Z).
  assert (size X = n) as HX.
  { unfold X. rewrite size_list_to_set.
    - by rewrite length_fmap, length_seq.
    - apply NoDup_fmap_2; [apply _ | apply NoDup_seq]. }
  assert (dom m ⊆ X) as Hsub.
  { intros k Hk%elem_of_dom. apply Hkeys in Hk. unfold X.
    apply elem_of_list_to_set, list_elem_of_fmap. exists (Z.to_nat k).
    split; [lia |]. apply elem_of_seq. lia. }
  pose proof (subseteq_size _ _ Hsub) as Hle. rewrite size_dom, HX in Hle.
  split; [done |]. intros Hfull j Hj.
  assert (dom m = X) as Hdom.
  { apply set_subseteq_size_eq; [done |]. rewrite size_dom, HX. done. }
  apply elem_of_dom. rewrite Hdom. unfold X.
  apply elem_of_list_to_set, list_elem_of_fmap. exists j.
  split; [done |]. apply elem_of_seq. lia.
Qed.

(** X4.  A request for one slice, by [_instance_segmentation_impl] or by
    [_autosegment_widget], changes at most that slice of the automatic
    segmentation, whatever its outcome: the committed objects, the current
    object, the number of slices and every other slice are as before.
    With [skip_update] the request changes no layer at all. *)
Theorem slice_request_touches_one_slice (w : World) (i : Z)
    (with_background : bool) (min_object_size : Z) (skip_update : bool)
    (kwargs : Kwargs) :
  let n := length (auto_segmentation (layers w)) in
  let w1 := fst (_instance_segmentation_impl w with_background min_object_size
                   (Some i) skip_update kwargs) in
  let w2 := fst (_autosegment_widget w i kwargs min_object_size with_background) in
  (skip_update = true -> layers w1 = layers w)
  /\ forall w', w' = w1 \/ w' = w2 ->
       committed_objects (layers w') = committed_objects (layers w)
       /\ current_object (layers w') = current_object (layers w)
       /\ length (auto_segmentation (layers w')) = n
       /\ forall z, Py.index n i <> Some z ->
            auto_segmentation (layers w') !! z = auto_segmentation (layers w) !! z.
Proof.
  intros n w1 w2.
  pose proof (instance_segmentation_touches w with_background min_object_size
                (Some i) skip_update kwargs) as H1.
  pose proof (autosegment_widget_touches w i kwargs min_object_size with_background)
    as H2.
  cbv zeta in H1, H2. fold w1 in H1. fold w2 in H2.
  split.
  - intros ->. by destruct H1 as [H1 | [? _]].
  - intros w' [-> | ->].
    + destruct H1 as [-> | (_ & seg & data & _ & Hset & Hl)]; [done |].
      by eapply touched_one_slice.
    + destruct H2 as [-> | (seg & data & Hset & Hl)]; [done |].
      by eapply touched_one_slice.
Qed.

(** X5.  [_segment_volume] assigns the layer once, at its end: when it
    raises, no layer has changed; when it returns, the automatic
    segmentation is the merge of a stack that has the shape of the layer;
    the committed objects and the current object are never touched. *)
Theorem segment_volume_writes_at_the_end (w : World) (with_background : bool)
    (min_object_size gap_closing min_extent : Z) (kwargs : Kwargs) :
  let out := _segment_volume w with_background min_object_size gap_closing
               min_extent kwargs in
  committed_objects (layers (fst out)) = committed_objects (layers w)
  /\ current_object (layers (fst out)) = current_object (layers w)
  /\ (snd out <> Ok tt -> layers (fst out) = layers w)
  /\ (snd out = Ok tt ->
      exists stacked,
        same_shape stacked (auto_segmentation (layers w)) = true
        /\ auto_segmentation (layers (fst out))
           = merge_instance_segmentation_3d stacked with_background gap_closing
               min_extent).
Proof.
  unfold _segment_volume.
  set (f := fun (w0 : World) (i : nat) =>
              match _instance_segmentation_impl w0 with_background min_object_size
                      (Some (Z.of_nat i)) true kwargs with
              | (w1, Ok seg) => (w1, Ok (concat seg))
              | (w1, Raise e) => (w1, Raise e)
              end).
  set (planes := map (map (fun _ : Z => 0)) (auto_segmentation (layers w))).
  assert (layers (fst (Stacking.stack_slices f w 0 0%nat planes)) = layers w) as Hl.
  { apply (stack_slices_preserves f (fun a b => layers b = layers a));
      [done | congruence |].
    intros w' j _. unfold f.
    pose proof (instance_segmentation_touches w' with_background min_object_size
                  (Some (Z.of_nat j)) true kwargs) as [H | [H _]]; [|done].
    cbv zeta in H. by destruct (_instance_segmentation_impl _ _ _ _ _ _) as [? [?|?]]. }
  destruct (Stacking.stack_slices f w 0 0%nat planes) as [w1 [stacked|e]] eqn:Hrun;
    simpl in Hl |- *.
  - rewrite Hl. split; [done |]. split; [done |]. split; [done |].
    intros _. exists stacked. split; [|done].
    eapply same_shape_trans; [by eapply stack_slices_shape |].
    apply same_shape_map_map.
  - rewrite Hl. split; [done |]. split; [done |]. split; [done |]. done.
Qed.

(** X6.  [_instance_segmentation_impl] computes the state of a slice once:
    after a first request for slice [i], whatever its outcome, the cache
    holds a state [b] for [i] (the cached one on a hit, the newly
    initialized one on a miss) and the other entries are as before; a
    second request for [i] hands [b] to the AMG and generates, without
    initializing, and changes neither the cache nor the files. *)
Theorem instance_segmentation_reuses_state (w : World) (cache : AmgState) (i : Z)
    (with_background with_background' : bool) (min_object_size min_object_size' : Z)
    (skip_update skip_update' : bool) (kwargs kwargs' : Kwargs) :
  amg_state w = Some cache ->
  let first := _instance_segmentation_impl w with_background min_object_size
                 (Some i) skip_update kwargs in
  let second := _instance_segmentation_impl (fst first) with_background'
                  min_object_size' (Some i) skip_update' kwargs' in
  let b := default (amg_initialize (Some i)) (entries cache !! i) in
  (exists cache1,
     amg_state (fst first) = Some cache1
     /\ entries cache1 !! i = Some b
     /\ cache_folder cache1 = cache_folder cache
     /\ forall j, j <> i -> entries cache1 !! j = entries cache !! j)
  /\ calls (fst second) = calls (fst first) ++ [Set_state b; Generate]
  /\ amg_state (fst second) = amg_state (fst first)
  /\ files (fst second) = files (fst first)
  /\ (skip_update' = true ->
      snd second = Ok (generated w b with_background' min_object_size' kwargs')).
Proof.
  intros Hc first second b.
  destruct (instance_segmentation_keeps w with_background min_object_size (Some i)
              skip_update kwargs) as (Hstate & _ & Hshape).
  cbv zeta in Hstate, Hshape. fold first in Hstate, Hshape.
  rewrite (prepare_amg_cache (get_amg w) cache i) in Hstate
    by (destruct (get_amg_fields w) as (_ & _ & -> & _); done).
  set (cache1 := match entries cache !! i with
                 | Some _ => cache
                 | None => {| entries := <[i := amg_initialize (Some i)]> (entries cache);
                              cache_folder := cache_folder cache |}
                 end) in Hstate.
  assert (entries cache1 !! i = Some b) as Hb.
  { unfold cache1, b. destruct (entries cache !! i) eqn:Hi; simpl; [done |].
    apply lookup_insert_eq. }
  pose proof (instance_segmentation_hit (fst first) cache1 i b with_background'
                min_object_size' skip_update' kwargs' Hstate Hb) as Hhit.
  cbv zeta in Hhit. fold second in Hhit.
  destruct (get_amg_fields (fst first)) as (_ & _ & Hs & _ & Hf & Hcalls).
  split.
  { exists cache1. split; [done |]. split; [done |]. unfold cache1.
    destruct (entries cache !! i); simpl; [done |].
    split; [done |]. intros j Hj. by apply lookup_insert_ne. }
  assert (generated (fst first) b with_background' min_object_size' kwargs'
          = generated w b with_background' min_object_size' kwargs') as Hgen
    by (unfold generated; by rewrite Hshape).
  rewrite Hgen in Hhit. rewrite Hhit.
  destruct skip_update'; simpl.
  - rewrite Hcalls, Hs, Hf, <- app_assoc. done.
  - destruct (set_plane _ _ _); simpl; rewrite Hcalls, Hs, Hf, <- app_assoc; done.
Qed.

(** X7.  When the annotator state has no attribute [amge_state], a request
    of [_instance_segmentation_impl] for a slice that is not cached raises
    [AttributeError] before anything is generated: it has initialized the
    AMG, stored the state in the cache and, with a cache folder, pickled
    it, and no layer has changed. *)
Theorem cache_miss_without_attribute (w : World) (cache : AmgState) (i : Z)
    (with_background : bool) (min_object_size : Z) (skip_update : bool)
    (kwargs : Kwargs) :
  amg_state w = Some cache ->
  entries cache !! i = None ->
  amge_state w = None ->
  let out := _instance_segmentation_impl w with_background min_object_size
               (Some i) skip_update kwargs in
  snd out = Raise AttributeError
  /\ layers (fst out) = layers w
  /\ calls (fst out) = calls w ++ [Initialize (Some i); Get_state]
  /\ (exists cache1, amg_state (fst out) = Some cache1
        /\ entries cache1 !! i = Some (amg_initialize (Some i)))
  /\ (forall folder, cache_folder cache = Some (Some folder) ->
        exists dir, files (fst out) !! folder = Some dir
          /\ dir !! i = Some (amg_initialize (Some i))).
Proof.
  intros Hc Hi He out.
  destruct (get_amg_fields w) as (Hl & _ & Hs & Hes & _ & Hcalls).
  assert (out = (fst (prepare_amg (get_amg w) (Some i)), Raise AttributeError)) as Hout.
  { unfold out, _instance_segmentation_impl, prepare_amg.
    rewrite Hs, Hc, Hi. cbv zeta.
    destruct (cache_folder cache) as [[folder|]|]; simpl; by rewrite Hes, He. }
  rewrite Hout. simpl.
  destruct (prepare_amg_miss (get_amg w) cache i) as (H1 & H2 & H3); [congruence | done |].
  cbv zeta in H1, H2, H3.
  split; [done |]. split.
  { destruct (prepare_amg_layers (get_amg w) (Some i)) as [-> _]. done. }
  split; [by rewrite H1, Hcalls |].
  split; [|done].
  destruct H2 as (cache1 & ? & ? & _). eauto.
Qed.

(** X8.  In the 2d annotator, which has no cache, the first request of
    [amg_2d] initializes the AMG and every later one only generates: two
    requests make the calls initialize, generate, generate.  Each request
    replaces the whole automatic segmentation by the label image it
    computes from the one state, and leaves the other layers alone. *)
Theorem amg_2d_initializes_once (w : World) (with_background with_background' : bool)
    (min_object_size min_object_size' : Z) (kwargs kwargs' : Kwargs) :
  amg_state w = None ->
  amg w = None ->
  let first := amg_2d w with_background min_object_size kwargs in
  let second := amg_2d (fst first) with_background' min_object_size' kwargs' in
  let b := amg_initialize None in
  snd first = Ok tt
  /\ snd second = Ok tt
  /\ calls (fst first) = calls w ++ [Initialize None; Generate]
  /\ calls (fst second) = calls w ++ [Initialize None; Generate; Generate]
  /\ auto_segmentation (layers (fst first))
     = generated w b with_background min_object_size kwargs
  /\ auto_segmentation (layers (fst second))
     = generated w b with_background' min_object_size' kwargs'
  /\ committed_objects (layers (fst second)) = committed_objects (layers w)
  /\ current_object (layers (fst second)) = current_object (layers w).
Proof.
  intros Hs Ha first second b.
  assert (first
          = (set_auto_segmentation
               (record_call (do_initialize (set_amg w (Some None)) None) Generate)
               (generated w b with_background min_object_size kwargs), Ok tt)) as H1.
  { unfold first, amg_2d, _instance_segmentation_impl, get_amg, prepare_amg, generated.
    rewrite Ha. simpl. rewrite Hs. simpl. reflexivity. }
  assert (second
          = (set_auto_segmentation
               (record_call (fst first) Generate)
               (generated w b with_background' min_object_size' kwargs'), Ok tt)) as H2.
  { unfold second. rewrite H1.
    unfold amg_2d, _instance_segmentation_impl, get_amg, prepare_amg, generated.
    simpl. rewrite Hs. simpl. reflexivity. }
  rewrite H2, H1. simpl. rewrite <- !app_assoc. simpl. repeat split.
Qed.

(** X9.  On a CPU, with a cache whose keys are slice indices of the layer,
    [amg_3d] segments the volume only from a complete cache: unless the
    cache has the key ["cache_folder"] and a state for every slice, the
    widget returns with nothing changed; with such a cache it runs
    [_segment_volume], and this run never initializes the AMG (it sets a
    cached state and generates, slice by slice) and leaves the cache as it
    is. *)
Theorem amg_3d_needs_complete_cache (w : World) (cache : AmgState) (i : Z)
    (with_background : bool) (min_object_size gap_closing min_extent : Z)
    (kwargs : Kwargs) :
  let n := length (auto_segmentation (layers w)) in
  let out := amg_3d w true i with_background min_object_size true gap_closing
               min_extent kwargs in
  let complete :=
    cache_folder cache <> None
    /\ forall j, (j < n)%nat -> is_Some (entries cache !! Z.of_nat j) in
  amg_state w = Some cache ->
  (forall k, is_Some (entries cache !! k) -> 0 <= k < Z.of_nat n) ->
  (~ complete -> out = (w, Ok tt))
  /\ (complete ->
      out = _segment_volume w with_background min_object_size gap_closing
              min_extent kwargs
      /\ amg_state (fst out) = Some cache
      /\ exists made, calls (fst out) = calls w ++ made
           /\ forallb (fun c => negb (is_initialize c)) made = true).
Proof.
  intros n out complete Hc Hkeys.
  destruct (full_cache (entries cache) n Hkeys) as [Hle Hfull].
  unfold out, amg_3d. rewrite Hc. cbv zeta. fold n. unfold amg_state_len.
  split.
  - intros Hnot.
    destruct (Nat.ltb_spec n (size (entries cache)
                + match cache_folder cache with Some _ => 1 | None => 0 end))
      as [Hlt|]; [|done].
    exfalso. apply Hnot. split.
    + intros Hnone. rewrite Hnone in Hlt. lia.
    + apply Hfull. destruct (cache_folder cache); lia.
  - intros [Hfolder Hall].
    assert (n <= size (entries cache))%nat as Hsize.
    { set (X := list_to_set (Z.of_nat <$> seq 0 n) : gset Z).
      assert (size X = n) as HX.
      { unfold X. rewrite size_list_to_set.
        - by rewrite length_fmap, length_seq.
        - apply NoDup_fmap_2; [apply _ | apply NoDup_seq]. }
      assert (X ⊆ dom (entries cache)) as Hsub.
      { intros k (j & -> & Hj%elem_of_seq)%elem_of_list_to_set%list_elem_of_fmap.
        apply elem_of_dom, Hall. lia. }
      apply subseteq_size in Hsub. rewrite size_dom, HX in Hsub. done. }
    destruct (cache_folder cache) as [folder|] eqn:Hcf; [|done].
    destruct (Nat.ltb_spec n (size (entries cache) + 1)) as [_|]; [|lia]. simpl.
    split; [done |].
    unfold _segment_volume.
    set (f := fun (w0 : World) (i : nat) =>
                match _instance_segmentation_impl w0 with_background min_object_size
                        (Some (Z.of_nat i)) true kwargs with
                | (w1, Ok seg) => (w1, Ok (concat seg))
                | (w1, Raise e) => (w1, Raise e)
                end).
    set (planes := map (map (fun _ : Z => 0)) (auto_segmentation (layers w))).
    set (P := fun a b : World =>
                amg_state a = Some cache ->
                amg_state b = Some cache
                /\ exists made, calls b = calls a ++ made
                     /\ forallb (fun c => negb (is_initialize c)) made = true).
    assert (P w (fst (Stacking.stack_slices f w 0 0%nat planes))) as Hrun.
    { apply (stack_slices_preserves f P).
      - intros a Ha. split; [done |]. exists []. by rewrite app_nil_r.
      - intros a b c Hab Hbc Ha. destruct (Hab Ha) as (Hb & m1 & Hm1 & Hn1).
        destruct (Hbc Hb) as (Hc' & m2 & Hm2 & Hn2). split; [done |].
        exists (m1 ++ m2). rewrite Hm2, Hm1, <- app_assoc. split; [done |].
        rewrite forallb_app. by rewrite Hn1, Hn2.
      - intros w' j Hj Hw'. unfold planes in Hj. rewrite length_map in Hj.
        destruct (Hall j) as [b Hb]; [unfold n; lia |].
        unfold f.
        rewrite (instance_segmentation_hit w' cache (Z.of_nat j) b) by done.
        simpl. destruct (get_amg_fields w') as (_ & _ & Hs & _ & _ & Hcalls).
        split; [congruence |].
        exists [Set_state b; Generate]. rewrite Hcalls, <- app_assoc. done. }
    destruct (Hrun Hc) as (Hstate & made & Hmade & Hnone).
    destruct (Stacking.stack_slices f w 0 0%nat planes) as [w1 [stacked|e]];
      simpl in *; eauto.
Qed.

End AMG.

(** *** A concrete generator

    The state of slice [i] is the number [10 + i], the generator returns
    its state as the only mask, and the label image made of the masks is
    one row. *)
Definition example_initialize (i : option Z) : Z := 10 + default 0 i.

Definition example_generate (b : Z) (_ : unit) : list Z := [b].

Definition example_mask_data_to_segmentation (masks : list Z) (_ : bool) (_ : Z)
  : volume := [masks].

Definition example_merge (v : volume) (_ : bool) (_ _ : Z) : volume := v.

Definition example_impl :=
  _instance_segmentation_impl Z Z unit example_initialize example_generate
    example_mask_data_to_segmentation.

(** A 3d annotator with two slices of one pixel, an empty cache with a
    cache folder, and an annotator state without [amge_state]. *)
Definition uncached_world : World Z :=
  {| layers := {| committed_objects := [[0]; [0]];
                  current_object := [[0]; [0]];
                  auto_segmentation := [[0]; [0]] |};
     image_shape := [2; 1; 1]%nat;
     amg := None;
     amg_state := Some {| entries := ∅; cache_folder := Some (Some "emb/amg_state") |};
     amge_state := None;
     files := ∅;
     calls := [] |}.

(** The same annotator with the states of both slices in the cache. *)
Definition cached_world : World Z :=
  {| layers := {| committed_objects := [[0]; [0]];
                  current_object := [[0]; [0]];
                  auto_segmentation := [[0]; [0]] |};
     image_shape := [2; 1; 1]%nat;
     amg := None;
     amg_state := Some {| entries := {[ 0 := 10; 1 := 11 ]};
                          cache_folder := Some (Some "emb/amg_state") |};
     amge_state := None;
     files := ∅;
     calls := [] |}.

(** A 2d annotator: one image of two pixels, no cache. *)
Definition world_2d : World Z :=
  {| layers := {| committed_objects := [[0; 0]];
                  current_object := [[0; 0]];
                  auto_segmentation := [[0; 0]] |};
     image_shape := [1; 2]%nat;
     amg := None;
     amg_state := None;
     amge_state := None;
     files := ∅;
     calls := [] |}.

(** The state pickled for the slice -1 is loaded as the state of slice 1. *)
Example load_amg_state_negative_index :
  entries Z (_load_amg_state Z (fun a b => (a ++ "/" ++ b)%string)
               (fun _ => [(0, 10); (-1, 9)]) (Some "emb"%string) true)
  = {[ 0 := 10; 1 := 9 ]}.
Proof. vm_compute. reflexivity. Qed.

Lemma instance_segmentation_reuses_state_witness :
  let first := example_impl uncached_world true 0 (Some 1) true tt in
  let second := example_impl (fst first) false 5 (Some 1) true tt in
  (exists cache1,
     amg_state Z (fst first) = Some cache1
     /\ entries Z cache1 !! 1 = Some 11
     /\ cache_folder Z cache1 = Some (Some "emb/amg_state")
     /\ forall j, j <> 1 -> entries Z cache1 !! j = (∅ : gmap Z Z) !! j)
  /\ calls Z (fst second) = calls Z (fst first) ++ [Set_state Z 11; Generate Z]
  /\ amg_state Z (fst second) = amg_state Z (fst first)
  /\ files Z (fst second) = files Z (fst first)
  /\ (true = true -> snd second = Ok [[11]]).
Proof.
  exact (instance_segmentation_reuses_state Z Z unit example_initialize
           example_generate example_mask_data_to_segmentation uncached_world
           {| entries := ∅; cache_folder := Some (Some "emb/amg_state") |}
           1 true false 0 5 true true tt tt eq_refl).
Defined.

Lemma cache_miss_without_attribute_witness :
  let out := example_impl uncached_world true 0 (Some 1) false tt in
  snd out = Raise AttributeError
  /\ layers Z (fst out) = layers Z uncached_world
  /\ calls Z (fst out) = calls Z uncached_world ++ [Initialize Z (Some 1); Get_state Z]
  /\ (exists cache1, amg_state Z (fst out) = Some cache1
        /\ entries Z cache1 !! 1 = Some 11)
  /\ (forall folder, Some (Some "emb/amg_state") = Some (Some folder) ->
        exists dir, files Z (fst out) !! folder = Some dir /\ dir !! 1 = Some 11).
Proof.
  exact (cache_miss_without_attribute Z Z unit example_initialize
           example_generate example_mask_data_to_segmentation uncached_world
           {| entries := ∅; cache_folder := Some (Some "emb/amg_state") |}
           1 true 0 false tt eq_refl eq_refl eq_refl).
Defined.

Lemma amg_2d_initializes_once_witness :
  let first := amg_2d Z Z unit example_initialize example_generate
                 example_mask_data_to_segmentation world_2d true 0 tt in
  let second := amg_2d Z Z unit example_initialize example_generate
                  example_mask_data_to_segmentation (fst first) false 5 tt in
  snd first = Ok tt
  /\ snd second = Ok tt
  /\ calls Z (fst first) = [Initialize Z None; Generate Z]
  /\ calls Z (fst second) = [Initialize Z None; Generate Z; Generate Z]
  /\ auto_segmentation (layers Z (fst first)) = [[10]]
  /\ auto_segmentation (layers Z (fst second)) = [[10]]
  /\ committed_objects (layers Z (fst second)) = [[0; 0]]
  /\ current_object (layers Z (fst second)) = [[0; 0]].
Proof.
  exact (amg_2d_initializes_once Z Z unit example_initialize example_generate
           example_mask_data_to_segmentation world_2d true false 0 5 tt tt
           eq_refl eq_refl).
Defined.

Lemma cached_world_keys (k : Z) :
  is_Some (({[ 0 := 10; 1 := 11 ]} : gmap Z Z) !! k) -> 0 <= k < Z.of_nat 2.
Proof.
  intros [b Hb].
  destruct (decide (k = 0)) as [-> |]; [lia |].
  destruct (decide (k = 1)) as [-> |]; [lia |].
  rewrite lookup_insert_ne, lookup_singleton_ne in Hb by done. done.
Qed.

Lemma amg_3d_needs_complete_cache_witness :
  let out := amg_3d Z Z unit example_initialize example_generate
               example_mask_data_to_segmentation example_merge cached_world
               true 0 true 0 true 2 2 tt in
  let cache := {| entries := {[ 0 := 10; 1 := 11 ]};
                  cache_folder := Some (Some "emb/amg_state") |} in
  let complete :=
    cache_folder Z cache <> None
    /\ forall j, (j < 2)%nat -> is_Some (entries Z cache !! Z.of_nat j) in
  (~ complete -> out = (cached_world, Ok tt))
  /\ (complete ->
      out = _segment_volume Z Z unit example_initialize example_generate
              example_mask_data_to_segmentation example_merge cached_world
              true 0 2 2 tt
      /\ amg_state Z (fst out) = Some cache
      /\ exists made, calls Z (fst out) = calls Z cached_world ++ made
           /\ forallb (fun c => negb (is_initialize Z c)) made = true).
Proof.
  exact (amg_3d_needs_complete_cache Z Z unit example_initialize example_generate
           example_mask_data_to_segmentation example_merge cached_world
           {| entries := {[ 0 := 10; 1 := 11 ]};
              cache_folder := Some (Some "emb/amg_state") |}
           0 true 0 2 2 tt eq_refl cached_world_keys).
Defined.

(** The volume run on the complete cache: the states 10 and 11 are set and
    generated from, and the ids of the second slice are shifted by the
    maximum of the first. *)
Example amg_3d_on_complete_cache :
  let out := amg_3d Z Z unit example_initialize example_generate
               example_mask_data_to_segmentation example_merge cached_world
               true 0 true 0 true 2 2 tt in
  snd out = Ok tt
  /\ calls Z (fst out) = [Set_state Z 10; Generate Z; Set_state Z 11; Generate Z]
  /\ auto_segmentation (layers Z (fst out)) = [[10]; [21]].
Proof. vm_compute. repeat split. Qed.

(** Without the cache the same request is refused. *)
Example amg_3d_refused :
  amg_3d Z Z unit example_initialize example_generate
    example_mask_data_to_segmentation example_merge uncached_world
    true 0 true 0 true 2 2 tt
  = (uncached_world, Ok tt).
Proof. vm_compute. reflexivity. Qed.

End AutoSegmentation.

(** ** Object ids across commits and across stacked slices *)

Module ObjectIds.

Import Commit Stacking.

(** A committed layer of one row that holds the ids 1 and [2^32 - 1], and a
    current object with local id 2. *)
Definition full_layers : Layers :=
  {| committed_objects := [[1; 4294967295; 0]];
     current_object := [[0; 0; 2]];
     auto_segmentation := [[0; 0; 0]] |}.

Definition plain_state : AnnotatorState :=
  {| z_range := None;
     current_track_id := 1;
     lineage := {[ 1 := [] ]};
     committed_lineages := [] |}.

(** A session of two commits into an empty layer of two slices, and the
    per-slice instance segmentations of a volume of three slices. *)
Definition first_layers : Layers :=
  {| committed_objects := [[0; 0]; [0; 0]];
     current_object := [[1; 1]; [0; 0]];
     auto_segmentation := [[0; 0]; [0; 0]] |}.

Definition second_layers : Layers :=
  {| committed_objects := [[1; 1]; [0; 0]];
     current_object := [[0; 1]; [2; 0]];
     auto_segmentation := [[0; 0]; [0; 0]] |}.

Definition slice_segmentations : volume := [[1; 0; 2]; [0; 0; 0]; [0; 1; 1]].

Definition segment_example_slice (w : unit) (i : nat) : unit * result plane :=
  (w, match slice_segmentations !! i with
      | Some seg => Ok seg
      | None => Raise IndexError
      end).

Example commit_example :
  committed_objects (fst (_commit_impl plain_state second_layers Current_object))
  = [[1; 2]; [3; 0]].
Proof. reflexivity. Qed.

Example stack_example :
  stack_slices segment_example_slice tt 0 0 [[0; 0; 0]; [0; 0; 0]; [0; 0; 0]]
  = (tt, Ok [[1; 0; 2]; [0; 0; 0]; [0; 3; 3]]).
Proof. reflexivity. Qed.

(** C1 as stated fails where [uint32] wraps.  The committed layer holds the
    ids 1 and [2^32 - 1]; committing an object with local id 2 writes the id
    1, which is not [2 + (2^32 - 1)] and is the id of an object committed
    before. *)
Lemma commit_id_wraps :
  exists seg m bb v',
    wf_volume (committed_objects full_layers) = true
    /\ wf_volume (current_object full_layers) = true
    /\ _commit_impl plain_state full_layers Current_object
      = (v', Ok (4294967295, seg, m, bb))
    /\ get (current_object full_layers) 0 2 = Some 2
    /\ get (committed_objects v') 0 2 = Some 1
    /\ get (committed_objects full_layers) 0 0 = Some 1
    /\ 1 <> 2 + 4294967295.
Proof.
  eexists _, _, _, _. split; [reflexivity |]. split; [reflexivity |].
  split; [vm_compute; reflexivity |].
  repeat split; done.
Qed.

(** C1, amended.  As long as the ids fit the [uint32] range of the layers:

    - a commit from a bounding box that is not empty returns, and
      [_commit_impl] returns the maximum of the committed layer as the id
      offset; every nonzero pixel of the source layer inside the bounding
      box is committed as its id plus that offset, which is larger than
      every id of the committed layer before this commit and of the
      committed layer [c0] at any earlier point of the session; every other
      pixel of the committed layer is kept, and the maximum committed id
      does not decrease;
    - the loop of [_segment_volume] stores every nonzero id of slice [j] as
      the id plus the largest id stored for the slices before [j]. *)
Theorem ids_shifted_by_running_maximum {W : Type}
    (segment_slice_i : W -> nat -> W * result plane)
    (st : AnnotatorState) (v : Layers) (layer : layer_choice) (c0 : volume)
    (w : W) (planes segs : volume) :
  let c := committed_objects v in
  let s := layer_data v layer in
  let bb := bounds (z_range st) (length s) in
  wf_volume c = true ->
  wf_volume s = true ->
  same_shape c s = true ->
  is_empty c = false ->
  is_empty (view (fst bb) (snd bb) s) = false ->
  np_max c + np_max (view (fst bb) (snd bb) s) < 2 ^ 32 ->
  commits c0 c ->
  returns_all segment_slice_i w 0 segs ->
  same_shape segs planes = true ->
  wf_volume segs = true ->
  no_empty_slice segs = true ->
  all_zero planes = true ->
  total_ids segs < 2 ^ 32 ->
  (exists seg m v',
     _commit_impl st v layer = (v', Ok (np_max c, seg, m, bb))
     /\ (forall z p x,
           in_bounds bb z = true -> get s z p = Some x -> x <> 0 ->
           get (committed_objects v') z p = Some (x + np_max c)
           /\ (forall z' p' y, get c z' p' = Some y -> y < x + np_max c)
           /\ (forall z' p' y, get c0 z' p' = Some y -> y < x + np_max c))
     /\ (forall z p x,
           get s z p = Some x -> in_bounds bb z = false \/ x = 0 ->
           get (committed_objects v') z p = get c z p)
     /\ np_max c0 <= np_max c
     /\ np_max c <= np_max (committed_objects v'))
  /\ (exists w' stacked,
        stack_slices segment_slice_i w 0 0 planes = (w', Ok stacked)
        /\ forall j p x,
             get segs j p = Some x -> x <> 0 ->
             get stacked j p = Some (x + np_max (take j stacked))).
Proof.
  intros c s bb Hc Hs Hshape Hne Hbox Hfit Hsession Hret Hsshape Hswf Hsne Hzero
    Htotal.
  split.
  - destruct (commit_impl_get st v layer Hshape Hne Hbox)
      as (seg & m & v' & Hrun & Hget).
    fold c s bb in Hrun, Hget.
    pose proof (commits_max _ _ Hsession) as Hmono.
    exists seg, m, v'. split; [exact Hrun |].
    split; [|split; [|split]].
    + intros z p x Hin Hx Hx0.
      destruct (shifted_id_fits c s bb z p x Hc Hs Hfit Hin Hx) as [Hpos Hwrap].
      destruct (same_shape_get c s z p Hshape) as [_ [y Hy]]; [eauto |].
      split; [|split].
      * rewrite Hget, Hy, Hx. unfold committed_pixel. rewrite Hin.
        destruct (Z.eqb_spec x 0); [done |]. simpl. by rewrite Hwrap.
      * intros z' p' y' Hy'. apply np_max_ge in Hy'. lia.
      * intros z' p' y' Hy'. apply np_max_ge in Hy'. lia.
    + intros z p x Hx Hcase.
      destruct (same_shape_get c s z p Hshape) as [_ [y Hy]]; [eauto |].
      rewrite Hget, Hy, Hx. unfold committed_pixel. f_equal.
      destruct Hcase as [-> | ->]; [done |].
      by rewrite andb_false_r.
    + exact Hmono.
    + apply commit_step_max.
      by apply (commit_step_intro st v v' layer (np_max c, seg, m, bb)).
  - destruct (stack_slices_spec segment_slice_i planes segs w 0 0%nat)
      as (w' & stacked & Hrun & Hget); try done.
    exists w', stacked. split; [exact Hrun |].
    intros j p x Hx Hx0. rewrite (Hget j p x Hx).
    destruct (Z.eqb_spec x 0); [done |].
    pose proof (np_max_nonneg (take j stacked)). do 2 f_equal. lia.
Qed.

Lemma ids_shifted_by_running_maximum_witness :
  (exists seg m v',
     _commit_impl plain_state second_layers Current_object
       = (v', Ok (1, seg, m, (0%nat, 2%nat)))
     /\ (forall z p x,
           in_bounds (0%nat, 2%nat) z = true ->
           get (current_object second_layers) z p = Some x -> x <> 0 ->
           get (committed_objects v') z p = Some (x + 1)
           /\ (forall z' p' y,
                 get (committed_objects second_layers) z' p' = Some y -> y < x + 1)
           /\ (forall z' p' y,
                 get (committed_objects first_layers) z' p' = Some y -> y < x + 1))
     /\ (forall z p x,
           get (current_object second_layers) z p = Some x ->
           in_bounds (0%nat, 2%nat) z = false \/ x = 0 ->
           get (committed_objects v') z p
           = get (committed_objects second_layers) z p)
     /\ np_max (committed_objects first_layers) <= 1
     /\ 1 <= np_max (committed_objects v'))
  /\ (exists w' stacked,
        stack_slices segment_example_slice tt 0 0 [[0; 0; 0]; [0; 0; 0]; [0; 0; 0]]
          = (w', Ok stacked)
        /\ forall j p x,
             get slice_segmentations j p = Some x -> x <> 0 ->
             get stacked j p = Some (x + np_max (take j stacked))).
Proof.
  apply (ids_shifted_by_running_maximum segment_example_slice plain_state
           second_layers Current_object (committed_objects first_layers) tt
           [[0; 0; 0]; [0; 0; 0]; [0; 0; 0]] slice_segmentations).
  - reflexivity.
  - reflexivity.
  - reflexivity.
  - reflexivity.
  - reflexivity.
  - vm_compute. reflexivity.
  - eapply rtc_l; [|apply rtc_refl].
    apply (commit_step_intro plain_state first_layers
             (fst (_commit_impl plain_state first_layers Current_object))
             Current_object
             (0, [[1; 1]; [0; 0]], [[true; true]; [false; false]], (0%nat, 2%nat)));
      reflexivity.
  - simpl. eexists. split; [reflexivity |].
    eexists. split; [reflexivity |].
    eexists. split; [reflexivity |]. exact I.
  - reflexivity.
  - reflexivity.
  - reflexivity.
  - reflexivity.
  - vm_compute. reflexivity.
Defined.

End ObjectIds.

(** ** The lineage of a tracking session *)

Module Lineage.

Definition set_lineage (st : AnnotatorState) (l : gmap Z (list Z)) : AnnotatorState :=
  {| z_range := z_range st;
     current_track_id := current_track_id st;
     lineage := l;
     committed_lineages := committed_lineages st |}.

(** [_update_lineage] ([_widgets.py], lines 499-520).  The daughters are
    [current_track_id + 1] and [current_track_id + 2].  The menus of the
    GUI that list the track ids are not modelled. *)
Definition _update_lineage (st : AnnotatorState) : AnnotatorState * result unit :=
  let mother := current_track_id st in
  match lineage st !! mother with
  | None => (st, Raise AssertionError)
  | Some daughters =>
      if negb (length daughters =? 0)%nat then (st, Raise AssertionError)
      else
        let daughter1 := current_track_id st + 1 in
        let daughter2 := current_track_id st + 2 in
        let l := <[mother := [daughter1; daughter2]]> (lineage st) in
        let l := <[daughter1 := []]> l in
        let l := <[daughter2 := []]> l in
        (set_lineage st l, Ok tt)
  end.

(** Lines 586-589 of [track_object]:
    [if has_division and (len(state.lineage[state.current_track_id]) == 0):
       _update_lineage(viewer)]. *)
Definition record_division (st : AnnotatorState) (has_division : bool)
  : AnnotatorState * result unit :=
  if has_division then
    match lineage st !! current_track_id st with
    | None => (st, Raise KeyError)
    | Some daughters =>
        if (length daughters =? 0)%nat then _update_lineage st else (st, Ok tt)
    end
  else (st, Ok tt).

(** [track_object] ([_widgets.py], lines 559-595) after the tracking run of
    [vutil] has returned the mask [seg] and [has_division]: the division is
    recorded, then the old mask of the track is cleared and the new one is
    written. *)
Definition track_object (st : AnnotatorState) (v : Layers) (seg : volume)
    (has_division : bool) : (AnnotatorState * Layers) * result unit :=
  match record_division st has_division with
  | (st, Raise e) => ((st, v), Raise e)
  | (st, Ok _) =>
      let track_id := current_track_id st in
      let data := current_object v in
      let data := fill_where (equal_to track_id data) 0 data in
      if negb (same_shape seg data) then
        ((st, set_layer_data v Current_object data), Raise IndexError)
      else
        let data := fill_where (equal_to 1 seg) track_id data in
        ((st, set_layer_data v Current_object data), Ok tt)
  end.

(** A session in which track 1 has divided into the tracks 2 and 3, and the
    user has selected track 2. *)
Definition after_first_division : AnnotatorState :=
  {| z_range := None;
     current_track_id := 2;
     lineage := {[ 1 := [2; 3]; 2 := []; 3 := [] ]};
     committed_lineages := [] |}.

(** The same session after track 3 has divided as well. *)
Definition after_second_division : AnnotatorState :=
  {| z_range := None;
     current_track_id := 2;
     lineage := {[ 1 := [2; 3]; 2 := []; 3 := [4; 5]; 4 := []; 5 := [] ]};
     committed_lineages := [] |}.

(** A session right after [_reset_tracking_state]. *)
Definition fresh_session : AnnotatorState :=
  {| z_range := None;
     current_track_id := 1;
     lineage := {[ 1 := [] ]};
     committed_lineages := [] |}.

Definition one_frame : Layers :=
  {| committed_objects := [[0; 0]];
     current_object := [[1; 0]];
     auto_segmentation := [[0; 0]] |}.

(** The session after the division of track 1, with track 1 still selected. *)
Definition divided_session : AnnotatorState :=
  {| z_range := None;
     current_track_id := 1;
     lineage := {[ 1 := [2; 3]; 2 := []; 3 := [] ]};
     committed_lineages := [] |}.

Example second_division_is_noop :
  record_division divided_session true = (divided_session, Ok tt).
Proof. reflexivity. Qed.

Example first_division :
  lineage (fst (record_division fresh_session true))
  = {[ 1 := [2; 3]; 2 := []; 3 := [] ]}.
Proof. vm_compute. reflexivity. Qed.

(** When the dividing track has the largest id of the lineage, the two
    daughters are new track ids. *)
Lemma update_lineage_fresh (st : AnnotatorState) :
  (forall k, is_Some (lineage st !! k) -> k <= current_track_id st) ->
  lineage st !! (current_track_id st + 1) = None
  /\ lineage st !! (current_track_id st + 2) = None.
Proof.
  intros Hmax. split; apply eq_None_not_Some; intros H%Hmax; lia.
Qed.

(** C2 (the code at the failing input).  Track 1 has divided into 2 and 3;
    a division of track 2 makes its daughters 3 and 4, although 3 is a
    track of the lineage already: afterwards 3 is a daughter of both 1 and
    2.  When track 3 has daughters of its own, the division of track 2
    also resets the daughters of 3 to the empty list. *)
Theorem division_reuses_track_id :
  let st := after_first_division in
  let st' := fst (record_division st true) in
  let st2 := fst (record_division after_second_division true) in
  lineage st !! 3 = Some []
  /\ snd (record_division st true) = Ok tt
  /\ lineage st' !! 2 = Some [3; 4]
  /\ lineage st' !! 1 = Some [2; 3]
  /\ lineage after_second_division !! 3 = Some [4; 5]
  /\ lineage st2 !! 2 = Some [3; 4]
  /\ lineage st2 !! 3 = Some [].
Proof. vm_compute. repeat split. Qed.

(** C3.  For a parent track of the lineage: a division event for a parent
    that has daughters already returns without an error and leaves the
    state as it is; and after any division event for the parent, the parent
    has a non-empty daughter list, a second division event (with no reset
    in between) is such a no-op, so the daughters are the same both times.
    This holds for [track_object] as well, whose state after the second
    event is the state after the first. *)
Theorem record_division_idempotent (st : AnnotatorState) (daughters : list Z)
    (v : Layers) (seg : volume) :
  lineage st !! current_track_id st = Some daughters ->
  (daughters <> [] -> record_division st true = (st, Ok tt))
  /\ exists st1 pair,
       record_division st true = (st1, Ok tt)
       /\ current_track_id st1 = current_track_id st
       /\ lineage st1 !! current_track_id st = Some pair
       /\ pair <> []
       /\ record_division st1 true = (st1, Ok tt)
       /\ fst (fst (track_object st1 v seg true)) = st1.
Proof.
  intros Hparent.
  assert (forall s ds, lineage s !! current_track_id s = Some ds -> ds <> [] ->
                       record_division s true = (s, Ok tt)) as Hnoop.
  { intros s ds Hs Hds. unfold record_division. rewrite Hs.
    destruct ds; [done | reflexivity]. }
  split; [by apply Hnoop |].
  destruct daughters as [|d ds].
  - eexists _, [current_track_id st + 1; current_track_id st + 2].
    assert (record_division st true
            = (set_lineage st
                 (<[current_track_id st + 2 := []]>
                    (<[current_track_id st + 1 := []]>
                       (<[current_track_id st
                          := [current_track_id st + 1; current_track_id st + 2]]>
                          (lineage st)))), Ok tt)) as Hfirst.
    { unfold record_division, _update_lineage. by rewrite Hparent. }
    rewrite Hfirst.
    assert (lineage (set_lineage st
                 (<[current_track_id st + 2 := []]>
                    (<[current_track_id st + 1 := []]>
                       (<[current_track_id st
                          := [current_track_id st + 1; current_track_id st + 2]]>
                          (lineage st))))) !! current_track_id st
            = Some [current_track_id st + 1; current_track_id st + 2]) as Hpair.
    { simpl. rewrite lookup_insert_ne by lia. rewrite lookup_insert_ne by lia.
      apply lookup_insert_eq. }
    split; [done |]. split; [done |]. split; [exact Hpair |]. split; [done |].
    assert (record_division (set_lineage st
                 (<[current_track_id st + 2 := []]>
                    (<[current_track_id st + 1 := []]>
                       (<[current_track_id st
                          := [current_track_id st + 1; current_track_id st + 2]]>
                          (lineage st))))) true = (_, Ok tt)) as Hsecond
      by (eapply Hnoop; [exact Hpair | done]).
    split; [exact Hsecond |].
    unfold track_object. rewrite Hsecond. by destruct (negb _).
  - exists st, (d :: ds).
    assert (record_division st true = (st, Ok tt)) as Hfirst
      by (by eapply Hnoop).
    repeat split; try done.
    unfold track_object. rewrite Hfirst. by destruct (negb _).
Qed.

Lemma record_division_idempotent_witness :
  (([] : list Z) <> [] -> record_division fresh_session true = (fresh_session, Ok tt))
  /\ exists st1 pair,
       record_division fresh_session true = (st1, Ok tt)
       /\ current_track_id st1 = current_track_id fresh_session
       /\ lineage st1 !! current_track_id fresh_session = Some pair
       /\ pair <> []
       /\ record_division st1 true = (st1, Ok tt)
       /\ fst (fst (track_object st1 one_frame [[1; 1]] true)) = st1.
Proof.
  apply (record_division_idempotent fresh_session [] one_frame [[1; 1]]).
  reflexivity.
Defined.

End Lineage.

(** ** The interactive segmentation widgets *)

Module Segment.

Section Widgets.

(** The collaborators of the widgets: the prompt layers of the viewer, the
    prompts extracted from them, the predictor with its image embeddings
    and the [box_extension] factor are opaque here. *)
Context {PointLayer ShapeLayer Points PointLabels Boxes Masks : Type}.
Context {Predictor Embeddings BoxExtension : Type}.

(** The arguments of one call of [vutil.prompt_segmentation]; a keyword
    argument that the call does not pass is [None]. *)
Record SegmenterCall := {
  call_predictor : Predictor;
  call_points : Points;
  call_labels : PointLabels;
  call_boxes : Boxes;
  call_masks : option Masks;
  call_shape : list nat;
  call_multiple_box_prompts : bool;
  call_image_embeddings : option Embeddings;
  call_i : option Z;
  call_box_extension : option BoxExtension;
  call_multiple_point_prompts : option bool;
}.

(** [vutil.point_layer_to_prompts(layer, i, track_id, with_stop_annotation)]
    and, in [annotator_3d.py], [vutil.prompt_layer_to_points(layer, i)]:
    the points and labels of slice [i], or [None] when the annotation of
    the slice is the stop marker.  Without annotation the result is a pair
    of empty arrays, which is not [None]. *)
Variable point_layer_to_prompts :
  PointLayer -> option Z -> option Z -> bool -> option (Points * PointLabels).
Variable prompt_layer_to_points : PointLayer -> Z -> option (Points * PointLabels).

(** [vutil.shape_layer_to_prompts(layer, shape, i, track_id)] and
    [vutil.prompt_layer_to_boxes(layer, i)]. *)
Variable shape_layer_to_prompts :
  ShapeLayer -> list nat -> option Z -> option Z -> Boxes * Masks.
Variable prompt_layer_to_boxes : ShapeLayer -> Z -> Boxes.

(** [vutil.prompt_segmentation]: a 2d mask, or [None] when the prompts are
    empty or invalid. *)
Variable prompt_segmentation : SegmenterCall -> option volume.

(** [image_embeddings["original_size"] is None] (tiled embeddings). *)
Variable original_size_is_none : Embeddings -> bool.

(** What a widget does besides changing the layers. *)
Inductive event :=
  | Segmenter_called (c : SegmenterCall)
  | Printed_skip_message.

(** The viewer and the annotator state as the widgets see them.
    [data_shape] is the shape of the label layers, which is the shape of
    the image ([state.image_shape]); the planes of a layer are stored flat,
    in C order.  [cursor] is [int(viewer.cursor.position[0])]. *)
Record World := {
  layers : Layers;
  data_shape : list nat;
  point_prompts : PointLayer;
  prompts : ShapeLayer;
  cursor : Z;
  predictor : Predictor;
  image_embeddings : Embeddings;
  track_id : Z;
  events : list event;
}.

Definition record_event (w : World) (e : event) : World :=
  {| layers := layers w; data_shape := data_shape w;
     point_prompts := point_prompts w; prompts := prompts w;
     cursor := cursor w; predictor := predictor w;
     image_embeddings := image_embeddings w; track_id := track_id w;
     events := events w ++ [e] |}.

Definition set_current_object (w : World) (d : volume) : World :=
  {| layers := set_layer_data (layers w) Current_object d;
     data_shape := data_shape w;
     point_prompts := point_prompts w; prompts := prompts w;
     cursor := cursor w; predictor := predictor w;
     image_embeddings := image_embeddings w; track_id := track_id w;
     events := events w |}.

(** The call that [segment] makes (lines 410-421). *)
Definition segment_call (w : World) (box_extension : BoxExtension) (batched : bool)
    (points : Points) (labels : PointLabels) : SegmenterCall :=
  let shape := data_shape w in
  let bm := shape_layer_to_prompts (prompts w) shape None None in
  {| call_predictor := predictor w;
     call_points := points;
     call_labels := labels;
     call_boxes := fst bm;
     call_masks := Some (snd bm);
     call_shape := shape;
     call_multiple_box_prompts := true;
     call_image_embeddings :=
       if original_size_is_none (image_embeddings w)
       then Some (image_embeddings w) else None;
     call_i := None;
     call_box_extension := Some box_extension;
     call_multiple_point_prompts := Some batched |}.

(** [segment] ([_widgets.py], lines 403-429), the widget of the 2d
    annotator. *)
Definition segment (w : World) (box_extension : BoxExtension) (batched : bool)
  : World * result unit :=
  match point_layer_to_prompts (point_prompts w) None None false with
  | None => (w, Raise TypeError)
  | Some (points, labels) =>
      let c := segment_call w box_extension batched points labels in
      let w := record_event w (Segmenter_called c) in
      match prompt_segmentation c with
      | None => (record_event w Printed_skip_message, Ok tt)
      | Some seg => (set_current_object w seg, Ok tt)
      end
  end.

(** The call that [segment_slice] makes (lines 443-450). *)
Definition segment_slice_call (w : World) (box_extension : BoxExtension)
    (points : Points) (labels : PointLabels) : SegmenterCall :=
  let shape := tail (data_shape w) in
  let z := cursor w in
  let bm := shape_layer_to_prompts (prompts w) shape (Some z) None in
  {| call_predictor := predictor w;
     call_points := points;
     call_labels := labels;
     call_boxes := fst bm;
     call_masks := Some (snd bm);
     call_shape := shape;
     call_multiple_box_prompts := false;
     call_image_embeddings := Some (image_embeddings w);
     call_i := Some z;
     call_box_extension := Some box_extension;
     call_multiple_point_prompts := None |}.

(** [segment_slice] ([_widgets.py], lines 433-458). *)
Definition segment_slice (w : World) (box_extension : BoxExtension)
  : World * result unit :=
  let z := cursor w in
  match point_layer_to_prompts (point_prompts w) (Some z) None true with
  | None => (w, Ok tt)
  | Some (points, labels) =>
      let c := segment_slice_call w box_extension points labels in
      let w := record_event w (Segmenter_called c) in
      match prompt_segmentation c with
      | None => (record_event w Printed_skip_message, Ok tt)
      | Some seg =>
          match set_plane (current_object (layers w)) z (concat seg) with
          | Raise e => (w, Raise e)
          | Ok data => (set_current_object w data, Ok tt)
          end
      end
  end.

(** The call that [segment_frame] makes (lines 535-541). *)
Definition segment_frame_call (w : World) (points : Points) (labels : PointLabels)
  : SegmenterCall :=
  let shape := tail (data_shape w) in
  let t := cursor w in
  let bm := shape_layer_to_prompts (prompts w) shape (Some t) (Some (track_id w)) in
  {| call_predictor := predictor w;
     call_points := points;
     call_labels := labels;
     call_boxes := fst bm;
     call_masks := Some (snd bm);
     call_shape := shape;
     call_multiple_box_prompts := false;
     call_image_embeddings := Some (image_embeddings w);
     call_i := Some t;
     call_box_extension := None;
     call_multiple_point_prompts := None |}.

(** Lines 548-553 of [segment_frame] on the frame [k], an array of shape
    [shape]: clear the old mask of the track, then write the new one, which
    is [seg.squeeze() == 1].  The mask [seg] is a 2d array, the list of its
    rows; without its axes of length 1 it indexes the leading axes of the
    frame.  The first assignment has taken place when the second one
    raises.  In a layer of one axis [data[t]] is a scalar, which takes no
    item assignment: the first assignment raises [TypeError]. *)
Definition write_track_mask (shape : list nat) (data : volume) (k : nat)
    (frame : plane) (track : Z) (seg : volume) : volume * result unit :=
  match shape with
  | [] => (data, Raise TypeError)
  | _ :: _ =>
      let old_mask := map (fun x => x =? track) frame in
      let frame := fill_at old_mask 0 frame in
      let new_mask := map (fun x => x =? 1) (concat seg) in
      match fill_leading shape (squeeze (shape_2d seg)) new_mask track frame with
      | Raise e => (<[k := frame]> data, Raise e)
      | Ok frame => (<[k := frame]> data, Ok tt)
      end
  end.

(** [segment_frame] ([_widgets.py], lines 524-554). *)
Definition segment_frame (w : World) : World * result unit :=
  let t := cursor w in
  match point_layer_to_prompts (point_prompts w) (Some t) (Some (track_id w)) true with
  | None => (w, Ok tt)
  | Some (points, labels) =>
      let c := segment_frame_call w points labels in
      let w := record_event w (Segmenter_called c) in
      match prompt_segmentation c with
      | None => (record_event w Printed_skip_message, Ok tt)
      | Some seg =>
          let data := current_object (layers w) in
          match Py.index (length data) t with
          | None => (w, Raise IndexError)
          | Some k =>
              match data !! k with
              | None => (w, Raise IndexError)
              | Some frame =>
                  let '(data, r) :=
                    write_track_mask (tail (data_shape w)) data k frame (track_id w)
                      seg in
                  (set_current_object w data, r)
              end
          end
      end
  end.

(** The call that [_segment_slice_wigdet] makes ([annotator_3d.py],
    lines 38-45). *)
Definition segment_slice_widget_call (w : World) (points : Points)
    (labels : PointLabels) : SegmenterCall :=
  let z := cursor w in
  {| call_predictor := predictor w;
     call_points := points;
     call_labels := labels;
     call_boxes := prompt_layer_to_boxes (prompts w) z;
     call_masks := None;
     call_shape := tail (data_shape w);
     call_multiple_box_prompts := false;
     call_image_embeddings := Some (image_embeddings w);
     call_i := Some z;
     call_box_extension := None;
     call_multiple_point_prompts := None |}.

(** [_segment_slice_wigdet] ([annotator_3d.py], lines 29-53). *)
Definition _segment_slice_wigdet (w : World) : World * result unit :=
  let z := cursor w in
  match prompt_layer_to_points (point_prompts w) z with
  | None => (w, Ok tt)
  | Some (points, labels) =>
      let c := segment_slice_widget_call w points labels in
      let w := record_event w (Segmenter_called c) in
      match prompt_segmentation c with
      | None => (record_event w Printed_skip_message, Ok tt)
      | Some seg =>
          match set_plane (current_object (layers w)) z (concat seg) with
          | Raise e => (w, Raise e)
          | Ok data => (set_current_object w data, Ok tt)
          end
      end
  end.

Lemma fill_at_lookup (m : list bool) (k : Z) (p : plane) (j : nat) :
  fill_at m k p !! j =
    match m !! j, p !! j with
    | Some b, Some x => Some (if b : bool then wrap32 k else x)
    | _, _ => None
    end.
Proof.
  unfold fill_at. rewrite lookup_zip_with.
  destruct (m !! j); simpl; [|done]. by destruct (p !! j).
Qed.

Lemma fill_leading_lookup (ashape mshape : list nat) (m : list bool) (k : Z)
    (a a' : plane) (q : nat) :
  fill_leading ashape mshape m k a = Ok a' ->
  a' !! q
  = (fun x => if default false (m !! Nat.div q (size_of (drop (length mshape) ashape)))
              then wrap32 k else x) <$> a !! q.
Proof.
  unfold fill_leading. case_bool_decide; [|done].
  intros [= <-]. apply list_lookup_imap.
Qed.


(** C7.  When the point prompts of the slice under the cursor are the stop
    marker (the extraction helper returns [None]), each of [segment_slice],
    [segment_frame] and [_segment_slice_wigdet] returns at once, in the
    state it started from: no layer has changed and the segmenter has not
    been called.  For any other prompts, also the empty ones of a slice
    without annotation, each of them calls the segmenter, and when the
    segmenter returns [None] it prints the skip message and leaves the
    layers as they are. *)
Theorem stop_directive_returns_immediately (w : World)
    (box_extension : BoxExtension) :
  (point_layer_to_prompts (point_prompts w) (Some (cursor w)) None true = None ->
   segment_slice w box_extension = (w, Ok tt))
  /\ (point_layer_to_prompts (point_prompts w) (Some (cursor w))
        (Some (track_id w)) true = None ->
      segment_frame w = (w, Ok tt))
  /\ (prompt_layer_to_points (point_prompts w) (cursor w) = None ->
      _segment_slice_wigdet w = (w, Ok tt))
  /\ (forall points labels,
        point_layer_to_prompts (point_prompts w) (Some (cursor w)) None true
          = Some (points, labels) ->
        let c := segment_slice_call w box_extension points labels in
        let out := segment_slice w box_extension in
        (exists rest, events (fst out) = events w ++ Segmenter_called c :: rest)
        /\ (prompt_segmentation c = None ->
            snd out = Ok tt
            /\ layers (fst out) = layers w
            /\ events (fst out)
               = events w ++ [Segmenter_called c; Printed_skip_message]))
  /\ (forall points labels,
        point_layer_to_prompts (point_prompts w) (Some (cursor w))
          (Some (track_id w)) true = Some (points, labels) ->
        let c := segment_frame_call w points labels in
        let out := segment_frame w in
        (exists rest, events (fst out) = events w ++ Segmenter_called c :: rest)
        /\ (prompt_segmentation c = None ->
            snd out = Ok tt
            /\ layers (fst out) = layers w
            /\ events (fst out)
               = events w ++ [Segmenter_called c; Printed_skip_message]))
  /\ (forall points labels,
        prompt_layer_to_points (point_prompts w) (cursor w) = Some (points, labels) ->
        let c := segment_slice_widget_call w points labels in
        let out := _segment_slice_wigdet w in
        (exists rest, events (fst out) = events w ++ Segmenter_called c :: rest)
        /\ (prompt_segmentation c = None ->
            snd out = Ok tt
            /\ layers (fst out) = layers w
            /\ events (fst out)
               = events w ++ [Segmenter_called c; Printed_skip_message])).
Proof.
  split; [|split; [|split; [|split; [|split]]]].
  - intros Hstop. unfold segment_slice. by rewrite Hstop.
  - intros Hstop. unfold segment_frame. by rewrite Hstop.
  - intros Hstop. unfold _segment_slice_wigdet. by rewrite Hstop.
  - intros points labels Hp c out. unfold out, segment_slice. rewrite Hp.
    cbv zeta. fold c. split.
    + destruct (prompt_segmentation c) as [seg|]; simpl.
      * destruct (set_plane _ _ _); simpl; exists []; done.
      * exists [Printed_skip_message]. by rewrite <- app_assoc.
    + intros ->. simpl. by rewrite <- app_assoc.
  - intros points labels Hp c out. unfold out, segment_frame. rewrite Hp.
    cbv zeta. fold c. split.
    + destruct (prompt_segmentation c) as [seg|]; simpl.
      * destruct (Py.index _ _) as [k|]; simpl; [|exists []; done].
        destruct (_ !! k) as [frame|]; simpl; [|exists []; done].
        destruct (write_track_mask _ _ _ _ _ _). simpl. exists []. done.
      * exists [Printed_skip_message]. by rewrite <- app_assoc.
    + intros ->. simpl. by rewrite <- app_assoc.
  - intros points labels Hp c out. unfold out, _segment_slice_wigdet. rewrite Hp.
    cbv zeta. fold c. split.
    + destruct (prompt_segmentation c) as [seg|]; simpl.
      * destruct (set_plane _ _ _); simpl; exists []; done.
      * exists [Printed_skip_message]. by rewrite <- app_assoc.
    + intros ->. simpl. by rewrite <- app_assoc.
Qed.

(** C8.  When [prompt_segmentation] returns [None] for the prompts of a
    widget, the widget returns without raising, having printed the skip
    message, and no layer has changed; in particular the data of
    [current_object] is what it was.  This holds for each of [segment],
    [segment_slice], [segment_frame] and [_segment_slice_wigdet] on its
    own. *)
Theorem empty_segmentation_is_skipped (w : World) (box_extension : BoxExtension)
    (batched : bool) :
  (forall points labels,
     point_layer_to_prompts (point_prompts w) None None false = Some (points, labels) ->
     prompt_segmentation (segment_call w box_extension batched points labels) = None ->
     snd (segment w box_extension batched) = Ok tt
     /\ layers (fst (segment w box_extension batched)) = layers w
     /\ last (events (fst (segment w box_extension batched)))
        = Some Printed_skip_message)
  /\ (forall points labels,
        point_layer_to_prompts (point_prompts w) (Some (cursor w)) None true
          = Some (points, labels) ->
        prompt_segmentation (segment_slice_call w box_extension points labels) = None ->
        snd (segment_slice w box_extension) = Ok tt
        /\ layers (fst (segment_slice w box_extension)) = layers w
        /\ last (events (fst (segment_slice w box_extension)))
           = Some Printed_skip_message)
  /\ (forall points labels,
        point_layer_to_prompts (point_prompts w) (Some (cursor w))
          (Some (track_id w)) true = Some (points, labels) ->
        prompt_segmentation (segment_frame_call w points labels) = None ->
        snd (segment_frame w) = Ok tt
        /\ layers (fst (segment_frame w)) = layers w
        /\ last (events (fst (segment_frame w))) = Some Printed_skip_message)
  /\ (forall points labels,
        prompt_layer_to_points (point_prompts w) (cursor w) = Some (points, labels) ->
        prompt_segmentation (segment_slice_widget_call w points labels) = None ->
        snd (_segment_slice_wigdet w) = Ok tt
        /\ layers (fst (_segment_slice_wigdet w)) = layers w
        /\ last (events (fst (_segment_slice_wigdet w)))
           = Some Printed_skip_message).
Proof.
  split; [|split; [|split]]; intros points labels Hp Hs.
  - unfold segment. rewrite Hp. cbv zeta. rewrite Hs. simpl.
    by rewrite last_snoc.
  - unfold segment_slice. rewrite Hp. cbv zeta. rewrite Hs. simpl.
    by rewrite last_snoc.
  - unfold segment_frame. rewrite Hp. cbv zeta. rewrite Hs. simpl.
    by rewrite last_snoc.
  - unfold _segment_slice_wigdet. rewrite Hp. cbv zeta. rewrite Hs. simpl.
    by rewrite last_snoc.
Qed.


(** *** Outcomes of the slice widgets *)

Lemma set_plane_again (data : volume) (i : Z) (seg : plane) (data' : volume) :
  set_plane data i seg = Ok data' -> set_plane data' i seg = Ok data'.
Proof.
  intros (k & Hk & ->)%set_plane_insert.
  pose proof (index_lt _ _ _ Hk) as Hlt.
  unfold set_plane. rewrite length_insert, Hk.
  rewrite list_lookup_insert_eq by done.
  rewrite length_map, Nat.eqb_refl. by rewrite list_insert_insert_eq.
Qed.

(** Clearing the pixels of a track twice is clearing them once, and after
    the new mask has been written, clearing and writing again changes
    nothing. *)
Lemma fill_at_clear_again (track : Z) (frame : plane) :
  let cleared := fill_at (map (fun x => x =? track) frame) 0 frame in
  fill_at (map (fun x => x =? track) cleared) 0 cleared = cleared.
Proof.
  intros cleared. apply list_eq. intros j.
  unfold cleared. rewrite !fill_at_lookup, !list_lookup_fmap, fill_at_lookup,
    list_lookup_fmap.
  destruct (frame !! j) as [x|]; simpl; [|done]. f_equal.
  change (wrap32 0) with 0.
  destruct (Z.eqb_spec x track) as [-> |].
  - by destruct (0 =? track).
  - by destruct (Z.eqb_spec x track).
Qed.

Lemma fill_leading_write_again (shape mshape : list nat) (track : Z)
    (m : list bool) (frame written : plane) :
  let cleared := fill_at (map (fun x => x =? track) frame) 0 frame in
  fill_leading shape mshape m track cleared = Ok written ->
  fill_leading shape mshape m track
    (fill_at (map (fun x => x =? track) written) 0 written) = Ok written.
Proof.
  intros cleared Hw.
  assert (forall q, written !! q
            = (fun x => if default false
                             (m !! Nat.div q (size_of (drop (length mshape) shape)))
                        then wrap32 track else x) <$> cleared !! q) as Hq
    by (intros q; by apply fill_leading_lookup).
  unfold fill_leading in Hw |- *. case_bool_decide; [|done].
  f_equal. apply list_eq. intros q.
  rewrite list_lookup_imap, fill_at_lookup, list_lookup_fmap, !Hq.
  unfold cleared. rewrite fill_at_lookup, list_lookup_fmap.
  destruct (frame !! q) as [x|]; simpl; [|done]. f_equal.
  change (wrap32 0) with 0.
  destruct (default false (m !! _)); [done |].
  destruct (Z.eqb_spec x track) as [-> |]; simpl.
  - by destruct track.
  - by destruct (Z.eqb_spec x track).
Qed.

Lemma fill_at_length (m : list bool) (k : Z) (p : plane) :
  length m = length p -> length (fill_at m k p) = length p.
Proof. intros H. unfold fill_at. rewrite length_zip_with. lia. Qed.

Lemma write_track_mask_again (shape : list nat) (data : volume) (k : nat)
    (frame : plane) (track : Z) (seg : volume) :
  data !! k = Some frame ->
  let out := write_track_mask shape data k frame track seg in
  length (fst out) = length data
  /\ exists frame1, fst out !! k = Some frame1
       /\ write_track_mask shape (fst out) k frame1 track seg = out.
Proof.
  intros Hk out. pose proof (lookup_lt_Some _ _ _ Hk) as Hlt.
  unfold out, write_track_mask.
  destruct shape as [|n rest]; [simpl; eauto |].
  cbv beta iota. set (shape := n :: rest).
  set (cleared := fill_at (map (fun x => x =? track) frame) 0 frame).
  set (new_mask := map (fun x => x =? 1) (concat seg)).
  set (mshape := squeeze (shape_2d seg)).
  destruct (fill_leading shape mshape new_mask track cleared)
    as [written|e] eqn:Hw; simpl.
  - split; [by rewrite length_insert |].
    exists written. split; [by apply list_lookup_insert_eq |].
    rewrite (fill_leading_write_again shape mshape track new_mask frame written Hw).
    by rewrite list_insert_insert_eq.
  - split; [by rewrite length_insert |].
    exists cleared. split; [by apply list_lookup_insert_eq |].
    pose proof (fill_at_clear_again track frame) as Hagain.
    cbv zeta in Hagain. fold cleared in Hagain. rewrite Hagain, Hw.
    by rewrite list_insert_insert_eq.
Qed.

(** X10.  [segment_slice] and [_segment_slice_wigdet] change the layers only
    when they return normally, and then only the slice under the cursor of
    the current object: when one of them raises (the cursor outside the
    volume, a mask of another size), every layer is as before. *)
Theorem slice_widgets_all_or_nothing (w : World) (box_extension : BoxExtension) :
  let frame (out : World * result unit) :=
    (snd out <> Ok tt -> layers (fst out) = layers w)
    /\ committed_objects (layers (fst out)) = committed_objects (layers w)
    /\ auto_segmentation (layers (fst out)) = auto_segmentation (layers w)
    /\ length (current_object (layers (fst out)))
       = length (current_object (layers w))
    /\ forall z,
         Py.index (length (current_object (layers w))) (cursor w) <> Some z ->
         current_object (layers (fst out)) !! z = current_object (layers w) !! z in
  frame (segment_slice w box_extension) /\ frame (_segment_slice_wigdet w).
Proof.
  intros frame.
  assert (forall (w1 : World) seg,
            layers w1 = layers w ->
            frame match set_plane (current_object (layers w1)) (cursor w) (concat seg) with
                  | Raise e => (w1, Raise e)
                  | Ok data => (set_current_object w1 data, Ok tt)
                  end) as Hset.
  { intros w1 seg Hl. rewrite Hl.
    destruct (set_plane _ _ _) as [data|e] eqn:Hs; unfold frame; simpl.
    - apply set_plane_insert in Hs as (k & Hk & ->). rewrite Hl. simpl.
      split; [done |]. split; [done |]. split; [done |].
      split; [by rewrite length_insert |].
      intros z Hz. apply list_lookup_insert_ne. congruence.
    - rewrite Hl. done. }
  assert (frame (w, Ok tt)) as Hsame by (unfold frame; done).
  assert (forall e1 e2, frame (record_event (record_event w e1) e2, Ok tt)) as Hskip
    by (unfold frame; done).
  split.
  - unfold segment_slice.
    destruct (point_layer_to_prompts _ _ _ _) as [[points labels]|]; [|done].
    cbv zeta. destruct (prompt_segmentation _) as [seg|]; [|apply Hskip].
    by apply Hset.
  - unfold _segment_slice_wigdet.
    destruct (prompt_layer_to_points _ _) as [[points labels]|]; [|done].
    cbv zeta. destruct (prompt_segmentation _) as [seg|]; [|apply Hskip].
    by apply Hset.
Qed.

(** X11.  When the frames are arrays and the mask that [segment_frame]
    gets for the frame [k] under the cursor, without its axes of length 1,
    has not the shape of the leading axes of the frame, the widget raises
    [IndexError] after it has
    erased the old mask of the track: in frame [k] no pixel holds the
    (nonzero) track id any more and every other pixel is as before; the
    other frames and layers are unchanged. *)
Theorem segment_frame_mask_mismatch (w : World) (points : Points)
    (labels : PointLabels) (seg : volume) (k : nat) (frame : plane) :
  let mask_shape := squeeze (shape_2d seg) in
  point_layer_to_prompts (point_prompts w) (Some (cursor w)) (Some (track_id w)) true
    = Some (points, labels) ->
  prompt_segmentation (segment_frame_call w points labels) = Some seg ->
  Py.index (length (current_object (layers w))) (cursor w) = Some k ->
  current_object (layers w) !! k = Some frame ->
  tail (data_shape w) <> [] ->
  take (length mask_shape) (tail (data_shape w)) <> mask_shape ->
  track_id w <> 0 ->
  exists w',
    segment_frame w = (w', Raise IndexError)
    /\ committed_objects (layers w') = committed_objects (layers w)
    /\ auto_segmentation (layers w') = auto_segmentation (layers w)
    /\ (forall z, z <> k ->
          current_object (layers w') !! z = current_object (layers w) !! z)
    /\ (forall p old, frame !! p = Some old ->
          get (current_object (layers w')) k p
          = Some (if old =? track_id w then 0 else old))
    /\ (forall p, get (current_object (layers w')) k p <> Some (track_id w)).
Proof.
  intros mask_shape Hp Hs Hk Hframe Haxes Hshape Htrack.
  unfold segment_frame. rewrite Hp. cbv zeta.
  rewrite Hs. simpl. rewrite Hk, Hframe. unfold write_track_mask, fill_leading.
  fold mask_shape. rewrite bool_decide_eq_false_2 by done.
  destruct (tail (data_shape w)) as [|n shape]; [done |]. simpl.
  eexists. split; [reflexivity |]. simpl.
  split; [done |]. split; [done |].
  split; [intros z Hz; by apply list_lookup_insert_ne |].
  assert (forall p, get (<[k := fill_at (map (fun x => x =? track_id w) frame) 0 frame]>
                           (current_object (layers w))) k p
                    = (fun old => if old =? track_id w then 0 else old) <$> frame !! p)
    as Hget.
  { intros p. unfold get.
    rewrite list_lookup_insert_eq by (by eapply lookup_lt_Some).
    rewrite fill_at_lookup, list_lookup_fmap.
    destruct (frame !! p) as [old|]; simpl; [|done]. done. }
  split.
  - intros p old Hold. by rewrite Hget, Hold.
  - intros p. rewrite Hget. destruct (frame !! p) as [old|]; simpl; [|done].
    destruct (Z.eqb_spec old (track_id w)); congruence.
Qed.

(** X12.  Running [segment_slice], [segment_frame] or
    [_segment_slice_wigdet] a second time, with the prompts and the cursor
    as they are, leaves the layers as the first run left them, and has the
    outcome of the first run. *)
Theorem slice_widgets_idempotent (w : World) (box_extension : BoxExtension) :
  let again (f : World -> World * result unit) :=
    layers (fst (f (fst (f w)))) = layers (fst (f w))
    /\ snd (f (fst (f w))) = snd (f w) in
  again (fun w => segment_slice w box_extension)
  /\ again segment_frame
  /\ again _segment_slice_wigdet.
Proof.
  intros again. unfold again. destruct w as [l ds pp pr c p ie t ev].
  split; [|split].
  - unfold segment_slice. simpl.
    destruct (point_layer_to_prompts pp (Some c) None true) as [[points labels]|] eqn:Hp;
      simpl; [|by rewrite Hp].
    unfold segment_slice_call. simpl.
    destruct (prompt_segmentation _) as [seg|] eqn:Hs; simpl.
    + destruct (set_plane (current_object l) c (concat seg)) as [data|e] eqn:Hset;
        simpl; rewrite Hp; simpl; rewrite Hs; simpl.
      * by rewrite (set_plane_again _ _ _ _ Hset).
      * by rewrite Hset.
    + rewrite Hp. simpl. by rewrite Hs.
  - unfold segment_frame. simpl.
    destruct (point_layer_to_prompts pp (Some c) (Some t) true)
      as [[points labels]|] eqn:Hp; simpl; [|by rewrite Hp].
    unfold segment_frame_call. simpl.
    destruct (prompt_segmentation _) as [seg|] eqn:Hs; simpl.
    + destruct (Py.index (length (current_object l)) c) as [k|] eqn:Hk; simpl.
      * destruct (current_object l !! k) as [frame|] eqn:Hframe; simpl.
        -- destruct (write_track_mask_again (tail ds) (current_object l) k frame t seg
                       Hframe) as (Hlen & frame1 & Hf1 & Hagain).
           destruct (write_track_mask (tail ds) (current_object l) k frame t seg)
             as [data r] eqn:Hw. simpl in Hlen, Hf1, Hagain.
           simpl. rewrite Hp. simpl. rewrite Hs. simpl.
           rewrite Hlen, Hk, Hf1, Hagain. done.
        -- rewrite Hp. simpl. rewrite Hs. simpl. by rewrite Hk, Hframe.
      * rewrite Hp. simpl. rewrite Hs. simpl. by rewrite Hk.
    + rewrite Hp. simpl. by rewrite Hs.
  - unfold _segment_slice_wigdet. simpl.
    destruct (prompt_layer_to_points pp c) as [[points labels]|] eqn:Hp;
      simpl; [|by rewrite Hp].
    unfold segment_slice_widget_call. simpl.
    destruct (prompt_segmentation _) as [seg|] eqn:Hs; simpl.
    + destruct (set_plane (current_object l) c (concat seg)) as [data|e] eqn:Hset;
        simpl; rewrite Hp; simpl; rewrite Hs; simpl.
      * by rewrite (set_plane_again _ _ _ _ Hset).
      * by rewrite Hset.
    + rewrite Hp. simpl. by rewrite Hs.
Qed.

End Widgets.

(** *** A concrete annotator

    A point prompt is the pair of its slice and whether it is positive; a
    single negative point on a slice is the stop marker.  The segmenter
    returns no mask without points and the mask [[0; 1]] otherwise. *)

Definition example_point_layer_to_prompts (layer : list (Z * bool)) (i : option Z)
    (track : option Z) (with_stop_annotation : bool)
  : option (list (Z * bool) * list bool) :=
  let this :=
    List.filter (fun p => match i with Some i => fst p =? i | None => true end) layer in
  match this with
  | [(_, false)] => if with_stop_annotation then None else Some (this, [false])
  | _ => Some (this, snd <$> this)
  end.

Definition example_prompt_layer_to_points (layer : list (Z * bool)) (i : Z)
  : option (list (Z * bool) * list bool) :=
  example_point_layer_to_prompts layer (Some i) None true.

Definition example_shape_layer_to_prompts (layer : unit) (shape : list nat)
    (i track : option Z) : unit * unit := (tt, tt).

Definition example_prompt_layer_to_boxes (layer : unit) (i : Z) : unit := tt.

Definition example_prompt_segmentation
    (c : @SegmenterCall (list (Z * bool)) (list bool) unit unit unit unit unit)
  : option volume :=
  match call_points c with
  | [] => None
  | _ :: _ => Some [[0; 1]]
  end.

Definition example_world (points : list (Z * bool))
  : @World (list (Z * bool)) unit (list (Z * bool)) (list bool) unit unit unit unit unit :=
  {| layers := {| committed_objects := [[0; 0]; [0; 0]];
                  current_object := [[5; 7]; [5; 5]];
                  auto_segmentation := [[0; 0]; [0; 0]] |};
     data_shape := [2; 1; 2]%nat;
     point_prompts := points;
     prompts := tt;
     cursor := 0;
     predictor := tt;
     image_embeddings := tt;
     track_id := 5;
     events := [] |}.

(** The slice under the cursor carries the stop marker, no annotation, or
    one positive point. *)
Definition stop_world := example_world [(0, false)].
Definition empty_world := example_world [].


(** An annotator whose frames have the shape (2, 2), and a segmenter that
    returns a mask of this shape. *)
Definition square_world : @World (list (Z * bool)) unit (list (Z * bool)) (list bool) unit unit unit unit unit :=
  {| layers := {| committed_objects := [[0; 0; 0; 0]; [0; 0; 0; 0]];
                  current_object := [[5; 7; 0; 5]; [5; 5; 5; 5]];
                  auto_segmentation := [[0; 0; 0; 0]; [0; 0; 0; 0]] |};
     data_shape := [2; 2; 2]%nat;
     point_prompts := [(0, true)];
     prompts := tt;
     cursor := 0;
     predictor := tt;
     image_embeddings := tt;
     track_id := 5;
     events := [] |}.

Definition example_square_segmentation
    (c : @SegmenterCall (list (Z * bool)) (list bool) unit unit unit unit unit)
  : option volume :=
  match call_points c with
  | [] => None
  | _ :: _ => Some [[0; 1]; [1; 0]]
  end.

Example segment_frame_example :
  current_object (layers (fst (segment_frame example_point_layer_to_prompts
    example_shape_layer_to_prompts example_square_segmentation square_world)))
  = [[0; 5; 5; 0]; [5; 5; 5; 5]].
Proof. reflexivity. Qed.

(** A mask of one column on frames of the shape (2, 3): without its axis of
    length 1 it indexes the rows of the frame, and the widget writes the
    track id to the whole first row. *)
Example segment_frame_column_mask :
  let w : @World (list (Z * bool)) unit (list (Z * bool)) (list bool) unit unit unit unit unit :=
    {| layers := {| committed_objects := [[0; 0; 0; 0; 0; 0]];
                    current_object := [[0; 7; 0; 5; 0; 0]];
                    auto_segmentation := [[0; 0; 0; 0; 0; 0]] |};
       data_shape := [1; 2; 3]%nat;
       point_prompts := [(0, true)];
       prompts := tt;
       cursor := 0;
       predictor := tt;
       image_embeddings := tt;
       track_id := 5;
       events := [] |} in
  let out := segment_frame example_point_layer_to_prompts
               example_shape_layer_to_prompts (fun _ => Some [[1]; [0]]) w in
  snd out = Ok tt
  /\ current_object (layers (fst out)) = [[5; 5; 5; 0; 0; 0]].
Proof. split; reflexivity. Qed.

Lemma stop_directive_returns_immediately_witness :
  segment_slice example_point_layer_to_prompts example_shape_layer_to_prompts
    example_prompt_segmentation stop_world tt = (stop_world, Ok tt)
  /\ segment_frame example_point_layer_to_prompts example_shape_layer_to_prompts
       example_prompt_segmentation stop_world = (stop_world, Ok tt)
  /\ _segment_slice_wigdet example_prompt_layer_to_points
       example_prompt_layer_to_boxes example_prompt_segmentation stop_world
     = (stop_world, Ok tt)
  /\ (snd (segment_slice example_point_layer_to_prompts
             example_shape_layer_to_prompts example_prompt_segmentation
             empty_world tt) = Ok tt
      /\ layers (fst (segment_slice example_point_layer_to_prompts
                        example_shape_layer_to_prompts example_prompt_segmentation
                        empty_world tt)) = layers empty_world
      /\ events (fst (segment_slice example_point_layer_to_prompts
                        example_shape_layer_to_prompts example_prompt_segmentation
                        empty_world tt))
         = events empty_world
           ++ [Segmenter_called
                 (segment_slice_call example_shape_layer_to_prompts empty_world tt
                    [] []);
               Printed_skip_message])
  /\ (snd (segment_frame example_point_layer_to_prompts
             example_shape_layer_to_prompts example_prompt_segmentation
             empty_world) = Ok tt
      /\ layers (fst (segment_frame example_point_layer_to_prompts
                        example_shape_layer_to_prompts example_prompt_segmentation
                        empty_world)) = layers empty_world
      /\ events (fst (segment_frame example_point_layer_to_prompts
                        example_shape_layer_to_prompts example_prompt_segmentation
                        empty_world))
         = events empty_world
           ++ [Segmenter_called
                 (segment_frame_call example_shape_layer_to_prompts empty_world
                    [] []);
               Printed_skip_message])
  /\ (snd (_segment_slice_wigdet example_prompt_layer_to_points
             example_prompt_layer_to_boxes example_prompt_segmentation
             empty_world) = Ok tt
      /\ layers (fst (_segment_slice_wigdet example_prompt_layer_to_points
                        example_prompt_layer_to_boxes example_prompt_segmentation
                        empty_world)) = layers empty_world
      /\ events (fst (_segment_slice_wigdet example_prompt_layer_to_points
                        example_prompt_layer_to_boxes example_prompt_segmentation
                        empty_world))
         = events empty_world
           ++ [Segmenter_called
                 (segment_slice_widget_call example_prompt_layer_to_boxes
                    empty_world [] []);
               Printed_skip_message]).
Proof.
  destruct (stop_directive_returns_immediately example_point_layer_to_prompts
              example_prompt_layer_to_points example_shape_layer_to_prompts
              example_prompt_layer_to_boxes example_prompt_segmentation
              stop_world tt) as (Hslice & Hframe & Hwidget & _).
  destruct (stop_directive_returns_immediately example_point_layer_to_prompts
              example_prompt_layer_to_points example_shape_layer_to_prompts
              example_prompt_layer_to_boxes example_prompt_segmentation
              empty_world tt) as (_ & _ & _ & Hslice' & Hframe' & Hwidget').
  split; [apply Hslice; reflexivity |].
  split; [apply Hframe; reflexivity |].
  split; [apply Hwidget; reflexivity |].
  split; [apply (Hslice' [] []); reflexivity |].
  split; [apply (Hframe' [] []); reflexivity |].
  apply (Hwidget' [] []); reflexivity.
Defined.

Lemma empty_segmentation_is_skipped_witness :
  (snd (segment example_point_layer_to_prompts example_shape_layer_to_prompts
          example_prompt_segmentation (fun _ => false) empty_world tt false) = Ok tt
   /\ layers (fst (segment example_point_layer_to_prompts
                     example_shape_layer_to_prompts example_prompt_segmentation
                     (fun _ => false) empty_world tt false)) = layers empty_world
   /\ last (events (fst (segment example_point_layer_to_prompts
                           example_shape_layer_to_prompts
                           example_prompt_segmentation (fun _ => false)
                           empty_world tt false)))
      = Some Printed_skip_message)
  /\ (snd (segment_slice example_point_layer_to_prompts
             example_shape_layer_to_prompts example_prompt_segmentation
             empty_world tt) = Ok tt
      /\ layers (fst (segment_slice example_point_layer_to_prompts
                        example_shape_layer_to_prompts example_prompt_segmentation
                        empty_world tt)) = layers empty_world
      /\ last (events (fst (segment_slice example_point_layer_to_prompts
                              example_shape_layer_to_prompts
                              example_prompt_segmentation empty_world tt)))
         = Some Printed_skip_message)
  /\ (snd (segment_frame example_point_layer_to_prompts
             example_shape_layer_to_prompts example_prompt_segmentation
             empty_world) = Ok tt
      /\ layers (fst (segment_frame example_point_layer_to_prompts
                        example_shape_layer_to_prompts example_prompt_segmentation
                        empty_world)) = layers empty_world
      /\ last (events (fst (segment_frame example_point_layer_to_prompts
                              example_shape_layer_to_prompts
                              example_prompt_segmentation empty_world)))
         = Some Printed_skip_message)
  /\ (snd (_segment_slice_wigdet example_prompt_layer_to_points
             example_prompt_layer_to_boxes example_prompt_segmentation
             empty_world) = Ok tt
      /\ layers (fst (_segment_slice_wigdet example_prompt_layer_to_points
                        example_prompt_layer_to_boxes example_prompt_segmentation
                        empty_world)) = layers empty_world
      /\ last (events (fst (_segment_slice_wigdet example_prompt_layer_to_points
                              example_prompt_layer_to_boxes
                              example_prompt_segmentation empty_world)))
         = Some Printed_skip_message).
Proof.
  destruct (empty_segmentation_is_skipped example_point_layer_to_prompts
              example_prompt_layer_to_points example_shape_layer_to_prompts
              example_prompt_layer_to_boxes example_prompt_segmentation
              (fun _ => false) empty_world tt false)
    as (Hsegment & Hslice & Hframe & Hwidget).
  split; [apply (Hsegment [] []); reflexivity |].
  split; [apply (Hslice [] []); reflexivity |].
  split; [apply (Hframe [] []); reflexivity |].
  apply (Hwidget [] []); reflexivity.
Defined.


(** An annotator whose frames have the shape (1, 3), while the segmenter
    returns masks of the shape (1, 2). *)
Definition wide_world
  : @World (list (Z * bool)) unit (list (Z * bool)) (list bool) unit unit unit unit unit :=
  {| layers := {| committed_objects := [[0; 0; 0]];
                  current_object := [[5; 7; 5]];
                  auto_segmentation := [[0; 0; 0]] |};
     data_shape := [1; 1; 3]%nat;
     point_prompts := [(0, true)];
     prompts := tt;
     cursor := 0;
     predictor := tt;
     image_embeddings := tt;
     track_id := 5;
     events := [] |}.

Lemma segment_frame_mask_mismatch_witness :
  exists w',
    segment_frame example_point_layer_to_prompts example_shape_layer_to_prompts
      example_prompt_segmentation wide_world = (w', Raise IndexError)
    /\ committed_objects (layers w') = committed_objects (layers wide_world)
    /\ auto_segmentation (layers w') = auto_segmentation (layers wide_world)
    /\ (forall z, z <> 0%nat ->
          current_object (layers w') !! z = current_object (layers wide_world) !! z)
    /\ (forall p old, [5; 7; 5] !! p = Some old ->
          get (current_object (layers w')) 0 p
          = Some (if old =? track_id wide_world then 0 else old))
    /\ (forall p, get (current_object (layers w')) 0 p <> Some (track_id wide_world)).
Proof.
  apply (segment_frame_mask_mismatch example_point_layer_to_prompts
           example_shape_layer_to_prompts example_prompt_segmentation
           wide_world [(0, true)] [true] [[0; 1]] 0%nat [5; 7; 5]);
    try reflexivity.
  - discriminate.
  - simpl. discriminate.
  - simpl. lia.
Defined.

Example segment_frame_mismatch_example :
  let out := segment_frame example_point_layer_to_prompts
               example_shape_layer_to_prompts example_prompt_segmentation
               wide_world in
  snd out = Raise IndexError
  /\ current_object (layers (fst out)) = [[0; 7; 0]].
Proof. split; reflexivity. Qed.

End Segment.

(** ** Propagating an automatic segmentation through the volume *)

Module AutoVolume.

Section Propagation.

(** [segment_mask_in_volume(segmentation, predictor, image_embeddings,
    segmented_slices, stop_lower, stop_upper, iou_threshold, projection,
    box_extension)] of [multi_dimensional_segmentation], with the predictor
    and the embeddings fixed: it gets the mask of one object and the
    annotated slices and returns the mask of the object in the volume. *)
Context {Projection Threshold BoxExtension : Type}.
Variable segment_mask_in_volume :
  mask -> list Z -> bool -> bool -> Threshold -> Projection -> BoxExtension -> volume.

(** Lines 86-89: [seg[:start_slice] = 0] clears the slices below the start
    slice; the next statement, [seg[(start_slice+1):]], is an expression
    without effect, so the slices above the start slice keep their
    content. *)
Definition clear_outside_start (seg : volume) (start_slice : Z) : volume :=
  let stop := slice_bound (length seg) start_slice in
  map (map (fun _ => 0)) (take stop seg) ++ drop stop seg.

(** Lines 82-84: the ids of the start slice, without the background. *)
Definition start_object_ids (start_plane : plane) (with_background : bool)
  : result (list Z) :=
  let object_ids := np_unique start_plane in
  if with_background then
    match object_ids with
    | [] => Raise IndexError
    | first :: rest => Ok (if first =? 0 then rest else object_ids)
    end
  else Ok object_ids.

(** Lines 92-100, the body of the loop for one object. *)
Definition propagate_object (projection : Projection) (iou_threshold : Threshold)
    (box_extension : BoxExtension) (start_slice : Z) (seg : volume) (object_id : Z)
  : volume * result unit :=
  let object_seg := equal_to object_id seg in
  let segmented_slices := [start_slice] in
  let object_seg :=
    segment_mask_in_volume object_seg segmented_slices false false
      iou_threshold projection box_extension in
  if negb (same_shape object_seg seg) then (seg, Raise IndexError)
  else (fill_where (equal_to 1 object_seg) object_id seg, Ok tt).

Fixpoint propagate_objects (projection : Projection) (iou_threshold : Threshold)
    (box_extension : BoxExtension) (start_slice : Z) (seg : volume)
    (object_ids : list Z) : volume * result unit :=
  match object_ids with
  | [] => (seg, Ok tt)
  | object_id :: rest =>
      match propagate_object projection iou_threshold box_extension start_slice
              seg object_id with
      | (seg, Raise e) => (seg, Raise e)
      | (seg, Ok _) =>
          propagate_objects projection iou_threshold box_extension start_slice seg rest
      end
  end.

(** [_segment_volume_for_auto_segmentation] ([annotator_3d.py], lines
    77-102).  [seg] is the data of the layer itself, so the layer holds
    every change made up to a raise. *)
Definition _segment_volume_for_auto_segmentation (v : Layers)
    (projection : Projection) (iou_threshold : Threshold)
    (box_extension : BoxExtension) (with_background : bool) (start_slice : Z)
  : Layers * result volume :=
  let seg := auto_segmentation v in
  match Py.index (length seg) start_slice with
  | None => (v, Raise IndexError)
  | Some k =>
      match seg !! k with
      | None => (v, Raise IndexError)
      | Some start_plane =>
          match start_object_ids start_plane with_background with
          | Raise e => (v, Raise e)
          | Ok object_ids =>
              let seg := clear_outside_start seg start_slice in
              match propagate_objects projection iou_threshold box_extension
                      start_slice seg object_ids with
              | (seg, Raise e) => (set_layer_data v Auto_segmentation seg, Raise e)
              | (seg, Ok _) => (set_layer_data v Auto_segmentation seg, Ok seg)
              end
          end
      end
  end.

(** C9.  For a start slice [k] of the volume, the segmentation from which
    the objects are propagated, [clear_outside_start], has zeros in every
    slice below [k], the content of the layer in every slice above [k] and
    in slice [k] itself; the objects propagated are the ids of that start
    slice (without the background id 0 when [with_background] is set), and
    the first of them is propagated from its pixels in the cleared
    volume. *)
Theorem start_slice_seeds_propagation (v : Layers) (projection : Projection)
    (iou_threshold : Threshold) (box_extension : BoxExtension)
    (with_background : bool) (start_slice : Z) (k : nat) :
  Py.index (length (auto_segmentation v)) start_slice = Some k ->
  let seg := auto_segmentation v in
  let cleared := clear_outside_start seg start_slice in
  length cleared = length seg
  /\ (forall z pl, (z < k)%nat -> seg !! z = Some pl ->
        cleared !! z = Some (map (fun _ => 0) pl))
  /\ (forall z, (k < z)%nat -> cleared !! z = seg !! z)
  /\ cleared !! k = seg !! k
  /\ exists start_plane,
       cleared !! k = Some start_plane
       /\ match start_object_ids start_plane with_background with
          | Raise e =>
              _segment_volume_for_auto_segmentation v projection iou_threshold
                box_extension with_background start_slice = (v, Raise e)
          | Ok object_ids =>
              (forall x, x ∈ object_ids -> x ∈ start_plane)
              /\ (forall x, x ∈ start_plane -> x <> 0 -> x ∈ object_ids)
              /\ _segment_volume_for_auto_segmentation v projection iou_threshold
                   box_extension with_background start_slice
                 = match propagate_objects projection iou_threshold box_extension
                           start_slice cleared object_ids with
                   | (seg', Raise e) => (set_layer_data v Auto_segmentation seg', Raise e)
                   | (seg', Ok _) => (set_layer_data v Auto_segmentation seg', Ok seg')
                   end
          end.
Proof.
  intros Hk seg cleared.
  pose proof (index_lt _ _ _ Hk) as Hlt. fold seg in Hlt.
  pose proof (index_slice_bound _ _ _ Hk) as Hstop. fold seg in Hstop.
  assert (length (map (map (fun _ : Z => 0)) (take k seg)) = k) as Hlen
    by (rewrite length_map, length_take; lia).
  assert (cleared = map (map (fun _ => 0)) (take k seg) ++ drop k seg) as Hcleared
    by (unfold cleared, clear_outside_start; by rewrite Hstop).
  assert (forall z, (k <= z)%nat -> cleared !! z = seg !! z) as Habove.
  { intros z Hz. rewrite Hcleared, lookup_app_r by lia.
    rewrite Hlen, lookup_drop. f_equal. lia. }
  split; [|split; [|split; [|split]]].
  - rewrite Hcleared, length_app, Hlen, length_drop. lia.
  - intros z pl Hz Hpl. rewrite Hcleared, lookup_app_l by lia.
    rewrite list_lookup_fmap, lookup_take_lt, Hpl by lia. done.
  - intros z Hz. apply Habove. lia.
  - apply Habove. lia.
  - destruct (lookup_lt_is_Some_2 seg k Hlt) as [start_plane Hpl].
    exists start_plane. split; [by rewrite Habove |].
    unfold _segment_volume_for_auto_segmentation. cbv zeta.
    rewrite Hk. fold seg. rewrite Hpl. fold cleared.
    destruct (start_object_ids start_plane with_background) as [object_ids|e] eqn:Hids;
      [|done].
    split; [|split; [|done]].
    + intros x Hx. apply elem_of_np_unique.
      unfold start_object_ids in Hids. destruct with_background.
      * destruct (np_unique start_plane) as [|first rest]; [done |].
        injection Hids as <-. destruct (first =? 0); [by right | done].
      * by injection Hids as <-.
    + intros x Hx Hx0. apply elem_of_np_unique in Hx.
      unfold start_object_ids in Hids. destruct with_background.
      * destruct (np_unique start_plane) as [|first rest]; [done |].
        injection Hids as <-. destruct (Z.eqb_spec first 0) as [-> |]; [|done].
        apply elem_of_cons in Hx as [-> | Hx]; done.
      * by injection Hids as <-.
Qed.

(** *** What the propagation can write *)

Lemma clear_outside_start_get (seg : volume) (start_slice : Z) (z p : nat) :
  get (clear_outside_start seg start_slice) z p
  = (fun x => if (z <? slice_bound (length seg) start_slice)%nat then 0 else x)
      <$> get seg z p.
Proof.
  unfold clear_outside_start. cbv zeta.
  set (stop := slice_bound (length seg) start_slice).
  pose proof (slice_bound_le (length seg) start_slice) as Hstop. fold stop in Hstop.
  assert (length (map (map (fun _ : Z => 0)) (take stop seg)) = stop) as Hlen
    by (rewrite length_map, length_take; lia).
  unfold get. destruct (Nat.ltb_spec z stop).
  - rewrite lookup_app_l by lia.
    rewrite list_lookup_fmap, lookup_take_lt by lia.
    destruct (seg !! z) as [pl|]; simpl; [|done].
    rewrite list_lookup_fmap. by destruct (pl !! p).
  - rewrite lookup_app_r by lia. rewrite Hlen, lookup_drop.
    replace (stop + (z - stop))%nat with z by lia.
    destruct (seg !! z) as [pl|]; simpl; [|done]. by destruct (pl !! p).
Qed.

Lemma clear_outside_start_shape (seg : volume) (start_slice : Z) :
  same_shape (clear_outside_start seg start_slice) seg = true.
Proof.
  apply same_shape_of_get.
  - unfold clear_outside_start. cbv zeta.
    pose proof (slice_bound_le (length seg) start_slice).
    rewrite length_app, length_map, length_take, length_drop. lia.
  - intros z p. rewrite clear_outside_start_get. apply fmap_is_Some.
Qed.

Lemma propagate_object_labels (projection : Projection) (iou_threshold : Threshold)
    (box_extension : BoxExtension) (start_slice : Z) (seg : volume) (object_id : Z) :
  let seg1 := fst (propagate_object projection iou_threshold box_extension
                     start_slice seg object_id) in
  same_shape seg1 seg = true
  /\ forall z p y, get seg1 z p = Some y ->
       get seg z p = Some y \/ y = wrap32 object_id.
Proof.
  unfold propagate_object. cbv zeta.
  set (object_seg := segment_mask_in_volume _ _ _ _ _ _ _).
  destruct (same_shape object_seg seg) eqn:Hshape; simpl.
  - split.
    + apply same_shape_of_get.
      * unfold fill_where, equal_to. rewrite length_zip_with, length_map.
        apply same_shape_spec in Hshape as [Hlen _]. lia.
      * intros z p. rewrite get_fill_where, get_equal_to.
        pose proof (same_shape_get object_seg seg z p Hshape) as Hsome.
        destruct (get object_seg z p) as [b|], (get seg z p) as [x|]; simpl;
          split; intros [y Hy]; try discriminate; eauto.
        destruct (proj2 Hsome) as [? ?]; [eauto | discriminate].
    + intros z p y. rewrite get_fill_where, get_equal_to.
      destruct (get object_seg z p) as [b|]; simpl; [|done].
      destruct (get seg z p) as [x|]; [|done].
      intros [= <-]. destruct (b =? 1); [by right | by left].
  - split; [|by left]. apply same_shape_of_get; done.
Qed.

Lemma propagate_objects_labels (projection : Projection) (iou_threshold : Threshold)
    (box_extension : BoxExtension) (start_slice : Z) (object_ids : list Z)
    (seg : volume) :
  let seg1 := fst (propagate_objects projection iou_threshold box_extension
                     start_slice seg object_ids) in
  same_shape seg1 seg = true
  /\ forall z p y, get seg1 z p = Some y ->
       get seg z p = Some y \/ exists x, x ∈ object_ids /\ y = wrap32 x.
Proof.
  revert seg. induction object_ids as [|object_id rest IH]; intros seg; simpl.
  - split; [by apply same_shape_of_get | by left].
  - destruct (propagate_object_labels projection iou_threshold box_extension
                start_slice seg object_id) as [Hshape Hget].
    cbv zeta in Hshape, Hget.
    destruct (propagate_object _ _ _ _ seg object_id) as [seg1 [[]|e]];
      simpl in Hshape, Hget |- *.
    + destruct (IH seg1) as [Hshape' Hget']. cbv zeta in Hshape', Hget'.
      split; [by eapply same_shape_trans |].
      intros z p y Hy. destruct (Hget' z p y Hy) as [H | (x & Hx & ->)].
      * destruct (Hget z p y H) as [? | ->]; [by left |].
        right. exists object_id. split; [left | done].
      * right. exists x. split; [by right | done].
    + split; [done |]. intros z p y Hy.
      destruct (Hget z p y Hy) as [? | ->]; [by left |].
      right. exists object_id. split; [left | done].
Qed.

Lemma start_object_ids_elem (start_plane : plane) (with_background : bool)
    (object_ids : list Z) (x : Z) :
  start_object_ids start_plane with_background = Ok object_ids ->
  x ∈ object_ids -> x ∈ start_plane.
Proof.
  intros Hids Hx. apply elem_of_np_unique.
  unfold start_object_ids in Hids. destruct with_background.
  - destruct (np_unique start_plane) as [|first rest]; [done |].
    injection Hids as <-. destruct (first =? 0); [by right | done].
  - by injection Hids as <-.
Qed.

Lemma np_unique_zeros (pl : plane) :
  pl <> [] -> (forall x, x ∈ pl -> x = 0) -> np_unique pl = [0].
Proof.
  intros Hne Hz. unfold np_unique.
  assert (foldr insert_sorted [] pl = [] \/ foldr insert_sorted [] pl = [0]) as Hor.
  { clear Hne. induction pl as [|x pl IH]; simpl; [by left |]. right.
    rewrite (Hz x) by left.
    destruct IH as [-> | ->]; [intros; apply Hz; by right | done | done]. }
  destruct pl as [|x pl]; [done |]. simpl in *.
  rewrite (Hz x) by left.
  assert (foldr insert_sorted [] pl = [] \/ foldr insert_sorted [] pl = [0]) as [-> | ->];
    [|done|done].
  clear Hor Hne.
  assert (forall y, y ∈ pl -> y = 0) as Hz' by (intros; apply Hz; by right).
  clear Hz. induction pl as [|y pl IH]; simpl; [by left |]. right.
  rewrite (Hz' y) by left.
  destruct IH as [-> | ->]; [intros; apply Hz'; by right | done | done].
Qed.

(** X13.  The propagation of the automatic segmentation invents no label
    and keeps the shape: on a layer of [uint32] labels, whatever the outcome
    and whatever [segment_mask_in_volume] returns, every pixel of the layer
    afterwards holds 0, the label it held before, or a label of the start
    slice; the committed objects and the current object are untouched, and
    the segmentation returned is the data of the layer. *)
Theorem propagation_keeps_labels (v : Layers) (projection : Projection)
    (iou_threshold : Threshold) (box_extension : BoxExtension)
    (with_background : bool) (start_slice : Z) :
  wf_volume (auto_segmentation v) = true ->
  let out := _segment_volume_for_auto_segmentation v projection iou_threshold
               box_extension with_background start_slice in
  let seg := auto_segmentation v in
  let seg' := auto_segmentation (fst out) in
  committed_objects (fst out) = committed_objects v
  /\ current_object (fst out) = current_object v
  /\ same_shape seg' seg = true
  /\ (forall r, snd out = Ok r -> r = seg')
  /\ forall z p y, get seg' z p = Some y ->
       y = 0
       \/ get seg z p = Some y
       \/ exists k start_plane,
            Py.index (length seg) start_slice = Some k
            /\ seg !! k = Some start_plane
            /\ y ∈ start_plane.
Proof.
  intros Hwf out seg seg'.
  assert (same_shape seg seg = true) as Hrefl by (by apply same_shape_of_get).
  unfold seg', out, _segment_volume_for_auto_segmentation. cbv zeta. fold seg.
  destruct (Py.index (length seg) start_slice) as [k|] eqn:Hk; simpl;
    [|repeat split; try done; auto].
  destruct (seg !! k) as [start_plane|] eqn:Hplane; simpl;
    [|repeat split; try done; auto].
  destruct (start_object_ids start_plane with_background) as [object_ids|e] eqn:Hids;
    simpl; [|repeat split; try done; auto].
  destruct (propagate_objects_labels projection iou_threshold box_extension
              start_slice object_ids (clear_outside_start seg start_slice))
    as [Hshape Hget].
  cbv zeta in Hshape, Hget.
  assert (forall z p y,
            get (fst (propagate_objects projection iou_threshold box_extension
                        start_slice (clear_outside_start seg start_slice)
                        object_ids)) z p = Some y ->
            y = 0 \/ get seg z p = Some y
            \/ exists k0 pl, Some k = Some k0 /\ seg !! k0 = Some pl /\ y ∈ pl) as Hall.
  { intros z p y Hy. destruct (Hget z p y Hy) as [H | (x & Hx & ->)].
    - rewrite clear_outside_start_get in H.
      destruct (get seg z p) as [x|]; simpl in H; [|done].
      injection H as <-. destruct (_ <? _)%nat; [by left | right; by left].
    - right; right. exists k, start_plane. split; [done |]. split; [done |].
      pose proof (start_object_ids_elem _ _ _ _ Hids Hx) as Hin.
      apply list_elem_of_lookup in Hin as Hp. destruct Hp as [q Hq].
      assert (get seg k q = Some x) as Hg by (unfold get; by rewrite Hplane).
      rewrite wrap32_small by (by eapply wf_volume_get). done. }
  assert (same_shape (fst (propagate_objects projection iou_threshold box_extension
                             start_slice (clear_outside_start seg start_slice)
                             object_ids)) seg = true) as Hshape'.
  { eapply same_shape_trans; [exact Hshape | apply clear_outside_start_shape]. }
  destruct (propagate_objects _ _ _ _ _ _) as [seg1 [[]|e]]; simpl in *.
  - split; [done |]. split; [done |]. split; [done |].
    split; [by intros r [= <-] | done].
  - split; [done |]. split; [done |]. split; [done |]. split; [done | done].
Qed.

(** X14.  When the start slice holds only background, the run with
    [with_background] propagates no object: it returns normally and all it
    has done to the layer is to set the slices below the start slice to
    zero. *)
Theorem empty_start_slice_only_clears (v : Layers) (projection : Projection)
    (iou_threshold : Threshold) (box_extension : BoxExtension)
    (start_slice : Z) (k : nat) (start_plane : plane) :
  Py.index (length (auto_segmentation v)) start_slice = Some k ->
  auto_segmentation v !! k = Some start_plane ->
  start_plane <> [] ->
  (forall x, x ∈ start_plane -> x = 0) ->
  exists cleared,
    _segment_volume_for_auto_segmentation v projection iou_threshold
      box_extension true start_slice
    = (set_layer_data v Auto_segmentation cleared, Ok cleared)
    /\ forall z p,
         get cleared z p
         = (fun x => if (z <? k)%nat then 0 else x) <$> get (auto_segmentation v) z p.
Proof.
  intros Hk Hplane Hne Hzero.
  exists (clear_outside_start (auto_segmentation v) start_slice). split.
  - unfold _segment_volume_for_auto_segmentation. cbv zeta.
    rewrite Hk, Hplane. unfold start_object_ids.
    rewrite (np_unique_zeros start_plane Hne Hzero). simpl. done.
  - intros z p. rewrite clear_outside_start_get.
    by rewrite (index_slice_bound _ _ _ Hk).
Qed.

End Propagation.

(** A layer of three slices whose slice 1 holds the objects 1 and 2, with
    left-overs of an earlier run in the slices 0 and 2. *)
Definition leftover_layers : Layers :=
  {| committed_objects := [[0; 0]; [0; 0]; [0; 0]];
     current_object := [[0; 0]; [0; 0]; [0; 0]];
     auto_segmentation := [[4; 4]; [1; 2]; [0; 9]] |}.

(** A propagation that finds each object only in the start slice. *)
Definition example_segment_mask_in_volume (object_seg : mask)
    (segmented_slices : list Z) (stop_lower stop_upper : bool)
    (iou_threshold projection box_extension : unit) : volume :=
  map (map (fun b : bool => if b then 1 else 0)) object_seg.

Example clear_outside_start_example :
  clear_outside_start (auto_segmentation leftover_layers) 1 = [[0; 0]; [1; 2]; [0; 9]].
Proof. reflexivity. Qed.

Example segment_volume_for_auto_segmentation_example :
  _segment_volume_for_auto_segmentation example_segment_mask_in_volume
    leftover_layers tt tt tt true 1
  = (set_layer_data leftover_layers Auto_segmentation [[0; 0]; [1; 2]; [0; 9]],
     Ok [[0; 0]; [1; 2]; [0; 9]]).
Proof. reflexivity. Qed.

Lemma start_slice_seeds_propagation_witness :
  let seg := auto_segmentation leftover_layers in
  let cleared := clear_outside_start seg 1 in
  length cleared = length seg
  /\ (forall z pl, (z < 1)%nat -> seg !! z = Some pl ->
        cleared !! z = Some (map (fun _ => 0) pl))
  /\ (forall z, (1 < z)%nat -> cleared !! z = seg !! z)
  /\ cleared !! 1%nat = seg !! 1%nat
  /\ exists start_plane,
       cleared !! 1%nat = Some start_plane
       /\ match start_object_ids start_plane true with
          | Raise e =>
              _segment_volume_for_auto_segmentation example_segment_mask_in_volume
                leftover_layers tt tt tt true 1 = (leftover_layers, Raise e)
          | Ok object_ids =>
              (forall x, x ∈ object_ids -> x ∈ start_plane)
              /\ (forall x, x ∈ start_plane -> x <> 0 -> x ∈ object_ids)
              /\ _segment_volume_for_auto_segmentation example_segment_mask_in_volume
                   leftover_layers tt tt tt true 1
                 = match propagate_objects example_segment_mask_in_volume tt tt tt
                           1 cleared object_ids with
                   | (seg', Raise e) =>
                       (set_layer_data leftover_layers Auto_segmentation seg', Raise e)
                   | (seg', Ok _) =>
                       (set_layer_data leftover_layers Auto_segmentation seg', Ok seg')
                   end
          end.
Proof.
  apply (start_slice_seeds_propagation example_segment_mask_in_volume
           leftover_layers tt tt tt true 1 1%nat).
  reflexivity.
Defined.

(** A layer whose slice 1 is empty, with objects below and above it. *)
Definition empty_start_layers : Layers :=
  {| committed_objects := [[0; 0]; [0; 0]; [0; 0]];
     current_object := [[0; 0]; [0; 0]; [0; 0]];
     auto_segmentation := [[4; 4]; [0; 0]; [0; 9]] |}.

Lemma propagation_keeps_labels_witness :
  let out := _segment_volume_for_auto_segmentation example_segment_mask_in_volume
               leftover_layers tt tt tt true 1 in
  let seg := auto_segmentation leftover_layers in
  let seg' := auto_segmentation (fst out) in
  committed_objects (fst out) = committed_objects leftover_layers
  /\ current_object (fst out) = current_object leftover_layers
  /\ same_shape seg' seg = true
  /\ (forall r, snd out = Ok r -> r = seg')
  /\ forall z p y, get seg' z p = Some y ->
       y = 0
       \/ get seg z p = Some y
       \/ exists k start_plane,
            Py.index (length seg) 1 = Some k
            /\ seg !! k = Some start_plane
            /\ y ∈ start_plane.
Proof.
  apply (propagation_keeps_labels example_segment_mask_in_volume leftover_layers
           tt tt tt true 1).
  reflexivity.
Defined.

Lemma empty_start_slice_only_clears_witness :
  exists cleared,
    _segment_volume_for_auto_segmentation example_segment_mask_in_volume
      empty_start_layers tt tt tt true 1
    = (set_layer_data empty_start_layers Auto_segmentation cleared, Ok cleared)
    /\ forall z p,
         get cleared z p
         = (fun x => if (z <? 1)%nat then 0 else x)
             <$> get (auto_segmentation empty_start_layers) z p.
Proof.
  apply (empty_start_slice_only_clears example_segment_mask_in_volume
           empty_start_layers tt tt tt 1 1%nat [0; 0]).
  - reflexivity.
  - reflexivity.
  - discriminate.
  - intros x Hx. apply elem_of_cons in Hx as [-> | Hx]; [done |].
    apply elem_of_cons in Hx as [-> | Hx]; [done |]. inversion Hx.
Defined.

Example empty_start_slice_example :
  _segment_volume_for_auto_segmentation example_segment_mask_in_volume
    empty_start_layers tt tt tt true 1
  = (set_layer_data empty_start_layers Auto_segmentation [[0; 0]; [0; 0]; [0; 9]],
     Ok [[0; 0]; [0; 0]; [0; 9]]).
Proof. reflexivity. Qed.

End AutoVolume.

(** ** More about commits *)

Module CommitFacts.

Import Commit.

(** The other layer a commit could have been taken from. *)
Definition other_layer (l : layer_choice) : layer_choice :=
  match l with
  | Current_object => Auto_segmentation
  | Auto_segmentation => Current_object
  end.

(** [segment_object] ([_widgets.py], lines 467-496).  The two steps of the
    segmentation are functions of [vutil] and of
    [multi_dimensional_segmentation]; the widget stores the z-range that the
    second step returns and replaces the data of [current_object]. *)
Section SegmentObject.

Context {Predictor Embeddings PointLayer ShapeLayer : Type}.
Context {Threshold Projection BoxExtension : Type}.

Variable segment_slices_with_prompts :
  Predictor -> PointLayer -> ShapeLayer -> Embeddings -> list nat ->
  volume * list Z * bool * bool.

Variable segment_mask_in_volume :
  volume -> Predictor -> Embeddings -> list Z -> bool -> bool ->
  Threshold -> Projection -> BoxExtension -> volume * (Z * Z).

Definition segment_object (st : AnnotatorState) (v : Layers)
    (predictor : Predictor) (image_embeddings : Embeddings) (shape : list nat)
    (point_prompts : PointLayer) (prompts : ShapeLayer)
    (iou_threshold : Threshold) (projection : Projection)
    (box_extension : BoxExtension) : AnnotatorState * Layers :=
  let '(seg, slices, stop_lower, stop_upper) :=
    segment_slices_with_prompts predictor point_prompts prompts image_embeddings shape in
  let '(seg, (z_min, z_max)) :=
    segment_mask_in_volume seg predictor image_embeddings slices stop_lower stop_upper
      iou_threshold projection box_extension in
  ({| z_range := Some (z_min, z_max);
      current_track_id := current_track_id st;
      lineage := lineage st;
      committed_lineages := committed_lineages st |},
   set_layer_data v Current_object seg).

End SegmentObject.

(** The source layer with its nonzero ids inside the bounding box shifted,
    pixel by pixel. *)
Definition shifted_pixel (bb : nat * nat) (id_offset : Z) (z : nat) (src : Z) : Z :=
  if in_bounds bb z && negb (src =? 0) then wrap32 (src + id_offset) else src.

Lemma write_view_length {A} (lo hi : nat) (new v : list A) :
  (hi <= length v)%nat -> (lo <= length v)%nat -> length new = (hi - lo)%nat ->
  length (write_view lo new v) = length v.
Proof.
  intros Hhi Hlo Hnew. unfold write_view.
  rewrite !length_app, length_take, length_drop. lia.
Qed.

(** What a commit returns when the layers have one shape. *)
Lemma commit_impl_ok (st : AnnotatorState) (v : Layers) (layer : layer_choice) :
  let c := committed_objects v in
  let s := layer_data v layer in
  let bb := bounds (z_range st) (length s) in
  let seg := view (fst bb) (snd bb) s in
  let m := not_equal_zero seg in
  let seg' := add_where m (np_max c) seg in
  same_shape c s = true ->
  is_empty c = false ->
  is_empty seg = false ->
  _commit_impl st v layer
  = (set_committed_objects
       (set_layer_data v layer (write_view (fst bb) seg' s))
       (write_view (fst bb) (put_where m seg' (view (fst bb) (snd bb) c)) c),
     Ok (np_max c, seg', m, bb)).
Proof.
  intros c s bb seg m seg' Hshape Hne Hbox.
  pose proof (proj1 (same_shape_spec c s) Hshape) as [Hlen _].
  unfold _commit_impl. fold c s. rewrite Hne, Hlen. fold bb seg. rewrite Hbox.
  fold m seg'.
  assert (same_shape m (view (fst bb) (snd bb) c) = true) as ->; [|reflexivity].
  apply same_shape_not_equal_zero, same_shape_view, same_shape_sym, Hshape.
Qed.

Lemma shifted_source_get (s : volume) (bb : nat * nat) (k : Z) (z p : nat) :
  (snd bb <= length s)%nat -> (fst bb <= length s)%nat ->
  get (write_view (fst bb)
         (add_where (not_equal_zero (view (fst bb) (snd bb) s)) k
            (view (fst bb) (snd bb) s)) s) z p
  = shifted_pixel bb k z <$> get s z p.
Proof.
  intros Hhi Hlo.
  rewrite (get_write_view (fst bb) (snd bb)); [|done| |done].
  - unfold shifted_pixel.
    replace (in_bounds (fst bb, snd bb) z) with (in_bounds bb z) by (by destruct bb).
    destruct (in_bounds bb z) eqn:Hin; simpl.
    + unfold in_bounds in Hin. apply andb_true_iff in Hin as [Hl Hh].
      apply Nat.leb_le in Hl. apply Nat.ltb_lt in Hh.
      rewrite get_add_where, get_not_equal_zero, !get_view by lia.
      replace (fst bb + (z - fst bb))%nat with z by lia.
      destruct (get s z p) as [x|]; simpl; [|done]. by destruct (x =? 0).
    + by destruct (get s z p).
  - unfold add_where, not_equal_zero.
    rewrite length_zip_with, length_map, view_length by done. lia.
Qed.

Lemma is_empty_get (v : volume) :
  is_empty v = false <-> exists z p x, get v z p = Some x.
Proof.
  unfold is_empty. split.
  - destruct (concat v) as [|x l] eqn:Hc; [done |]. intros _.
    assert (x ∈ concat v) as Hx by (rewrite Hc; left).
    apply elem_of_concat_get in Hx as (z & p & Hx). eauto.
  - intros (z & p & x & Hx).
    assert (x ∈ concat v) as Hin by (apply elem_of_concat_get; eauto).
    destruct (concat v); [inversion Hin | done].
Qed.

Lemma same_shape_is_empty (a b : volume) :
  length a = length b ->
  (forall z p, is_Some (get a z p) <-> is_Some (get b z p)) ->
  is_empty a = false -> is_empty b = false.
Proof.
  intros _ Hget (z & p & x & Hx)%is_empty_get.
  destruct (proj1 (Hget z p)) as [y Hy]; [eauto |].
  apply is_empty_get. eauto.
Qed.


Lemma layer_data_set_layer_data (v : Layers) (l : layer_choice) (d : volume) :
  layer_data (set_committed_objects (set_layer_data v l d) (committed_objects v)) l = d
  /\ forall c, layer_data (set_committed_objects (set_layer_data v l d) c) l = d.
Proof. by destruct l. Qed.

(** Layers of two slices whose committed layer has another width than the
    current object. *)
Definition mismatched_layers : Layers :=
  {| committed_objects := [[4; 0]; [0; 0]];
     current_object := [[0; 1; 1]; [2; 0; 0]];
     auto_segmentation := [[0; 0]; [0; 0]] |}.

(** Layers whose automatic segmentation holds objects in both slices, and a
    state whose z-range is the slice 1 alone. *)
Definition auto_layers : Layers :=
  {| committed_objects := [[3; 0]; [0; 0]];
     current_object := [[0; 0]; [0; 0]];
     auto_segmentation := [[1; 1]; [0; 2]] |}.

Definition ranged_state : AnnotatorState :=
  {| z_range := Some (1, 1);
     current_track_id := 1;
     lineage := {[ 1 := [] ]};
     committed_lineages := [] |}.

(** A z-range beyond the last slice gives an empty bounding box: the
    commit raises before anything is written. *)
Example commit_empty_box_raises :
  let st := {| z_range := Some (3, 3);
               current_track_id := 1;
               lineage := {[ 1 := [] ]};
               committed_lineages := [] |} in
  _commit_impl st auto_layers Auto_segmentation = (auto_layers, Raise ValueError).
Proof. reflexivity. Qed.

(** X15.  A commit from a bounding box that is not empty rewrites the
    layer it commits from: [seg] is a view of that layer, so its nonzero
    pixels inside the bounding box hold the shifted ids afterwards, the
    values that were written to the committed layer; the other layers are
    not touched. *)
Theorem commit_rewrites_source (st : AnnotatorState) (v : Layers) (layer : layer_choice) :
  let c := committed_objects v in
  let s := layer_data v layer in
  let bb := bounds (z_range st) (length s) in
  same_shape c s = true ->
  is_empty c = false ->
  is_empty (view (fst bb) (snd bb) s) = false ->
  exists seg m v',
    _commit_impl st v layer = (v', Ok (np_max c, seg, m, bb))
    /\ (forall z p,
          get (layer_data v' layer) z p = shifted_pixel bb (np_max c) z <$> get s z p)
    /\ (forall z p x,
          in_bounds bb z = true -> get s z p = Some x -> x <> 0 ->
          get (committed_objects v') z p = get (layer_data v' layer) z p)
    /\ layer_data v' (other_layer layer) = layer_data v (other_layer layer).
Proof.
  intros c s bb Hshape Hne Hbox.
  destruct (commit_impl_get st v layer Hshape Hne Hbox)
    as (seg & m & v' & Hrun & Hget).
  exists seg, m, v'. split; [exact Hrun |].
  rewrite (commit_impl_ok st v layer Hshape Hne Hbox) in Hrun.
  injection Hrun as <- _ _.
  assert (forall z p,
    get (layer_data (set_committed_objects
           (set_layer_data v layer
              (write_view (fst bb)
                 (add_where (not_equal_zero (view (fst bb) (snd bb) s)) (np_max c)
                    (view (fst bb) (snd bb) s)) s))
           (write_view (fst bb)
              (put_where (not_equal_zero (view (fst bb) (snd bb) s))
                 (add_where (not_equal_zero (view (fst bb) (snd bb) s)) (np_max c)
                    (view (fst bb) (snd bb) s))
                 (view (fst bb) (snd bb) c)) c)) layer) z p
    = shifted_pixel bb (np_max c) z <$> get s z p) as Hsrc.
  { intros z p. rewrite (proj2 (layer_data_set_layer_data v layer _)).
    apply shifted_source_get; apply bounds_le. }
  split; [exact Hsrc |]. split.
  - intros z p x Hin Hx Hx0.
    destruct (same_shape_get c s z p Hshape) as [_ [y Hy]]; [eauto |].
    rewrite Hsrc, Hget. fold c s bb. rewrite Hy, Hx.
    simpl. unfold committed_pixel, shifted_pixel. rewrite Hin.
    by destruct (Z.eqb_spec x 0).
  - by destruct layer.
Qed.

Lemma commit_rewrites_source_witness :
  exists seg m v',
    _commit_impl ObjectIds.plain_state ObjectIds.second_layers Current_object
      = (v', Ok (1, seg, m, (0%nat, 2%nat)))
    /\ (forall z p,
          get (layer_data v' Current_object) z p
          = shifted_pixel (0%nat, 2%nat) 1 z
              <$> get (current_object ObjectIds.second_layers) z p)
    /\ (forall z p x,
          in_bounds (0%nat, 2%nat) z = true ->
          get (current_object ObjectIds.second_layers) z p = Some x -> x <> 0 ->
          get (committed_objects v') z p = get (layer_data v' Current_object) z p)
    /\ layer_data v' (other_layer Current_object)
       = layer_data ObjectIds.second_layers (other_layer Current_object).
Proof.
  apply (commit_rewrites_source ObjectIds.plain_state ObjectIds.second_layers
           Current_object); reflexivity.
Defined.

(** X16.  Committing a layer that holds no object inside a bounding box
    that is not empty returns and changes no pixel, neither of the
    committed layer nor of the source. *)
Theorem commit_without_objects (st : AnnotatorState) (v : Layers) (layer : layer_choice) :
  let c := committed_objects v in
  let s := layer_data v layer in
  let bb := bounds (z_range st) (length s) in
  same_shape c s = true ->
  is_empty c = false ->
  is_empty (view (fst bb) (snd bb) s) = false ->
  (forall z p x, in_bounds bb z = true -> get s z p = Some x -> x = 0) ->
  exists seg m v',
    _commit_impl st v layer = (v', Ok (np_max c, seg, m, bb))
    /\ (forall z p, get (committed_objects v') z p = get c z p)
    /\ (forall z p, get (layer_data v' layer) z p = get s z p).
Proof.
  intros c s bb Hshape Hne Hbox Hzero.
  destruct (commit_impl_get st v layer Hshape Hne Hbox)
    as (seg & m & v' & Hrun & Hget).
  exists seg, m, v'. split; [exact Hrun |].
  rewrite (commit_impl_ok st v layer Hshape Hne Hbox) in Hrun.
  injection Hrun as <- _ _. split.
  - intros z p. rewrite Hget. fold c s bb.
    destruct (same_shape_get c s z p Hshape) as [H1 H2]. fold c s in H1, H2.
    destruct (get c z p) as [y|] eqn:Hy; [|done].
    destruct H1 as [x Hx]; [eauto |]. rewrite Hx. f_equal.
    unfold committed_pixel. destruct (in_bounds bb z) eqn:Hin; [|done].
    by rewrite (Hzero z p x Hin Hx).
  - intros z p. rewrite (proj2 (layer_data_set_layer_data v layer _)).
    rewrite shifted_source_get by apply bounds_le. fold s bb.
    destruct (get s z p) as [x|] eqn:Hx; [|done]. simpl. f_equal.
    unfold shifted_pixel. destruct (in_bounds bb z) eqn:Hin; [|done].
    by rewrite (Hzero z p x Hin Hx).
Qed.

Lemma commit_without_objects_witness :
  exists seg m v',
    _commit_impl ObjectIds.plain_state ObjectIds.second_layers Auto_segmentation
      = (v', Ok (1, seg, m, (0%nat, 2%nat)))
    /\ (forall z p,
          get (committed_objects v') z p
          = get (committed_objects ObjectIds.second_layers) z p)
    /\ (forall z p,
          get (layer_data v' Auto_segmentation) z p
          = get (auto_segmentation ObjectIds.second_layers) z p).
Proof.
  apply (commit_without_objects ObjectIds.plain_state ObjectIds.second_layers
           Auto_segmentation); try reflexivity.
  intros [|[|z]] [|[|p]] x Hin; simpl; try discriminate; intros [=]; done.
Defined.



Example commit_shape_mismatch_example :
  current_object (fst (_commit_impl ObjectIds.plain_state mismatched_layers
                         Current_object))
  = [[0; 5; 5]; [6; 0; 0]].
Proof. reflexivity. Qed.

(** A commit keeps the shape of the committed layer and of the source. *)
Lemma commit_keeps_shape (st : AnnotatorState) (v v' : Layers) (layer : layer_choice)
    (r : Z * volume * mask * (nat * nat)) :
  same_shape (committed_objects v) (layer_data v layer) = true ->
  _commit_impl st v layer = (v', Ok r) ->
  same_shape (committed_objects v') (committed_objects v) = true
  /\ same_shape (layer_data v' layer) (layer_data v layer) = true
  /\ is_empty (committed_objects v') = false.
Proof.
  intros Hshape Hrun.
  destruct (commit_impl_ok_nonempty _ _ _ _ _ Hrun) as [Hne Hbox].
  destruct (commit_impl_get st v layer Hshape Hne Hbox)
    as (seg & m & v0 & Hrun' & Hget).
  rewrite Hrun in Hrun'. injection Hrun' as <- _.
  rewrite (commit_impl_ok st v layer Hshape Hne Hbox) in Hrun.
  pose proof (bounds_le (z_range st) (length (layer_data v layer))) as [Hlo Hhi].
  pose proof (proj1 (same_shape_spec _ _) Hshape) as [Hlen _].
  assert (forall z p, is_Some (get (committed_objects v') z p)
                      <-> is_Some (get (committed_objects v) z p)) as Hsome.
  { intros z p. rewrite Hget.
    destruct (same_shape_get _ _ z p Hshape) as [H1 H2].
    destruct (get (committed_objects v) z p) as [y|]; [|done].
    destruct H1 as [x ->]; [eauto |]. split; eauto. }
  assert (length (committed_objects v') = length (committed_objects v)) as Hlen'.
  { injection Hrun as <- _. simpl.
    apply (write_view_length _ (snd (bounds (z_range st) (length (layer_data v layer)))));
      [lia | lia |].
    unfold put_where, add_where, not_equal_zero.
    rewrite !length_zip_with, length_map, !view_length by lia. lia. }
  split; [by apply same_shape_of_get |]. split.
  - injection Hrun as <- _.
    rewrite (proj2 (layer_data_set_layer_data v layer _)).
    apply same_shape_of_get.
    + apply (write_view_length _ (snd (bounds (z_range st) (length (layer_data v layer)))));
        [lia | lia |].
      unfold add_where, not_equal_zero.
      rewrite !length_zip_with, length_map, !view_length by lia. lia.
    + intros z p. rewrite shifted_source_get by done.
      by rewrite fmap_is_Some.
  - eapply (same_shape_is_empty (committed_objects v)); [done | | done].
    intros z p. symmetry. apply Hsome.
Qed.

Lemma same_shape_nonempty (a b : volume) :
  same_shape a b = true -> is_empty a = false -> is_empty b = false.
Proof.
  intros Hshape. apply same_shape_is_empty.
  - by apply same_shape_spec in Hshape as [? _].
  - intros z p. by apply same_shape_get.
Qed.

Section WidgetFacts.

Variable clear_annotations : Layers -> Layers.

(** X18.  A commit of the automatic segmentation from a bounding box that
    is not empty ends with the whole layer [auto_segmentation] set to zero,
    also in the slices outside the z-range, whose objects have not been
    committed; the current object is kept.  A second commit right after it
    returns normally and changes no pixel of the committed layer. *)
Theorem commit_auto_segmentation_twice (st : AnnotatorState) (v : Layers)
    (commit_path : option string) (n_prompts n_point_prompts : nat) :
  let c := committed_objects v in
  let s := auto_segmentation v in
  let bb := bounds (z_range st) (length s) in
  same_shape c s = true ->
  is_empty c = false ->
  is_empty (view (fst bb) (snd bb) s) = false ->
  let out1 := commit clear_annotations st v Auto_segmentation commit_path
                n_prompts n_point_prompts in
  let out2 := commit clear_annotations st (fst out1) Auto_segmentation commit_path
                n_prompts n_point_prompts in
  snd out1 = Ok tt
  /\ (forall z p, get (auto_segmentation (fst out1)) z p = (fun _ => 0) <$> get s z p)
  /\ current_object (fst out1) = current_object v
  /\ snd out2 = Ok tt
  /\ (forall z p,
        get (committed_objects (fst out2)) z p = get (committed_objects (fst out1)) z p).
Proof.
  intros c s bb Hshape Hne Hbox out1 out2.
  destruct (commit_impl_get st v Auto_segmentation Hshape Hne Hbox)
    as (seg & m & v1 & Hrun & Hget).
  destruct (commit_keeps_shape st v v1 Auto_segmentation _ Hshape Hrun)
    as (Hc1 & Hs1 & Hne1).
  assert (out1 = ({| committed_objects := committed_objects v1;
                     current_object := current_object v1;
                     auto_segmentation := map (map (fun _ => 0)) (auto_segmentation v1) |},
                  Ok tt)) as Hout1.
  { unfold out1, commit. rewrite Hrun. by destruct commit_path. }
  assert (current_object v1 = current_object v) as Hcur.
  { rewrite (commit_impl_ok st v Auto_segmentation Hshape Hne Hbox) in Hrun.
    by injection Hrun as <- _. }
  assert (forall z p, get (auto_segmentation v1) z p
                      = shifted_pixel (bounds (z_range st) (length s)) (np_max c) z
                          <$> get s z p) as Hsrc.
  { rewrite (commit_impl_ok st v Auto_segmentation Hshape Hne Hbox) in Hrun.
    injection Hrun as <- _. intros z p. simpl.
    apply shifted_source_get; apply bounds_le. }
  set (v2 := fst out1).
  assert (same_shape (committed_objects v2) (layer_data v2 Auto_segmentation) = true)
    as Hshape2.
  { unfold v2. rewrite Hout1. simpl.
    apply (same_shape_trans _ (committed_objects v)); [done |].
    apply (same_shape_trans _ s); [done |].
    apply same_shape_sym.
    apply (same_shape_trans _ (auto_segmentation v1)); [apply same_shape_map_map | done]. }
  assert (is_empty (committed_objects v2) = false) as Hne2
    by (unfold v2; by rewrite Hout1).
  assert (is_empty (view (fst (bounds (z_range st)
                                   (length (layer_data v2 Auto_segmentation))))
                          (snd (bounds (z_range st)
                                   (length (layer_data v2 Auto_segmentation))))
                          (layer_data v2 Auto_segmentation)) = false) as Hbox2.
  { assert (same_shape s (layer_data v2 Auto_segmentation) = true) as Hs2.
    { apply (same_shape_trans _ c); [by apply same_shape_sym |].
      apply (same_shape_trans _ (committed_objects v2)); [|done].
      apply same_shape_sym. unfold v2. by rewrite Hout1. }
    pose proof (proj1 (same_shape_spec _ _) Hs2) as [Hlen2 _].
    rewrite <- Hlen2. fold bb.
    apply (same_shape_nonempty (view (fst bb) (snd bb) s)); [|done].
    by apply same_shape_view. }
  destruct (commit_impl_get st v2 Auto_segmentation Hshape2 Hne2 Hbox2)
    as (seg2 & m2 & v3 & Hrun2 & Hget2).
  assert (out2 = ({| committed_objects := committed_objects v3;
                     current_object := current_object v3;
                     auto_segmentation := map (map (fun _ => 0)) (auto_segmentation v3) |},
                  Ok tt)) as Hout2.
  { unfold out2, commit. fold v2. rewrite Hrun2. by destruct commit_path. }
  split; [by rewrite Hout1 |]. split; [|split; [|split]].
  - intros z p. unfold v2. rewrite Hout1. simpl. rewrite get_map_map, Hsrc.
    by destruct (get s z p).
  - unfold v2. by rewrite Hout1.
  - by rewrite Hout2.
  - intros z p. rewrite Hout2. simpl. rewrite Hget2.
    destruct (same_shape_get _ _ z p Hshape2) as [H1 _].
    destruct (get (committed_objects v2) z p) as [y|] eqn:Hy; [|done].
    destruct H1 as [x Hx]; [eauto |]. rewrite Hx.
    assert (x = 0) as ->; [|by (unfold committed_pixel; rewrite andb_false_r)].
    unfold v2 in Hx. rewrite Hout1 in Hx. simpl in Hx.
    rewrite get_map_map in Hx. destruct (get (auto_segmentation v1) z p); by inversion Hx.
Qed.

(** X19.  After [_commit_impl] has returned, [commit_track] either returns
    normally, and then the tracking state is reset to track 1 with the
    lineage [{1: []}], or the file write raises, and then the session
    lineage and the current track id are as before while the lineage has
    been appended to the committed lineages all the same, and the layers are
    the ones [_commit_impl] left (the annotations are not cleared). *)
Theorem commit_track_reset_or_not (st : AnnotatorState) (v v1 : Layers)
    (layer : layer_choice) (commit_path : option string)
    (n_prompts n_point_prompts : nat)
    (id_offset : Z) (seg : volume) (m : mask) (bb : nat * nat) :
  _commit_impl st v layer = (v1, Ok (id_offset, seg, m, bb)) ->
  let out := commit_track clear_annotations st v layer commit_path
               n_prompts n_point_prompts in
  let st' := fst (fst out) in
  (snd out = Ok tt ->
     current_track_id st' = 1 /\ lineage st' = {[ 1 := [] ]}
     /\ z_range st' = z_range st)
  /\ (forall e, snd out = Raise e ->
        e = RuntimeError
        /\ current_track_id st' = current_track_id st
        /\ lineage st' = lineage st
        /\ committed_lineages st'
           = committed_lineages st ++ [shift_lineage id_offset (lineage st)]
        /\ snd (fst out) = v1)
  /\ (commit_path = None -> snd out = Ok tt).
Proof.
  intros Hrun out st'. unfold st', out, commit_track. rewrite Hrun.
  destruct commit_path as [path|]; simpl.
  - destruct (_commit_to_file layer seg m n_prompts n_point_prompts) as [[]|e] eqn:Hw;
      simpl.
    + repeat split; try done.
    + split; [done |]. split; [|done]. intros e' [= <-].
      repeat split.
      unfold _commit_to_file in Hw. destruct layer; [|done].
      repeat case_match; congruence.
  - repeat split; try done.
Qed.

End WidgetFacts.

Lemma commit_auto_segmentation_twice_witness :
  let out1 := commit (fun v => v) ranged_state auto_layers Auto_segmentation None 0 0 in
  let out2 := commit (fun v => v) ranged_state (fst out1) Auto_segmentation None 0 0 in
  snd out1 = Ok tt
  /\ (forall z p,
        get (auto_segmentation (fst out1)) z p
        = (fun _ => 0) <$> get (auto_segmentation auto_layers) z p)
  /\ current_object (fst out1) = current_object auto_layers
  /\ snd out2 = Ok tt
  /\ (forall z p,
        get (committed_objects (fst out2)) z p = get (committed_objects (fst out1)) z p).
Proof.
  apply (commit_auto_segmentation_twice (fun v => v) ranged_state auto_layers None 0 0);
    reflexivity.
Defined.

(** The objects of slice 0 lie outside the z-range: they are not committed
    and are gone from the automatic segmentation. *)
Example commit_auto_segmentation_example :
  fst (commit (fun v => v) ranged_state auto_layers Auto_segmentation None 0 0)
  = {| committed_objects := [[3; 0]; [0; 5]];
       current_object := [[0; 0]; [0; 0]];
       auto_segmentation := [[0; 0]; [0; 0]] |}.
Proof. reflexivity. Qed.

Lemma commit_track_reset_or_not_witness :
  let out := commit_track (fun v => v) example_state example_layers Current_object
               (Some "commit.zarr"%string) 0 0 in
  let st' := fst (fst out) in
  (snd out = Ok tt ->
     current_track_id st' = 1 /\ lineage st' = {[ 1 := [] ]}
     /\ z_range st' = z_range example_state)
  /\ (forall e, snd out = Raise e ->
        e = RuntimeError
        /\ current_track_id st' = current_track_id example_state
        /\ lineage st' = lineage example_state
        /\ committed_lineages st'
           = committed_lineages example_state
             ++ [shift_lineage 7 (lineage example_state)]
        /\ snd (fst out) = fst (_commit_impl example_state example_layers Current_object))
  /\ (Some "commit.zarr"%string = None -> snd out = Ok tt).
Proof.
  eapply (commit_track_reset_or_not (fun v => v) example_state example_layers).
  vm_compute. reflexivity.
Defined.

(** Three objects and no prompts: the write raises. *)
Example commit_track_write_raises :
  snd (commit_track (fun v => v) example_state example_layers Current_object
         (Some "commit.zarr"%string) 0 0) = Raise RuntimeError.
Proof. vm_compute. reflexivity. Qed.

(** X20.  Shifting a lineage by [a] and then by [b] is shifting it by
    [a + b]; in particular shifting back by the negated offset returns the
    session lineage, so a committed lineage determines the lineage it was
    built from. *)
Theorem shift_lineage_compose (a b : Z) (l : gmap Z (list Z)) :
  shift_lineage b (shift_lineage a l) = shift_lineage (a + b) l
  /\ shift_lineage (- a) (shift_lineage a l) = l
  /\ shift_lineage 0 l = l.
Proof.
  assert (forall x y m, shift_lineage y (shift_lineage x m) = shift_lineage (x + y) m)
    as Hcompose.
  { intros x y m. apply map_eq. intros k. rewrite !shift_lineage_lookup.
    replace (k - y - x) with (k - (x + y)) by lia.
    destruct (m !! (k - (x + y))) as [cs|]; simpl; [|done]. f_equal.
    rewrite <- list_fmap_compose. apply list_fmap_ext. intros i c _. simpl. lia. }
  assert (forall m, shift_lineage 0 m = m) as Hzero.
  { intros m. apply map_eq. intros k. rewrite shift_lineage_lookup.
    replace (k - 0) with k by lia.
    destruct (m !! k) as [cs|]; simpl; [|done]. f_equal.
    rewrite <- (list_fmap_id cs) at 2. apply list_fmap_ext. intros i c _. simpl. lia. }
  split; [apply Hcompose |]. split; [|apply Hzero].
  rewrite Hcompose. replace (a + - a) with 0 by lia. apply Hzero.
Qed.

(** X21.  With a z-range [(z_min, z_max)] in the state, as [segment_object]
    leaves it, whose bounding box is not empty, a commit of either layer
    returns and changes the committed layer and the source layer in the
    slices [z_min .. z_max] only. *)
Theorem commit_respects_z_range (st : AnnotatorState) (v : Layers)
    (layer : layer_choice) (z_min z_max : Z) :
  let c := committed_objects v in
  let s := layer_data v layer in
  let box := bounds (Some (z_min, z_max)) (length s) in
  z_range st = Some (z_min, z_max) ->
  0 <= z_min ->
  0 <= z_max + 1 ->
  same_shape c s = true ->
  is_empty c = false ->
  is_empty (view (fst box) (snd box) s) = false ->
  exists id_offset seg m bb v',
    _commit_impl st v layer = (v', Ok (id_offset, seg, m, bb))
    /\ forall z p,
         ~ (z_min <= Z.of_nat z <= z_max) ->
         get (committed_objects v') z p = get c z p
         /\ get (layer_data v' layer) z p = get s z p.
Proof.
  intros c s box Hrange Hmin Hmax Hshape Hne Hbox.
  unfold box in Hbox. rewrite <- Hrange in Hbox.
  destruct (commit_impl_get st v layer Hshape Hne Hbox)
    as (seg & m & v' & Hrun & Hget).
  eexists _, seg, m, _, v'. split; [exact Hrun |].
  rewrite (commit_impl_ok st v layer Hshape Hne Hbox) in Hrun.
  injection Hrun as <- _ _.
  intros z p Hz.
  assert (in_bounds (bounds (z_range st) (length s)) z = false) as Hout.
  { rewrite Hrange. unfold in_bounds, bounds, slice_bound. simpl.
    destruct (Z.ltb_spec z_min 0); [lia |].
    destruct (Z.ltb_spec (z_max + 1) 0); [lia |].
    apply andb_false_iff.
    destruct (Nat.leb_spec (Z.to_nat (Z.min z_min (Z.of_nat (length s)))) z);
      [|by left].
    right. apply Nat.ltb_ge. lia. }
  split.
  - rewrite Hget. fold c s. unfold committed_pixel. rewrite Hout. simpl.
    destruct (same_shape_get c s z p Hshape) as [H1 _].
    destruct (get c z p) as [y|]; [|done].
    by destruct H1 as [x ->]; [eauto |].
  - rewrite (proj2 (layer_data_set_layer_data v layer _)).
    rewrite shifted_source_get by apply bounds_le. fold s.
    unfold shifted_pixel. rewrite Hout. simpl. by destruct (get s z p).
Qed.

Lemma commit_respects_z_range_witness :
  exists id_offset seg m bb v',
    _commit_impl ranged_state auto_layers Auto_segmentation
      = (v', Ok (id_offset, seg, m, bb))
    /\ forall z p,
         ~ (1 <= Z.of_nat z <= 1) ->
         get (committed_objects v') z p = get (committed_objects auto_layers) z p
         /\ get (layer_data v' Auto_segmentation) z p
            = get (auto_segmentation auto_layers) z p.
Proof.
  apply (commit_respects_z_range ranged_state auto_layers Auto_segmentation 1 1);
    try reflexivity; lia.
Defined.

(** [segment_object] puts the z-range of the propagation into the state
    and leaves the committed layer alone. *)
Example segment_object_sets_z_range :
  let out :=
    segment_object
      (fun (_ _ _ _ : unit) (_ : list nat) => ([[0; 0]; [0; 5]], [1], false, false))
      (fun seg (_ _ : unit) (_ : list Z) (_ _ : bool) (_ _ _ : unit) => (seg, (1, 1)))
      ObjectIds.plain_state auto_layers tt tt [2; 2]%nat tt tt tt tt tt in
  z_range (fst out) = Some (1, 1)
  /\ current_object (snd out) = [[0; 0]; [0; 5]]
  /\ committed_objects (snd out) = committed_objects auto_layers.
Proof. repeat split. Qed.

End CommitFacts.

(** ** Tracking: the lineage of a session and the mask of a track *)

Module Tracking.

Import Commit Lineage CommitFacts.

(** Every daughter recorded in the lineage is a track of the lineage. *)
Definition closed (l : gmap Z (list Z)) : Prop :=
  forall k cs c, l !! k = Some cs -> c ∈ cs -> is_Some (l !! c).

(** The current track is a track of the lineage, and the lineage is
    closed: what the track id menu and the layer properties rely on. *)
Definition consistent (st : AnnotatorState) : Prop :=
  is_Some (lineage st !! current_track_id st) /\ closed (lineage st).

(** The lineage after [_update_lineage] for the mother [c]. *)
Definition divided (c : Z) (l : gmap Z (list Z)) : gmap Z (list Z) :=
  <[c + 2 := []]> (<[c + 1 := []]> (<[c := [c + 1; c + 2]]> l)).

(** The pixel of the current object layer after [track_object]. *)
Definition tracked_pixel (track : Z) (new old : Z) : Z :=
  if new =? 1 then track else if old =? track then 0 else old.

Lemma record_division_cases (st : AnnotatorState) (has_division : bool) :
  (record_division st has_division = (st, Ok tt)
   /\ (has_division = true ->
       exists d ds, lineage st !! current_track_id st = Some (d :: ds)))
  \/ (has_division = true
      /\ lineage st !! current_track_id st = None
      /\ record_division st has_division = (st, Raise KeyError))
  \/ (has_division = true
      /\ lineage st !! current_track_id st = Some []
      /\ record_division st has_division
         = (set_lineage st (divided (current_track_id st) (lineage st)), Ok tt)).
Proof.
  unfold record_division, _update_lineage, divided.
  destruct has_division; [|by left].
  destruct (lineage st !! current_track_id st) as [[|d ds]|] eqn:Hl.
  - right; right. done.
  - left. split; [done |]. eauto.
  - right; left. done.
Qed.

Lemma divided_lookup (c : Z) (l : gmap Z (list Z)) (t : Z) :
  divided c l !! t
  = if decide (t = c + 2) then Some []
    else if decide (t = c + 1) then Some []
    else if decide (t = c) then Some [c + 1; c + 2]
    else l !! t.
Proof.
  unfold divided. repeat case_decide; subst.
  - apply lookup_insert_eq.
  - rewrite lookup_insert_ne by done. apply lookup_insert_eq.
  - rewrite !lookup_insert_ne by done. apply lookup_insert_eq.
  - by rewrite !lookup_insert_ne by done.
Qed.

Lemma divided_is_Some (c : Z) (l : gmap Z (list Z)) (t : Z) :
  is_Some (l !! t) -> is_Some (divided c l !! t).
Proof. intros H. rewrite divided_lookup. repeat case_decide; eauto. Qed.

Lemma divided_closed (c : Z) (l : gmap Z (list Z)) :
  closed l -> closed (divided c l).
Proof.
  intros Hl k cs x Hk Hx. rewrite divided_lookup in Hk.
  repeat case_decide; subst.
  - injection Hk as <-. inversion Hx.
  - injection Hk as <-. inversion Hx.
  - injection Hk as <-. rewrite divided_lookup.
    apply elem_of_cons in Hx as [-> | Hx].
    + repeat case_decide; first [by eauto | lia].
    + apply list_elem_of_singleton in Hx as ->.
      repeat case_decide; first [by eauto | lia].
  - apply divided_is_Some. eauto.
Qed.

Lemma shift_lineage_closed (k : Z) (l : gmap Z (list Z)) :
  closed l -> closed (shift_lineage k l).
Proof.
  intros Hl t cs c Ht Hc. rewrite shift_lineage_lookup in Ht |- *.
  apply fmap_Some in Ht as (cs0 & Ht & ->).
  apply list_elem_of_fmap in Hc as (c0 & -> & Hc0).
  replace (c0 + k - k) with c0 by lia.
  apply fmap_is_Some. eauto.
Qed.

Lemma reset_tracking_state_consistent (st : AnnotatorState) :
  consistent (_reset_tracking_state st).
Proof.
  split; simpl.
  - rewrite lookup_singleton_eq. eauto.
  - intros k cs c [_ <-]%lookup_singleton_Some Hc. inversion Hc.
Qed.

Lemma get_tracked (track : Z) (seg data : volume) (z p : nat) :
  0 <= track < 2 ^ 32 ->
  get (fill_where (equal_to 1 seg) track
         (fill_where (equal_to track data) 0 data)) z p
  = match get seg z p, get data z p with
    | Some new, Some old => Some (tracked_pixel track new old)
    | _, _ => None
    end.
Proof.
  intros Ht. rewrite !get_fill_where, !get_equal_to.
  destruct (get seg z p) as [new|]; simpl; [|done].
  destruct (get data z p) as [old|]; simpl; [|done].
  unfold tracked_pixel. rewrite !wrap32_small by lia. done.
Qed.

Lemma get_cleared (track : Z) (data : volume) (z p : nat) :
  get (fill_where (equal_to track data) 0 data) z p
  = (fun old => if old =? track then 0 else old) <$> get data z p.
Proof.
  rewrite get_fill_where, get_equal_to.
  destruct (get data z p) as [old|]; simpl; [|done].
  by rewrite wrap32_small by lia.
Qed.

Lemma cleared_shape (track : Z) (data : volume) :
  same_shape (fill_where (equal_to track data) 0 data) data = true.
Proof.
  apply same_shape_of_get.
  - unfold fill_where, equal_to. rewrite length_zip_with, length_map. lia.
  - intros z p. rewrite get_cleared. apply fmap_is_Some.
Qed.

Lemma record_division_track_id (st : AnnotatorState) (has_division : bool) :
  current_track_id (fst (record_division st has_division)) = current_track_id st.
Proof.
  destruct (record_division_cases st has_division)
    as [[H _] | [(_ & _ & H) | (_ & _ & H)]]; by rewrite H.
Qed.

(** A session with one frame in which track 1, the current track, and
    track 2 have a mask each. *)
Definition two_tracks : Layers :=
  {| committed_objects := [[0; 0; 0]];
     current_object := [[1; 1; 2]];
     auto_segmentation := [[0; 0; 0]] |}.

(** X22.  The assertions of [_update_lineage] cannot fail when it is called
    from [track_object]: the division step either returns normally or
    raises [KeyError], the latter exactly when a division is reported for a
    current track id that is not a key of the lineage, and then the state is
    unchanged.  A division step never removes a track and never changes the
    current track id. *)
Theorem division_step_outcomes (st : AnnotatorState) (has_division : bool) :
  let out := record_division st has_division in
  snd out <> Raise AssertionError
  /\ (snd out = Ok tt \/ snd out = Raise KeyError)
  /\ (snd out = Raise KeyError
      <-> has_division = true /\ lineage st !! current_track_id st = None)
  /\ (snd out = Raise KeyError -> fst out = st)
  /\ current_track_id (fst out) = current_track_id st
  /\ committed_lineages (fst out) = committed_lineages st
  /\ (forall t, is_Some (lineage st !! t) -> is_Some (lineage (fst out) !! t)).
Proof.
  destruct (record_division_cases st has_division)
    as [[H Hd] | [(Hb & Hl & H) | (Hb & Hl & H)]]; rewrite H; simpl.
  - split; [done |]. split; [by left |]. split; [|done].
    split; [done |]. intros [Hb Hl]. destruct (Hd Hb) as (d & ds & Hd').
    congruence.
  - split; [done |]. split; [by right |]. done.
  - split; [done |]. split; [by left |]. split.
    { split; [done |]. intros [_ Hn]. congruence. }
    split; [done |]. split; [done |]. split; [done |].
    intros t. apply divided_is_Some.
Qed.

(** X23.  In a consistent state (the current track is a key of the lineage
    and every recorded daughter is a key as well), as
    [_reset_tracking_state] leaves it, the division step of [track_object]
    returns normally and leaves a consistent state; the lineage that
    [commit_track] derives from it by shifting the ids is closed too. *)
Theorem division_keeps_lineage_consistent (st : AnnotatorState)
    (has_division : bool) (id_offset : Z) :
  consistent st ->
  exists st',
    record_division st has_division = (st', Ok tt)
    /\ consistent st'
    /\ closed (shift_lineage id_offset (lineage st')).
Proof.
  intros [Hcur Hclosed].
  destruct (record_division_cases st has_division)
    as [[H Hd] | [(Hb & Hl & H) | (Hb & Hl & H)]]; rewrite H.
  - exists st. split; [done |]. split; [done |]. by apply shift_lineage_closed.
  - rewrite Hl in Hcur. by destruct Hcur.
  - eexists. split; [done |].
    assert (closed (divided (current_track_id st) (lineage st))) as Hc
      by (by apply divided_closed).
    split; [split |]; simpl.
    + by apply divided_is_Some.
    + exact Hc.
    + by apply shift_lineage_closed.
Qed.

Lemma division_keeps_lineage_consistent_witness :
  exists st',
    record_division (_reset_tracking_state fresh_session) true = (st', Ok tt)
    /\ consistent st'
    /\ closed (shift_lineage 7 (lineage st')).
Proof.
  apply (division_keeps_lineage_consistent (_reset_tracking_state fresh_session) true 7).
  apply reset_tracking_state_consistent.
Defined.

(** X24.  When the dividing track has no daughters yet and carries the
    largest track id of a closed lineage, the division gives it two
    daughters that were no tracks before, each without daughters; every
    other track keeps its daughters, and no other track lists one of the
    two new tracks as a daughter. *)
Theorem division_of_newest_track (st : AnnotatorState) :
  let c := current_track_id st in
  closed (lineage st) ->
  lineage st !! c = Some [] ->
  (forall t, is_Some (lineage st !! t) -> t <= c) ->
  exists st',
    record_division st true = (st', Ok tt)
    /\ lineage st !! (c + 1) = None
    /\ lineage st !! (c + 2) = None
    /\ lineage st' !! c = Some [c + 1; c + 2]
    /\ lineage st' !! (c + 1) = Some []
    /\ lineage st' !! (c + 2) = Some []
    /\ (forall t, t <> c -> t <> c + 1 -> t <> c + 2 ->
          lineage st' !! t = lineage st !! t)
    /\ (forall t cs, t <> c -> lineage st' !! t = Some cs ->
          ((c + 1) ∉ cs) /\ ((c + 2) ∉ cs)).
Proof.
  intros c Hclosed Hc Hmax.
  assert (forall d, c < d -> lineage st !! d = None) as Hnew.
  { intros d Hd. apply eq_None_not_Some. intros H%Hmax. lia. }
  destruct (record_division_cases st true)
    as [[H Hd] | [(Hb & Hl & H) | (Hb & Hl & H)]].
  - destruct (Hd eq_refl) as (d & ds & Hd'). fold c in Hd'. congruence.
  - fold c in Hl. congruence.
  - rewrite H. fold c. eexists. split; [done |]. simpl.
    split; [apply Hnew; lia |]. split; [apply Hnew; lia |].
    rewrite !divided_lookup.
    split; [repeat case_decide; first [lia | done] |].
    split; [repeat case_decide; first [lia | done] |].
    split; [repeat case_decide; first [lia | done] |].
    split.
    + intros t H1 H2 H3. rewrite divided_lookup. repeat case_decide; first [lia | done].
    + intros t cs Ht Hcs. rewrite divided_lookup in Hcs.
      repeat case_decide; subst.
      * injection Hcs as <-. split; apply not_elem_of_nil.
      * injection Hcs as <-. split; apply not_elem_of_nil.
      * done.
      * split; intros Hin; apply (Hclosed _ _ _ Hcs) in Hin;
          rewrite Hnew in Hin by lia; by destruct Hin.
Qed.

Lemma division_of_newest_track_witness :
  exists st',
    record_division fresh_session true = (st', Ok tt)
    /\ lineage fresh_session !! (1 + 1) = None
    /\ lineage fresh_session !! (1 + 2) = None
    /\ lineage st' !! 1 = Some [1 + 1; 1 + 2]
    /\ lineage st' !! (1 + 1) = Some []
    /\ lineage st' !! (1 + 2) = Some []
    /\ (forall t, t <> 1 -> t <> 1 + 1 -> t <> 1 + 2 ->
          lineage st' !! t = lineage fresh_session !! t)
    /\ (forall t cs, t <> 1 -> lineage st' !! t = Some cs ->
          ((1 + 1) ∉ cs) /\ ((1 + 2) ∉ cs)).
Proof.
  apply (division_of_newest_track fresh_session).
  - apply (reset_tracking_state_consistent fresh_session).
  - reflexivity.
  - intros t [cs Hcs]. simpl in Hcs.
    apply lookup_singleton_Some in Hcs as [<- _]. simpl. lia.
Defined.

(** X25.  When the tracking run returns a mask [seg] of the shape of the
    layer, the division step succeeds and the current track id is a nonzero
    [uint32] label, [track_object] returns normally; afterwards the pixels
    of the current object layer that hold the track id are exactly the
    pixels of the new mask, every other pixel that held the track id holds
    0, the pixels of other tracks outside the mask are unchanged, and the
    other two layers are unchanged. *)
Theorem track_object_writes_track_mask (st : AnnotatorState) (v : Layers)
    (seg : volume) (has_division : bool) :
  let track := current_track_id st in
  snd (record_division st has_division) = Ok tt ->
  same_shape seg (current_object v) = true ->
  1 <= track < 2 ^ 32 ->
  exists v',
    track_object st v seg has_division
      = ((fst (record_division st has_division), v'), Ok tt)
    /\ committed_objects v' = committed_objects v
    /\ auto_segmentation v' = auto_segmentation v
    /\ same_shape (current_object v') (current_object v) = true
    /\ forall z p old,
         get (current_object v) z p = Some old ->
         exists new now,
           get seg z p = Some new
           /\ get (current_object v') z p = Some now
           /\ now = tracked_pixel track new old
           /\ (now = track <-> new = 1).
Proof.
  intros track Hok Hshape Htrack.
  pose proof (record_division_track_id st has_division) as Hid.
  unfold track_object.
  destruct (record_division st has_division) as [st' r]. simpl in Hok, Hid. subst r.
  rewrite Hid. fold track.
  assert (same_shape seg (fill_where (equal_to track (current_object v)) 0
                            (current_object v)) = true) as Hcleared.
  { eapply same_shape_trans; [exact Hshape |].
    apply same_shape_sym, cleared_shape. }
  rewrite Hcleared. simpl.
  eexists. split; [reflexivity |]. simpl.
  split; [done |]. split; [done |]. split.
  - apply same_shape_of_get.
    + unfold fill_where, equal_to. rewrite !length_zip_with, !length_map.
      apply same_shape_spec in Hshape as [Hlen _]. lia.
    + intros z p. rewrite get_tracked by lia.
      pose proof (same_shape_get seg (current_object v) z p Hshape) as Hsome.
      destruct (get seg z p) as [new|], (get (current_object v) z p) as [old|];
        split; intros [x Hx]; try discriminate; eauto.
      destruct (proj2 Hsome) as [? ?]; [eauto | discriminate].
  - intros z p old Hold.
    destruct (proj2 (same_shape_get seg (current_object v) z p Hshape)) as [new Hnew];
      [eauto |].
    exists new, (tracked_pixel track new old).
    split; [done |]. split; [by rewrite get_tracked, Hnew, Hold by lia |].
    split; [done |]. unfold tracked_pixel.
    destruct (Z.eqb_spec new 1); [done |].
    destruct (Z.eqb_spec old track); split; intros; lia.
Qed.

Lemma track_object_writes_track_mask_witness :
  exists v',
    track_object fresh_session two_tracks [[0; 1; 1]] true
      = ((fst (record_division fresh_session true), v'), Ok tt)
    /\ committed_objects v' = committed_objects two_tracks
    /\ auto_segmentation v' = auto_segmentation two_tracks
    /\ same_shape (current_object v') (current_object two_tracks) = true
    /\ forall z p old,
         get (current_object two_tracks) z p = Some old ->
         exists new now,
           get [[0; 1; 1]] z p = Some new
           /\ get (current_object v') z p = Some now
           /\ now = tracked_pixel 1 new old
           /\ (now = 1 <-> new = 1).
Proof.
  apply (track_object_writes_track_mask fresh_session two_tracks [[0; 1; 1]] true);
    [reflexivity | reflexivity | simpl; lia].
Defined.

Example track_object_example :
  current_object (snd (fst (track_object fresh_session two_tracks [[0; 1; 1]] true)))
  = [[0; 1; 1]].
Proof. reflexivity. Qed.



Example track_object_mismatch_example :
  track_object fresh_session two_tracks [[0; 1]] true
  = ((Lineage.divided_session,
      {| committed_objects := [[0; 0; 0]];
         current_object := [[0; 0; 2]];
         auto_segmentation := [[0; 0; 0]] |}), Raise IndexError).
Proof. vm_compute. reflexivity. Qed.

End Tracking.
